(** * homebridge-generic-light: the LED controller driver

    A shallow embedding of [src/control/control.ts] (class [Control]) and of
    its helper module ([clamp], [speedToDelay], [delayToSpeed],
    [determineMode], [determinePattern]), followed by the properties of the
    protocol engine: checksum framing, FIFO settlement, error reset,
    fire-and-forget commands, pattern frames and response classification.

    Conventions.
    - A JavaScript [number] is an IEEE-754 binary64 value: the arithmetic of
      the helpers is carried out on Rocq's primitive floats, which are
      binary64 with round-to-nearest-even.  Numbers on which the code uses
      integer or bit operations (bytes, pattern codes) are [Z].
    - A [Buffer] is a list of bytes, each a [Z] in [0, 255].
    - A promise is identified by a number; its [resolve] and [reject]
      functions settle it at most once.
    - The Node.js runtime (sockets, timers, pending write callbacks) is an
      explicit part of the state; what the runtime does next is an [Event]. *)

From Stdlib Require Import ZArith List String Bool Lia Lqa Sorted.
From Stdlib Require Import Floats QArith Qabs Qminmax.
Import ListNotations.

Local Open Scope string_scope.
Local Open Scope list_scope.
Local Open Scope Z_scope.

(** ** Exceptions *)

Inductive exn : Type :=
| RangeError
| TypeError
| Error (msg : string).

Inductive result (A : Type) : Type :=
| Ok (a : A)
| Throw (e : exn).

Arguments Ok {A} a.
Arguments Throw {A} e.

Definition bind {A B : Type} (r : result A) (k : A -> result B) : result B :=
  match r with
  | Ok a => k a
  | Throw e => Throw e
  end.

Notation "x <- r ;; k" := (bind r (fun x => k))
  (at level 61, r at next level, right associativity).

(** [a && b] and [a || b] where evaluating an operand may throw: the right
    operand is only looked at when the left one does not decide. *)
Definition andR (a b : result bool) : result bool :=
  x <- a ;; if x then b else Ok false.

Definition orR (a b : result bool) : result bool :=
  x <- a ;; if x then Ok true else b.

(** ** Numbers *)

Module Number.

(** The number denoted by an integer literal or an integer-valued input
    (exact below 2^53 in magnitude). *)
Definition ofZ (z : Z) : float :=
  if z <? 0 then PrimFloat.opp (PrimFloat.of_uint63 (Uint63.of_Z (- z)))
  else PrimFloat.of_uint63 (Uint63.of_Z z).

Definition is_neg_zero (x : float) : bool :=
  match PrimFloat.classify x with
  | NZero => true
  | _ => false
  end.

(** [Math.max] and [Math.min] of two numbers: NaN if either is NaN, and
    [+0] counts as larger than [-0]. *)
Definition Math_max (x y : float) : float :=
  match PrimFloat.compare x y with
  | FNotComparable => PrimFloat.nan
  | FLt => y
  | FGt => x
  | FEq => if is_neg_zero x then y else x
  end.

Definition Math_min (x y : float) : float :=
  match PrimFloat.compare x y with
  | FNotComparable => PrimFloat.nan
  | FLt => x
  | FGt => y
  | FEq => if is_neg_zero y then y else x
  end.

(** ToUint8, the conversion applied to a number stored into a byte of a
    [Buffer]: NaN, zeros and infinities give 0, anything else is truncated
    toward zero and reduced modulo 256. *)
Definition toUint8 (x : float) : Z :=
  match Prim2SF x with
  | S754_finite s m e =>
      let a := Z.shiftl (Zpos m) e in
      (if s then - a else a) mod 256
  | _ => 0
  end.

(** The exact rational value of a finite number. *)
Definition toQ (x : float) : option Q :=
  match Prim2SF x with
  | S754_zero _ => Some 0%Q
  | S754_finite s m e =>
      let a := (inject_Z (Zpos m) * Qpower 2 e)%Q in
      Some (if s then (- a)%Q else a)
  | _ => None
  end.

(** [Math.round]: the nearest integer, ties toward +infinity; a result
    that is zero keeps the sign of the argument. *)
Definition Math_round (x : float) : float :=
  match Prim2SF x with
  | S754_finite s m e =>
      if 0 <=? e then x
      else
        let d := 2 ^ (- e) in
        let n := (2 * (if s then Zneg m else Zpos m) + d) / (2 * d) in
        if n =? 0 then (if s then PrimFloat.opp PrimFloat.zero
                        else PrimFloat.zero)
        else ofZ n
  | _ => x
  end.


End Number.

(** An element of a JavaScript array of numbers handed to [Buffer.from]. *)
Inductive jsnum : Type :=
| Int (z : Z)
| Dbl (x : float).

Definition Buffer : Type := list Z.

Module Buf.

Definition toByte (v : jsnum) : Z :=
  match v with
  | Int z => z mod 256
  | Dbl x => Number.toUint8 x
  end.

(** [Buffer.from(array)]: every entry is coerced to a byte. *)
Definition from (a : list jsnum) : Buffer := map toByte a.

Definition readUInt8 (b : Buffer) (offset : nat) : result Z :=
  match nth_error b offset with
  | Some v => Ok v
  | None => Throw RangeError
  end.

Definition readUInt16BE (b : Buffer) (offset : nat) : result Z :=
  match nth_error b offset, nth_error b (S offset) with
  | Some first, Some last => Ok (first * 2 ^ 8 + last)
  | _, _ => Throw RangeError
  end.

End Buf.

(** ** helpers *)

Module Helpers.

Import Number.
Local Open Scope float_scope.

Definition clamp (value min max : float) : float :=
  Math_min max (Math_max min value).

Definition delayToSpeed (delay : float) : float :=
  let delay := clamp delay 1 31 in
  let delay := delay - 1 in
  100 - (delay / 30) * 100.

Definition speedToDelay (speed : float) : float :=
  let speed := clamp speed 0 100 in
  30 - (speed / 100) * 30 + 1.

Local Close Scope float_scope.

(** The modes ['color'], ['special'], ['custom'], ['pattern'] and
    ['ia_pattern']. *)
Inductive Mode : Type :=
| mode_color | mode_special | mode_custom | mode_pattern | mode_ia_pattern.

(** A pattern identifier: a name of the pattern table or the number of an
    extended pattern. *)
Inductive PatternId : Type :=
| PName (name : string)
| PCode (code : Z).

Definition u8 (resp : Buffer) (off : nat) (p : Z -> bool) : result bool :=
  x <- Buf.readUInt8 resp off ;; Ok (p x).

Definition u16 (resp : Buffer) (off : nat) (p : Z -> bool) : result bool :=
  x <- Buf.readUInt16BE resp off ;; Ok (p x).

(** [null] is [None]. *)
Definition determineMode (resp : Buffer) : result (option Mode) :=
  c <- orR (u8 resp 3 (Z.eqb 0x61))
           (andR (u8 resp 3 (Z.eqb 0)) (u8 resp 4 (Z.eqb 0x61))) ;;
  if c then Ok (Some mode_color) else
  c <- u8 resp 3 (Z.eqb 0x62) ;;
  if c then Ok (Some mode_special) else
  c <- u8 resp 3 (Z.eqb 0x60) ;;
  if c then Ok (Some mode_custom) else
  c <- andR (u8 resp 3 (Z.leb 0x25)) (u8 resp 3 (fun x => x <=? 0x38)) ;;
  if c then Ok (Some mode_pattern) else
  c <- andR (u16 resp 3 (Z.leb 0x64)) (u16 resp 3 (fun x => x <=? 0x018f)) ;;
  if c then Ok (Some mode_ia_pattern) else
  Ok None.

(** The names of the properties of [Object.prototype], which a plain
    object such as [patterns] inherits. *)
Definition objectPrototype : list string :=
  ["constructor"; "__defineGetter__"; "__defineSetter__"; "hasOwnProperty";
   "__lookupGetter__"; "__lookupSetter__"; "isPrototypeOf";
   "propertyIsEnumerable"; "toString"; "valueOf"; "__proto__";
   "toLocaleString"].

(** What a property lookup on [patterns] finds: the code of an own
    property, or a member of [Object.prototype] (a function, or the
    prototype itself for [__proto__]). *)
Inductive Member : Type :=
| OwnCode (code : Z)
| Inherited.

(** A member as an entry of the array handed to [Buffer.from]: a function
    or a plain object converts to NaN. *)
Definition memberNum (m : Member) : jsnum :=
  match m with
  | OwnCode code => Int code
  | Inherited => Dbl PrimFloat.nan
  end.

Section Patterns.

(** The pattern table [patterns] of [constants.ts], name to code, in the
    order of its keys; the development is parametric in it. *)
Variable patterns : list (string * Z).

(** [patterns[name]], [undefined] being [None]: an own property of the
    table first, an inherited one otherwise. *)
Definition patternCode (name : string) : option Member :=
  match find (fun e => String.eqb (fst e) name) patterns with
  | Some e => Some (OwnCode (snd e))
  | None =>
      if existsb (String.eqb name) objectPrototype then Some Inherited
      else None
  end.

(** The [for ... in] loop of [determinePattern]: the first name whose
    code is the byte at offset 3. *)
Fixpoint firstName (tbl : list (string * Z)) (resp : Buffer)
  : result (option string) :=
  match tbl with
  | [] => Ok None
  | (patternName, code) :: rest =>
      b <- Buf.readUInt8 resp 3 ;;
      if code =? b then Ok (Some patternName) else firstName rest resp
  end.

Definition iaCode (resp : Buffer) : result (option PatternId) :=
  c <- andR (u16 resp 3 (Z.leb 0x64)) (u16 resp 3 (fun x => x <=? 0x018f)) ;;
  if c then x <- Buf.readUInt16BE resp 3 ;; Ok (Some (PCode (x - 99)))
  else Ok None.

Definition determinePattern (resp : Buffer) : result (option PatternId) :=
  c <- andR (u8 resp 3 (Z.leb 0x25)) (u8 resp 3 (fun x => x <=? 0x38)) ;;
  if c then
    found <- firstName patterns resp ;;
    match found with
    | Some patternName => Ok (Some (PName patternName))
    | None => iaCode resp
    end
  else iaCode resp.

End Patterns.

End Helpers.

(** The arithmetic of [clamp], [speedToDelay] and [delayToSpeed] carried out
    on exact rationals: what the binary64 results are roundings of. *)

Module Exact.

Local Open Scope Q_scope.

Definition clamp (value min max : Q) : Q := Qmin max (Qmax min value).

Definition delayToSpeed (delay : Q) : Q :=
let delay := clamp delay 1 31 in
let delay := delay - 1 in
100 - (delay / 30) * 100.

Definition speedToDelay (speed : Q) : Q :=
let speed := clamp speed 0 100 in
30 - (speed / 100) * 30 + 1.

End Exact.

(** ** control: the class [Control]

    The queue manager (the private methods and the listeners they
    register) and the public methods [setPower], [setPattern],
    [setIAPattern], [setCustomPattern] and [queryState].  The color methods
    ([sendColorChangeCommand] and its callers) reach the queue through the
    same [sendCommand] and are not needed below; [lastColor], [lastWW] and
    [lastCW] are kept because [queryState] writes them. *)

Module Control.

Import Helpers.

Record RgbColorType : Type := { red : Z; green : Z; blue : Z }.

Record ControlOptionsAckType : Type := {
  power : bool;
  color : bool;
  pattern : bool;
  customPattern : bool
}.

(** [undefined] durations are [None]. *)
Record Options : Type := {
  logAllReceived : bool;
  applyMasks : bool;
  commandTimeoutLength : option Z;
  connectTimeoutLength : option Z;
  coldWhiteSupport : bool;
  ack : ControlOptionsAckType
}.

(** An entry of [commandQueue].  [promise] stands for the pair
    [resolve], [reject] of the promise the caller created for it. *)
Record Cmd : Type := {
  expectReply : bool;
  promise : nat;
  command : Buffer
}.

Inductive Outcome : Type :=
| Resolved (data : Buffer)
| Rejected (err : exn).

(** What an armed timer runs when it fires: the end of the quiet period
    after received data, the timeout of a command, or the timeout of a
    connection attempt (whose closure holds the [reject] of the command
    that opened the socket). *)
Inductive TimerCb : Type :=
| ReceiveQuiet
| CommandTimeout
| ConnectTimeout (reject : nat).

(** A socket of the runtime.  [opener] is the [reject] held by its
    ['error'] listener; [writeCallbacks] are the commands written whose
    write callback has not run yet, oldest first. *)
Record Socket : Type := {
  opener : nat;
  connecting : bool;
  ended : bool;
  writeCallbacks : list Cmd
}.

Record State : Type := {
  (* the fields of the instance *)
  options : Options;
  commandQueue : list Cmd;
  socket : option nat;
  receivedData : Buffer;
  receiveTimeout : option nat;
  connectTimeout : option nat;
  commandTimeout : option nat;
  preventDataSending : bool;
  lastColor : RgbColorType;
  lastWW : Z;
  lastCW : Z;
  (* the runtime: the sockets created so far (a handle is an index), the
     armed timers, the commands handed to [socket.write], the number of
     promises created and the settlements in the order they happened *)
  sockets : list Socket;
  timers : list (nat * TimerCb);
  nextTimer : nat;
  wire : list Cmd;
  promises : nat;
  settled : list (nat * Outcome)
}.

Definition set_options (v : Options) (s : State) : State :=
  {| options := v; commandQueue := commandQueue s; socket := socket s;
     receivedData := receivedData s; receiveTimeout := receiveTimeout s;
     connectTimeout := connectTimeout s; commandTimeout := commandTimeout s;
     preventDataSending := preventDataSending s; lastColor := lastColor s;
     lastWW := lastWW s; lastCW := lastCW s; sockets := sockets s; timers :=
     timers s; nextTimer := nextTimer s; wire := wire s; promises := promises
     s; settled := settled s |}.

Definition set_commandQueue (v : list Cmd) (s : State) : State :=
  {| options := options s; commandQueue := v; socket := socket s;
     receivedData := receivedData s; receiveTimeout := receiveTimeout s;
     connectTimeout := connectTimeout s; commandTimeout := commandTimeout s;
     preventDataSending := preventDataSending s; lastColor := lastColor s;
     lastWW := lastWW s; lastCW := lastCW s; sockets := sockets s; timers :=
     timers s; nextTimer := nextTimer s; wire := wire s; promises := promises
     s; settled := settled s |}.

Definition set_socket (v : option nat) (s : State) : State :=
  {| options := options s; commandQueue := commandQueue s; socket := v;
     receivedData := receivedData s; receiveTimeout := receiveTimeout s;
     connectTimeout := connectTimeout s; commandTimeout := commandTimeout s;
     preventDataSending := preventDataSending s; lastColor := lastColor s;
     lastWW := lastWW s; lastCW := lastCW s; sockets := sockets s; timers :=
     timers s; nextTimer := nextTimer s; wire := wire s; promises := promises
     s; settled := settled s |}.

Definition set_receivedData (v : Buffer) (s : State) : State :=
  {| options := options s; commandQueue := commandQueue s; socket := socket
     s; receivedData := v; receiveTimeout := receiveTimeout s; connectTimeout
     := connectTimeout s; commandTimeout := commandTimeout s;
     preventDataSending := preventDataSending s; lastColor := lastColor s;
     lastWW := lastWW s; lastCW := lastCW s; sockets := sockets s; timers :=
     timers s; nextTimer := nextTimer s; wire := wire s; promises := promises
     s; settled := settled s |}.

Definition set_receiveTimeout (v : option nat) (s : State) : State :=
  {| options := options s; commandQueue := commandQueue s; socket := socket
     s; receivedData := receivedData s; receiveTimeout := v; connectTimeout :=
     connectTimeout s; commandTimeout := commandTimeout s; preventDataSending
     := preventDataSending s; lastColor := lastColor s; lastWW := lastWW s;
     lastCW := lastCW s; sockets := sockets s; timers := timers s; nextTimer :=
     nextTimer s; wire := wire s; promises := promises s; settled := settled s
     |}.

Definition set_connectTimeout (v : option nat) (s : State) : State :=
  {| options := options s; commandQueue := commandQueue s; socket := socket
     s; receivedData := receivedData s; receiveTimeout := receiveTimeout s;
     connectTimeout := v; commandTimeout := commandTimeout s;
     preventDataSending := preventDataSending s; lastColor := lastColor s;
     lastWW := lastWW s; lastCW := lastCW s; sockets := sockets s; timers :=
     timers s; nextTimer := nextTimer s; wire := wire s; promises := promises
     s; settled := settled s |}.

Definition set_commandTimeout (v : option nat) (s : State) : State :=
  {| options := options s; commandQueue := commandQueue s; socket := socket
     s; receivedData := receivedData s; receiveTimeout := receiveTimeout s;
     connectTimeout := connectTimeout s; commandTimeout := v;
     preventDataSending := preventDataSending s; lastColor := lastColor s;
     lastWW := lastWW s; lastCW := lastCW s; sockets := sockets s; timers :=
     timers s; nextTimer := nextTimer s; wire := wire s; promises := promises
     s; settled := settled s |}.

Definition set_preventDataSending (v : bool) (s : State) : State :=
  {| options := options s; commandQueue := commandQueue s; socket := socket
     s; receivedData := receivedData s; receiveTimeout := receiveTimeout s;
     connectTimeout := connectTimeout s; commandTimeout := commandTimeout s;
     preventDataSending := v; lastColor := lastColor s; lastWW := lastWW s;
     lastCW := lastCW s; sockets := sockets s; timers := timers s; nextTimer :=
     nextTimer s; wire := wire s; promises := promises s; settled := settled s
     |}.

Definition set_lastColor (v : RgbColorType) (s : State) : State :=
  {| options := options s; commandQueue := commandQueue s; socket := socket
     s; receivedData := receivedData s; receiveTimeout := receiveTimeout s;
     connectTimeout := connectTimeout s; commandTimeout := commandTimeout s;
     preventDataSending := preventDataSending s; lastColor := v; lastWW :=
     lastWW s; lastCW := lastCW s; sockets := sockets s; timers := timers s;
     nextTimer := nextTimer s; wire := wire s; promises := promises s; settled
     := settled s |}.

Definition set_lastWW (v : Z) (s : State) : State :=
  {| options := options s; commandQueue := commandQueue s; socket := socket
     s; receivedData := receivedData s; receiveTimeout := receiveTimeout s;
     connectTimeout := connectTimeout s; commandTimeout := commandTimeout s;
     preventDataSending := preventDataSending s; lastColor := lastColor s;
     lastWW := v; lastCW := lastCW s; sockets := sockets s; timers := timers s;
     nextTimer := nextTimer s; wire := wire s; promises := promises s; settled
     := settled s |}.

Definition set_lastCW (v : Z) (s : State) : State :=
  {| options := options s; commandQueue := commandQueue s; socket := socket
     s; receivedData := receivedData s; receiveTimeout := receiveTimeout s;
     connectTimeout := connectTimeout s; commandTimeout := commandTimeout s;
     preventDataSending := preventDataSending s; lastColor := lastColor s;
     lastWW := lastWW s; lastCW := v; sockets := sockets s; timers := timers s;
     nextTimer := nextTimer s; wire := wire s; promises := promises s; settled
     := settled s |}.

Definition set_sockets (v : list Socket) (s : State) : State :=
  {| options := options s; commandQueue := commandQueue s; socket := socket
     s; receivedData := receivedData s; receiveTimeout := receiveTimeout s;
     connectTimeout := connectTimeout s; commandTimeout := commandTimeout s;
     preventDataSending := preventDataSending s; lastColor := lastColor s;
     lastWW := lastWW s; lastCW := lastCW s; sockets := v; timers := timers s;
     nextTimer := nextTimer s; wire := wire s; promises := promises s; settled
     := settled s |}.

Definition set_timers (v : list (nat * TimerCb)) (s : State) : State :=
  {| options := options s; commandQueue := commandQueue s; socket := socket
     s; receivedData := receivedData s; receiveTimeout := receiveTimeout s;
     connectTimeout := connectTimeout s; commandTimeout := commandTimeout s;
     preventDataSending := preventDataSending s; lastColor := lastColor s;
     lastWW := lastWW s; lastCW := lastCW s; sockets := sockets s; timers := v;
     nextTimer := nextTimer s; wire := wire s; promises := promises s; settled
     := settled s |}.

Definition set_nextTimer (v : nat) (s : State) : State :=
  {| options := options s; commandQueue := commandQueue s; socket := socket
     s; receivedData := receivedData s; receiveTimeout := receiveTimeout s;
     connectTimeout := connectTimeout s; commandTimeout := commandTimeout s;
     preventDataSending := preventDataSending s; lastColor := lastColor s;
     lastWW := lastWW s; lastCW := lastCW s; sockets := sockets s; timers :=
     timers s; nextTimer := v; wire := wire s; promises := promises s; settled
     := settled s |}.

Definition set_wire (v : list Cmd) (s : State) : State :=
  {| options := options s; commandQueue := commandQueue s; socket := socket
     s; receivedData := receivedData s; receiveTimeout := receiveTimeout s;
     connectTimeout := connectTimeout s; commandTimeout := commandTimeout s;
     preventDataSending := preventDataSending s; lastColor := lastColor s;
     lastWW := lastWW s; lastCW := lastCW s; sockets := sockets s; timers :=
     timers s; nextTimer := nextTimer s; wire := v; promises := promises s;
     settled := settled s |}.

Definition set_promises (v : nat) (s : State) : State :=
  {| options := options s; commandQueue := commandQueue s; socket := socket
     s; receivedData := receivedData s; receiveTimeout := receiveTimeout s;
     connectTimeout := connectTimeout s; commandTimeout := commandTimeout s;
     preventDataSending := preventDataSending s; lastColor := lastColor s;
     lastWW := lastWW s; lastCW := lastCW s; sockets := sockets s; timers :=
     timers s; nextTimer := nextTimer s; wire := wire s; promises := v; settled
     := settled s |}.

Definition set_settled (v : list (nat * Outcome)) (s : State) : State :=
  {| options := options s; commandQueue := commandQueue s; socket := socket
     s; receivedData := receivedData s; receiveTimeout := receiveTimeout s;
     connectTimeout := connectTimeout s; commandTimeout := commandTimeout s;
     preventDataSending := preventDataSending s; lastColor := lastColor s;
     lastWW := lastWW s; lastCW := lastCW s; sockets := sockets s; timers :=
     timers s; nextTimer := nextTimer s; wire := wire s; promises := promises
     s; settled := v |}.

(** [new Control(ipAddress, port, options)], with the options already
    merged with their defaults. *)
Definition init (o : Options) : State :=
  {| options := o; commandQueue := []; socket := None; receivedData := [];
     receiveTimeout := None; connectTimeout := None; commandTimeout := None;
     preventDataSending := false;
     lastColor := {| red := 0; green := 0; blue := 0 |};
     lastWW := 0; lastCW := 0;
     sockets := []; timers := []; nextTimer := 0%nat; wire := [];
     promises := 0%nat; settled := [] |}.

Definition defaultOptions : Options :=
  {| logAllReceived := false; applyMasks := false;
     commandTimeoutLength := Some 1000; connectTimeoutLength := None;
     coldWhiteSupport := false;
     ack := {| power := true; color := true; pattern := true;
               customPattern := true |} |}.

(** *** The runtime *)

Definition settledIds (s : State) : list nat := map fst (settled s).

(** Calling [resolve] or [reject] of promise [p]: the first call settles
    it, later calls do nothing. *)
Definition settle (p : nat) (o : Outcome) (s : State) : State :=
  if existsb (Nat.eqb p) (settledIds s) then s
  else set_settled (settled s ++ [(p, o)]) s.

Definition clearTimeout (t : nat) (s : State) : State :=
  set_timers (filter (fun e => negb (Nat.eqb (fst e) t)) (timers s)) s.

Definition setTimeout (cb : TimerCb) (s : State) : nat * State :=
  let t := nextTimer s in
  (t, set_nextTimer (S t) (set_timers (timers s ++ [(t, cb)]) s)).

Fixpoint updateSocket (h : nat) (f : Socket -> Socket) (l : list Socket)
  : list Socket :=
  match l, h with
  | [], _ => []
  | x :: r, O => f x :: r
  | x :: r, S h' => x :: updateSocket h' f r
  end.

(** [net.connect(port, ipAddress, listener)] with the ['error'] listener
    that holds [reject]. *)
Definition net_connect (reject : nat) (s : State) : nat * State :=
  let h := List.length (sockets s) in
  (h, set_sockets (sockets s ++ [{| opener := reject; connecting := true;
                                    ended := false;
                                    writeCallbacks := [] |}]) s).

Definition socket_end (h : nat) (s : State) : State :=
  set_sockets
    (updateSocket h (fun k => {| opener := opener k;
                                 connecting := connecting k;
                                 ended := true;
                                 writeCallbacks := writeCallbacks k |})
       (sockets s)) s.

(** [socket.write(cmd.command, 'binary', callback)]. *)
Definition socket_write (h : nat) (cmd : Cmd) (s : State) : State :=
  set_wire (wire s ++ [cmd])
    (set_sockets
       (updateSocket h (fun k => {| opener := opener k;
                                    connecting := connecting k;
                                    ended := ended k;
                                    writeCallbacks :=
                                      writeCallbacks k ++ [cmd] |})
          (sockets s)) s).

(** *** The private methods *)

Definition handleNextCommand (s : State) : result State :=
  match commandQueue s with
  | [] =>
      let s := match socket s with
               | Some h => socket_end h s
               | None => s
               end in
      Ok (set_socket None s)
  | cmd :: _ =>
      match socket s with
      | None => Throw TypeError
      | Some h => Ok (socket_write h cmd s)
      end
  end.

Definition receiveData (empty : bool) (data : Buffer) (s : State)
  : result State :=
  let s := match commandTimeout s with
           | Some t => set_commandTimeout None (clearTimeout t s)
           | None => s
           end in
  if empty then
    let s := match commandQueue s with
             | finished_command :: _ =>
                 settle (promise finished_command)
                   (Resolved (receivedData s)) s
             | [] => s
             end in
    let s := set_receivedData [] s in
    let s := set_commandQueue (tl (commandQueue s)) s in
    handleNextCommand s
  else
    let s := set_receivedData (receivedData s ++ data) s in
    let s := match receiveTimeout s with
             | Some t => clearTimeout t s
             | None => s
             end in
    let (t, s) := setTimeout ReceiveQuiet s in
    Ok (set_receiveTimeout (Some t) s).

Definition handleCommandTimeout (s : State) : result State :=
  let s := set_commandTimeout None s in
  let s := match commandQueue s with
           | timedout_command :: _ =>
               settle (promise timedout_command)
                 (Rejected (Error "Command timed out")) s
           | [] => s
           end in
  let s := set_receivedData [] s in
  let s := set_commandQueue (tl (commandQueue s)) s in
  handleNextCommand s.

Definition socketErrorHandler (err : exn) (reject : nat) (s : State)
  : State :=
  let s := set_preventDataSending true s in
  let s := settle reject (Rejected err) s in
  let s := match socket s with
           | Some h => socket_end h s
           | None => s
           end in
  let s := set_socket None s in
  let s := fold_left (fun s c => settle (promise c) (Rejected err) s)
             (commandQueue s) s in
  set_commandQueue [] s.

Definition checksum (buf : Buffer) : Z :=
  Z.land (fold_left Z.add buf 0) 0xff.

(** [if (this.options.connectTimeoutLength)]: neither [undefined] nor 0. *)
Definition truthy (d : option Z) : bool :=
  match d with
  | Some n => negb (n =? 0)
  | None => false
  end.

Definition sendCommand (buf : Buffer) (expectReply : bool) (p : nat)
  (s : State) : State :=
  let command := buf ++ [checksum buf] in
  let entry := {| expectReply := expectReply; promise := p;
                  command := command |} in
  match commandQueue s, socket s with
  | [], None =>
      let s := set_commandQueue (commandQueue s ++ [entry]) s in
      let s := set_preventDataSending false s in
      let (h, s) := net_connect p s in
      let s := set_socket (Some h) s in
      if truthy (connectTimeoutLength (options s)) then
        let (t, s) := setTimeout (ConnectTimeout p) s in
        set_connectTimeout (Some t) s
      else s
  | _, _ => set_commandQueue (commandQueue s ++ [entry]) s
  end.

(** The listener given to [net.connect]. *)
Definition onConnect (s : State) : result State :=
  let s := match connectTimeout s with
           | Some t => set_connectTimeout None (clearTimeout t s)
           | None => s
           end in
  if negb (preventDataSending s) then handleNextCommand s else Ok s.

(** The callback given to [socket.write] for [cmd]. *)
Definition onWritten (cmd : Cmd) (s : State) : result State :=
  if negb (expectReply cmd) then receiveData true [] s
  else
    match commandTimeoutLength (options s) with
    | None => Ok s
    | Some _ =>
        let (t, s) := setTimeout CommandTimeout s in
        Ok (set_commandTimeout (Some t) s)
    end.

Definition onTimer (cb : TimerCb) (s : State) : result State :=
  match cb with
  | ReceiveQuiet => receiveData true [] s
  | CommandTimeout => handleCommandTimeout s
  | ConnectTimeout reject =>
      Ok (socketErrorHandler (Error "Connection timeout reached") reject s)
  end.

(** *** Events *)

(** What happens next to an instance: a caller creates a promise and calls
    [sendCommand] with it, or the runtime runs a listener. *)
Inductive Event : Type :=
| Submit (buf : Buffer) (expectReply : bool)
| Connected (h : nat)
| SocketError (h : nat) (err : exn)
| Data (h : nat) (data : Buffer)
| Written (h : nat)
| TimerFired (t : nat).

Definition newPromise (s : State) : nat * State :=
  (promises s, set_promises (S (promises s)) s).

Definition submit (buf : Buffer) (expectReply : bool) (s : State)
  : nat * State :=
  let (p, s) := newPromise s in
  (p, sendCommand buf expectReply p s).

Definition popWrite (h : nat) (s : State) : State :=
  set_sockets
    (updateSocket h (fun k => {| opener := opener k;
                                 connecting := connecting k;
                                 ended := ended k;
                                 writeCallbacks := tl (writeCallbacks k) |})
       (sockets s)) s.

Definition markConnected (h : nat) (s : State) : State :=
  set_sockets
    (updateSocket h (fun k => {| opener := opener k;
                                 connecting := false;
                                 ended := ended k;
                                 writeCallbacks := writeCallbacks k |})
       (sockets s)) s.

Definition timerCb (t : nat) (s : State) : option TimerCb :=
  match find (fun e => Nat.eqb (fst e) t) (timers s) with
  | Some e => Some (snd e)
  | None => None
  end.

(** One event.  [None]: the runtime cannot produce the event in this
    state (no such socket, no pending write, timer not armed). *)
Definition step (e : Event) (s : State) : option (result State) :=
  match e with
  | Submit buf expectReply => Some (Ok (snd (submit buf expectReply s)))
  | Connected h =>
      match nth_error (sockets s) h with
      | Some k =>
          if connecting k then Some (onConnect (markConnected h s))
          else None
      | None => None
      end
  | SocketError h err =>
      match nth_error (sockets s) h with
      | Some k => Some (Ok (socketErrorHandler err (opener k) s))
      | None => None
      end
  | Data h data =>
      match nth_error (sockets s) h with
      | Some k =>
          if connecting k then None
          else Some (receiveData false data s)
      | None => None
      end
  | Written h =>
      match nth_error (sockets s) h with
      | Some k =>
          match writeCallbacks k with
          | cmd :: _ => Some (onWritten cmd (popWrite h s))
          | [] => None
          end
      | None => None
      end
  | TimerFired t =>
      match timerCb t s with
      | Some cb => Some (onTimer cb (clearTimeout t s))
      | None => None
      end
  end.

(** A run of events; [None] if an event cannot occur or a listener
    throws. *)
Fixpoint exec (tr : list Event) (s : State) : option State :=
  match tr with
  | [] => Some s
  | e :: tr' =>
      match step e s with
      | Some (Ok s') => exec tr' s'
      | _ => None
      end
  end.

(** *** The public methods *)

Inductive AckKind : Type := AckPower | AckColor | AckPattern | AckCustomPattern.

(** [this.options.ack.power] and the like. *)
Definition ackOf (k : AckKind) (s : State) : bool :=
  match k with
  | AckPower => power (ack (options s))
  | AckColor => color (ack (options s))
  | AckPattern => pattern (ack (options s))
  | AckCustomPattern => customPattern (ack (options s))
  end.

(** The [then] handler a method chains to its promise. *)
Inductive Then : Type :=
| ThenAck (k : AckKind)
| ThenQueryState.

(** What a method returns: a promise rejected on the spot, or the promise
    created for [sendCommand] with its [then] handler. *)
Inductive Deferred : Type :=
| RejectedNow (err : exn)
| Pending (p : nat) (k : Then).


Definition setPower (on : bool) (s : State) : State * Deferred :=
  let cmd_buf := Buf.from [Int 0x71; Int (if on then 0x23 else 0x24);
                           Int 0x0f] in
  let (p, s) := submit cmd_buf (ackOf AckPower s) s in
  (s, Pending p (ThenAck AckPower)).

Definition setPattern (patterns : list (string * Z)) (name : string)
  (speed : float) (s : State) : State * Deferred :=
  match patternCode patterns name with
  | None => (s, RejectedNow (Error "Invalid pattern"))
  | Some patternCode =>
      let delay := speedToDelay speed in
      let cmdBuf := Buf.from [Int 0x61; memberNum patternCode; Dbl delay;
                              Int 0x0f] in
      let (p, s) := submit cmdBuf (ackOf AckPattern s) s in
      (s, Pending p (ThenAck AckPattern))
  end.

(** The frame of [setIAPattern] for a code that passed the range check. *)
Definition iaPatternFrame (code : Z) (speed : float) : Buffer :=
  let code := code + 99 in
  let bufferArray := [Int 0x61] in
  let bufferArray := bufferArray ++ [Int (Z.shiftr code 8)] in
  let bufferArray := bufferArray ++ [Int (Z.land code 0xff)] in
  let bufferArray := bufferArray ++ [Dbl speed] in
  let bufferArray := bufferArray ++ [Int 0x0f] in
  Buf.from bufferArray.

(** [code] is an integer. *)
Definition setIAPattern (code : Z) (speed : float) (s : State)
  : State * Deferred :=
  if (code <? 1) || (code >? 300) then
    (s, RejectedNow (Error "Invalid code"))
  else
    let cmdBuf := iaPatternFrame code speed in
    let (p, s) := submit cmdBuf (ackOf AckPattern s) s in
    (s, Pending p (ThenAck AckPattern)).

(** An instance of [CustomMode] of the magic-home library, as far as
    [setCustomPattern] reads it. *)
Record CustomMode : Type := {
  colors : list RgbColorType;
  transitionType : string
}.

(** The [pattern] argument of [setCustomPattern]: an instance of
    [CustomMode] or any other value. *)
Inductive PatternArg : Type :=
| Instance (m : CustomMode)
| NotCustomMode.

Definition colorSlot (m : CustomMode) (i : nat) : list jsnum :=
  match nth_error (colors m) i with
  | Some c => [Int (red c); Int (green c); Int (blue c); Int 0]
  | None => [Int 1; Int 2; Int 3; Int 0]
  end.

Definition transitionByte (t : string) : list jsnum :=
  if String.eqb t "fade" then [Int 0x3a]
  else if String.eqb t "jump" then [Int 0x3b]
  else if String.eqb t "strobe" then [Int 0x3c]
  else [].

Definition customPatternFrame (m : CustomMode) (speed : float) : Buffer :=
  let delay := speedToDelay speed in
  let cmdBufValues := [Int 0x51] in
  let cmdBufValues := cmdBufValues ++ flat_map (colorSlot m) (seq 0 16) in
  let cmdBufValues := cmdBufValues ++ [Dbl delay] in
  let cmdBufValues := cmdBufValues ++ transitionByte (transitionType m) in
  let cmdBufValues := cmdBufValues ++ [Int 0xff; Int 0x0f] in
  Buf.from cmdBufValues.

Definition setCustomPattern (pattern : PatternArg) (speed : float)
  (s : State) : State * Deferred :=
  match pattern with
  | NotCustomMode => (s, RejectedNow (Error "Invalid pattern"))
  | Instance m =>
      let cmd_buf := customPatternFrame m speed in
      let (p, s) := submit cmd_buf (ackOf AckCustomPattern s) s in
      (s, Pending p (ThenAck AckCustomPattern))
  end.

Definition queryState (s : State) : State * Deferred :=
  let cmd_buf := Buf.from [Int 0x81; Int 0x8a; Int 0x8b] in
  let (p, s) := submit cmd_buf true s in
  (s, Pending p ThenQueryState).

Module StateType.
Record t : Type := {
  type : Z;
  on : bool;
  mode : option Mode;
  pattern : option PatternId;
  speed : float;
  color : RgbColorType;
  warm_white : Z;
  cold_white : Z
}.
End StateType.

Definition enable (masks coldWhite : bool) (o : Options) : Options :=
  {| logAllReceived := logAllReceived o;
     applyMasks := if masks then true else applyMasks o;
     commandTimeoutLength := commandTimeoutLength o;
     connectTimeoutLength := connectTimeoutLength o;
     coldWhiteSupport := if coldWhite then true else coldWhiteSupport o;
     ack := ack o |}.

(** The [then] handler of [queryState], run with the bytes the promise
    was resolved with. *)
Definition queryState_then (patterns : list (string * Z)) (data : Buffer)
  (s : State) : result (StateType.t * State) :=
  if Z.of_nat (List.length data) <? 14 then
    Throw (Error "Only got short reply")
  else
    mode <- determineMode data ;;
    type <- Buf.readUInt8 data 1 ;;
    power <- Buf.readUInt8 data 2 ;;
    pattern <- determinePattern patterns data ;;
    raw <- Buf.readUInt8 data 5 ;;
    let speed := match mode with
                 | Some mode_ia_pattern => Number.ofZ raw
                 | _ => delayToSpeed (Number.ofZ raw)
                 end in
    r <- Buf.readUInt8 data 6 ;;
    g <- Buf.readUInt8 data 7 ;;
    b <- Buf.readUInt8 data 8 ;;
    ww <- Buf.readUInt8 data 9 ;;
    cw <- Buf.readUInt8 data 11 ;;
    let state :=
      {| StateType.type := type;
         StateType.on := power =? 0x23;
         StateType.mode := mode;
         StateType.pattern := pattern;
         StateType.speed := speed;
         StateType.color := {| red := r; green := g; blue := b |};
         StateType.warm_white := ww;
         StateType.cold_white := cw |} in
    let s := set_lastColor {| red := r; green := g; blue := b |} s in
    let s := set_lastWW ww s in
    let s := set_lastCW cw s in
    let s :=
      if type =? 0x25 then set_options (enable true false (options s)) s
      else if type =? 0x35 then set_options (enable true true (options s)) s
      else if type =? 0x44 then set_options (enable true false (options s)) s
      else s in
    Ok (state, s).

(** *** The remaining methods *)

(** The static method [ackMask]. *)
Definition ackMask (mask : Z) : ControlOptionsAckType :=
  {| power := Z.land mask 0x01 >? 0;
     color := Z.land mask 0x02 >? 0;
     pattern := Z.land mask 0x04 >? 0;
     customPattern := Z.land mask 0x08 >? 0 |}.

Definition turnOn (s : State) : State * Deferred := setPower true s.

Definition turnOff (s : State) : State * Deferred := setPower false s.

(** [clamp] of the helpers on integers: the channel values of the color
    methods are integers. *)
Definition clampInt (value min max : Z) : Z := Z.min max (Z.max min value).

(** The variables [red], [green], [blue], [ww] and [cw] of
    [sendColorChangeCommand] as its second [then] handler sees them. *)
Record Sent : Type := {
  sent_red : Z;
  sent_green : Z;
  sent_blue : Z;
  sent_ww : Z;
  sent_cw : Z
}.

Definition sendColorChangeCommand (red green blue ww cw mask : Z)
  (s : State) : State * Deferred * Sent :=
  let red := clampInt red 0 255 in
  let green := clampInt green 0 255 in
  let blue := clampInt blue 0 255 in
  let ww := clampInt ww 0 255 in
  let cw := if coldWhiteSupport (options s) then clampInt cw 0 255 else cw in
  let cmd_buf :=
    if coldWhiteSupport (options s) then
      Buf.from [Int 0x31; Int red; Int green; Int blue; Int ww; Int cw;
                Int mask; Int 0x0f]
    else
      Buf.from [Int 0x31; Int red; Int green; Int blue; Int ww; Int mask;
                Int 0x0f] in
  let (p, s') := submit cmd_buf (ackOf AckColor s) s in
  (s', Pending p (ThenAck AckColor),
   {| sent_red := red; sent_green := green; sent_blue := blue;
      sent_ww := ww; sent_cw := cw |}).

(** The second [then] handler of [sendColorChangeCommand], run with the
    boolean the first one returned. *)
Definition colorChanged (v : Sent) (result : bool) (s : State) : State :=
  if result then
    let s := set_lastColor {| red := sent_red v; green := sent_green v;
                              blue := sent_blue v |} s in
    let s := set_lastWW (sent_ww v) s in
    set_lastCW (sent_cw v) s
  else s.

(** The warnings printed with [console.warn] are not part of the state. *)
Definition setColorAndWarmWhite (red green blue ww : Z) (s : State)
  : State * Deferred * Sent :=
  sendColorChangeCommand red green blue ww (lastCW s) 0 s.

Definition setColorAndWhites (red green blue ww cw : Z) (s : State)
  : State * Deferred * Sent :=
  sendColorChangeCommand red green blue ww cw 0 s.

Definition setColor (red green blue : Z) (s : State)
  : State * Deferred * Sent :=
  if applyMasks (options s) then
    sendColorChangeCommand red green blue 0 0 0xf0 s
  else
    setColorAndWhites red green blue (lastWW s) (lastCW s) s.

Definition setWarmWhite (ww : Z) (s : State) : State * Deferred * Sent :=
  if applyMasks (options s) then
    sendColorChangeCommand 0 0 0 ww (lastCW s) 0x0f s
  else
    setColorAndWarmWhite (red (lastColor s)) (green (lastColor s))
      (blue (lastColor s)) ww s.

Definition setWhites (ww cw : Z) (s : State) : State * Deferred * Sent :=
  if applyMasks (options s) then
    sendColorChangeCommand 0 0 0 ww cw 0x0f s
  else
    setColorAndWhites (red (lastColor s)) (green (lastColor s))
      (blue (lastColor s)) ww cw s.

(** The values [r], [g] and [b] that [setColorWithBrightness] hands to
    [setColor]. *)
Definition setColorWithBrightness_rgb (red green blue brightness : float)
  : float * float * float :=
  let brightness := clamp brightness 0 100 in
  let r := PrimFloat.mul (PrimFloat.div 255 100) brightness in
  let g := PrimFloat.mul (PrimFloat.div 255 100) brightness in
  let b := PrimFloat.mul (PrimFloat.div 255 100) brightness in
  if PrimFloat.ltb 0 red || PrimFloat.ltb 0 green || PrimFloat.ltb 0 blue
  then
    (Number.Math_round
       (PrimFloat.mul (PrimFloat.div (clamp red 0 255) 100) brightness),
     Number.Math_round
       (PrimFloat.mul (PrimFloat.div (clamp green 0 255) 100) brightness),
     Number.Math_round
       (PrimFloat.mul (PrimFloat.div (clamp blue 0 255) 100) brightness))
  else (r, g, b).


End Control.

(** ** Invariants of the queue manager *)

Module Invariants.

Import Control.

Definition queueIds (s : State) : list nat := map promise (commandQueue s).

(** Promise [p] is settled, or belongs to the head of the queue. *)
Definition Front (s : State) (p : nat) : Prop :=
  In p (settledIds s) \/ hd_error (queueIds s) = Some p.

(** Command [c] is settled, or is the head of the queue. *)
Definition InFlight (s : State) (c : Cmd) : Prop :=
  In (promise c) (settledIds s) \/ hd_error (commandQueue s) = Some c.

(** The sum of the bytes of a buffer. *)
Definition byteSum (buf : Buffer) : Z := fold_right Z.add 0 buf.

Definition Framed (c : Cmd) : Prop :=
  exists buf, command c = buf ++ [byteSum buf mod 256].

(** Submitted no later than. *)
Definition promiseLe (a b : Cmd) : Prop := (promise a <= promise b)%nat.

Record Inv (s : State) : Prop := {
  inv_order : settledIds s ++ queueIds s = seq 0 (promises s);
  inv_socket : commandQueue s = [] <-> socket s = None;
  inv_openers : forall k, In k (sockets s) -> Front s (opener k);
  inv_timers :
    forall t p, In (t, ConnectTimeout p) (timers s) -> Front s p;
  inv_wire : forall c, In c (wire s) -> InFlight s c;
  inv_pending :
    forall k c, In k (sockets s) -> In c (writeCallbacks k) ->
                In c (wire s);
  inv_framed :
    forall c, In c (commandQueue s) \/ In c (wire s) -> Framed c;
  inv_sorted : StronglySorted promiseLe (wire s)
}.

(** [Inv] between the removal of the head and [handleNextCommand]: the
    socket may still be there with the queue empty. *)
Record Inv' (s : State) : Prop := {
  inv'_order : settledIds s ++ queueIds s = seq 0 (promises s);
  inv'_socket : commandQueue s <> [] -> socket s <> None;
  inv'_openers : forall k, In k (sockets s) -> Front s (opener k);
  inv'_timers :
    forall t p, In (t, ConnectTimeout p) (timers s) -> Front s p;
  inv'_wire : forall c, In c (wire s) -> InFlight s c;
  inv'_pending :
    forall k c, In k (sockets s) -> In c (writeCallbacks k) ->
                In c (wire s);
  inv'_framed :
    forall c, In c (commandQueue s) \/ In c (wire s) -> Framed c;
  inv'_sorted : StronglySorted promiseLe (wire s)
}.

(** States that differ only in fields the invariant does not read, or by
    timers that were removed. *)
Definition frame (s s' : State) : Prop :=
  settled s' = settled s /\ commandQueue s' = commandQueue s /\
  promises s' = promises s /\ socket s' = socket s /\
  sockets s' = sockets s /\ wire s' = wire s /\
  (forall t p, In (t, ConnectTimeout p) (timers s') ->
               In (t, ConnectTimeout p) (timers s)).

(** The settlement log only grows, and the options stay as they are. *)
Definition grows (s s' : State) : Prop :=
  (exists l, settled s' = settled s ++ l) /\ options s' = options s.

(** The loop of [socketErrorHandler] over the queue. *)
Definition rejectAll (err : exn) (q : list Cmd) (s : State) : State :=
  fold_left (fun s c => settle (promise c) (Rejected err) s) q s.

(** The settlements that rejecting every command of [q] adds to the log. *)
Definition rejections (err : exn) (q : list Cmd) : list (nat * Outcome) :=
  map (fun c => (promise c, Rejected err)) q.

(** [if (this.socket != null) this.socket.end()]. *)
Definition endCurrent (s : State) : State :=
  match socket s with
  | Some h => socket_end h s
  | None => s
  end.

(** A socket-level error: the ['error'] event of a socket (a failed
    connection attempt included), or the connect timeout firing. *)
Definition socketLevelError (s : State) (e : Event) (err : exn) : Prop :=
  match e with
  | SocketError h er => er = err /\ nth_error (sockets s) h <> None
  | TimerFired t =>
      (exists p, timerCb t s = Some (ConnectTimeout p)) /\
      err = Error "Connection timeout reached"
  | _ => False
  end.

(** The socket record [net.connect] creates for promise [p]. *)
Definition freshSocket (p : nat) : Socket :=
  {| opener := p; connecting := true; ended := false; writeCallbacks := [] |}.

End Invariants.

Import Control Invariants Helpers Number.

(** Unfolds the vocabulary of the invariant. *)
Ltac unfold_inv := unfold Front, InFlight, queueIds, settledIds in *.

(** ** Auxiliary definitions of the statements *)

(** [x] is within [eps] of the rational [q]. *)
Definition closeTo (x : float) (q eps : Q) : bool :=
  match toQ x with
  | Some v => Qle_bool (Qabs (v - q)) eps
  | None => false
  end.

(** The integers [0, 1, ..., n - 1]. *)
Definition upTo (n : nat) : list Z := map Z.of_nat (seq 0 n).

(** The bytes of the sixteen color slots of a custom pattern. *)
Definition slotBytes (m : CustomMode) : Buffer :=
  Buf.from (flat_map (colorSlot m) (seq 0 16)).

(** ** Sample inputs *)

(** Three commands, submitted before the connection is up; the first is
    answered, the second expects no reply, the third times out. *)
Definition sampleRun : list Event :=
  [Submit [0x81; 0x8a; 0x8b] true; Submit [0x71; 0x23; 0x0f] false;
   Submit [0x71; 0x24; 0x0f] true; Connected 0; Written 0; Data 0 [0x81];
   TimerFired 1; Written 0; Written 0; TimerFired 2].

(** Two commands waiting for a connection. *)
Definition twoQueued : list Event :=
  [Submit [0x81; 0x8a; 0x8b] true; Submit [0x71; 0x23; 0x0f] true].



(** A custom mode with a transition type the switch does not know. *)
Definition blink : CustomMode := {| colors := []; transitionType := "blink" |}.

(** A custom mode fading between red and blue. *)
Definition fadeRedBlue : CustomMode :=
  {| colors := [{| red := 255; green := 0; blue := 0 |};
                {| red := 0; green := 0; blue := 255 |}];
     transitionType := "fade" |}.


(** The integer speeds in [0, 100] that the round trip through a delay
    does not give back exactly. *)
Definition inexactSpeeds : list Z :=
  filter (fun s => negb (PrimFloat.eqb (delayToSpeed (speedToDelay (ofZ s)))
                           (ofZ s))) (upTo 101).

(** A pattern table with a single name. *)
Definition oneName : list (string * Z) := [("seven_color_cross_fade", 0x25)].

(** A query response whose byte 3 is 0x26. *)
Definition reply : Buffer :=
  [0x81; 0x25; 0x23; 0x26; 0x21; 0x10; 0xff; 0x00; 0x00; 0x00; 0x04; 0x00;
   0x00; 0x30].

(** ** Further definitions of the statements *)

(** The mode that bytes 3 and 4 of a response stand for. *)
Definition modeOf (b3 b4 : Z) : option Mode :=
  if (b3 =? 0x61) || ((b3 =? 0) && (b4 =? 0x61)) then Some mode_color
  else if b3 =? 0x62 then Some mode_special
  else if b3 =? 0x60 then Some mode_custom
  else if (0x25 <=? b3) && (b3 <=? 0x38) then Some mode_pattern
  else if (0x64 <=? b3 * 256 + b4) && (b3 * 256 + b4 <=? 0x018f)
       then Some mode_ia_pattern
  else None.

(** The extended pattern that bytes 3 and 4 stand for. *)
Definition iaOf (b3 b4 : Z) : option PatternId :=
  if (0x64 <=? b3 * 256 + b4) && (b3 * 256 + b4 <=? 0x018f)
  then Some (PCode (b3 * 256 + b4 - 99))
  else None.

(** The pattern that bytes 3 and 4 stand for, given the table. *)
Definition patternOf (patterns : list (string * Z)) (b3 b4 : Z)
  : option PatternId :=
  if (0x25 <=? b3) && (b3 <=? 0x38) then
    match find (fun e => snd e =? b3) patterns with
    | Some e => Some (PName (fst e))
    | None => iaOf b3 b4
    end
  else iaOf b3 b4.

(** Byte [i] of a buffer that is long enough. *)
Definition byte (data : Buffer) (i : nat) : Z := nth i data 0.

(** What the handler of [queryState] stores on the instance: the color and
    white levels read, and the options the device type turns on. *)
Definition afterQuery (type r g b ww cw : Z) (s : State) : State :=
  let s := set_lastColor {| red := r; green := g; blue := b |} s in
  let s := set_lastWW ww s in
  let s := set_lastCW cw s in
  if type =? 0x25 then set_options (enable true false (options s)) s
  else if type =? 0x35 then set_options (enable true true (options s)) s
  else if type =? 0x44 then set_options (enable true false (options s)) s
  else s.

(** The state that [queryState] decodes from a reply of at least 14
    bytes. *)
Definition decoded (patterns : list (string * Z)) (data : Buffer)
  : StateType.t :=
  {| StateType.type := byte data 1;
     StateType.on := byte data 2 =? 0x23;
     StateType.mode := modeOf (byte data 3) (byte data 4);
     StateType.pattern := patternOf patterns (byte data 3) (byte data 4);
     StateType.speed :=
       match modeOf (byte data 3) (byte data 4) with
       | Some mode_ia_pattern => ofZ (byte data 5)
       | _ => delayToSpeed (ofZ (byte data 5))
       end;
     StateType.color := {| red := byte data 6; green := byte data 7;
                           blue := byte data 8 |};
     StateType.warm_white := byte data 9;
     StateType.cold_white := byte data 11 |}.

(** The speed, as a rational, that a query reports for a delay byte. *)
Definition reportedSpeed (delay : Z) : option Q :=
  toQ (delayToSpeed (ofZ delay)).

(** [q] lies in [lo, lo + width]. *)
Definition within (q : option Q) (lo : Z) (width : Q) : bool :=
  match q with
  | Some v => Qle_bool (inject_Z lo) v && Qle_bool v (inject_Z lo + width)
  | None => false
  end.

(** The frame of a color command after saturation, without its
    checksum. *)
Definition colorFrame (cold : bool) (r g b ww cw mask : Z) : Buffer :=
  if cold then [0x31; r; g; b; ww; cw; mask; 0x0f]
  else [0x31; r; g; b; ww; mask; 0x0f].

(** Every entry of a buffer is a byte. *)
Definition bytes (data : Buffer) : Prop :=
  Forall (fun x => 0 <= x < 256) data.

(** A device type for which [queryState] turns the masks on. *)
Definition maskedType (type : Z) : bool :=
  (type =? 0x25) || (type =? 0x35) || (type =? 0x44).

(** One component of the scaled color of [setColorWithBrightness]. *)
Definition channel (c b : Z) : float :=
  Math_round
    (PrimFloat.mul (PrimFloat.div (clamp (ofZ c) 0 255) 100)
       (clamp (ofZ b) 0 100)).

(** The gray level of [setColorWithBrightness] for a color that is black. *)
Definition gray (b : Z) : float :=
  PrimFloat.mul (PrimFloat.div 255 100) (clamp (ofZ b) 0 100).

(** The integer [r] is a nearest integer to [c * b / 100], and at most
    [c]. *)
Definition nearest (r c b : Z) : Prop :=
  0 <= r <= c /\ Z.abs (100 * r - c * b) <= 50.

(** The pairs of a level in [0, 255] and a brightness in [0, 100]. *)
Definition levels : list (Z * Z) :=
  flat_map (fun c => map (fun b => (c, b)) (upTo 101)) (upTo 256).

(** Of the sockets [l], the current one is open and every other one was
    ended. *)
Definition LiveOn (cur : option nat) (l : list Socket) : Prop :=
  forall h k, nth_error l h = Some k -> (ended k = false <-> cur = Some h).

Definition OneLive (s : State) : Prop := LiveOn (socket s) (sockets s).

(** A callback that the options allow to be armed by [setTimeout]. *)
Definition armable (o : Options) (cb : TimerCb) : Prop :=
  match cb with
  | ReceiveQuiet => True
  | CommandTimeout => commandTimeoutLength o <> None
  | ConnectTimeout _ => truthy (connectTimeoutLength o) = true
  end.

(** The armed timers [tm] with the next timer id and the stored id of the
    quiet timer: ids are fresh and distinct, an armed quiet timer is the
    stored one, every armed callback is allowed by the options, and the
    stored id is an old one that no other kind of timer bears. *)
Record TimingOn (o : Options) (tm : list (nat * TimerCb)) (next : nat)
  (quiet : option nat) : Prop := {
  tm_fresh : forall t cb, In (t, cb) tm -> (t < next)%nat;
  tm_nodup : NoDup (map fst tm);
  tm_quiet : forall t, In (t, ReceiveQuiet) tm -> quiet = Some t;
  tm_armable : forall t cb, In (t, cb) tm -> armable o cb;
  tm_stored_old : forall t, quiet = Some t -> (t < next)%nat;
  tm_stored :
    forall t cb, quiet = Some t -> In (t, cb) tm -> cb = ReceiveQuiet
}.

Definition Timing (s : State) : Prop :=
  TimingOn (options s) (timers s) (nextTimer s) (receiveTimeout s).

(** [s'] has the timers, the timer counter, the stored quiet timer and the
    options of [s]. *)
Definition sameTiming (s s' : State) : Prop :=
  timers s' = timers s /\ nextTimer s' = nextTimer s /\
  receiveTimeout s' = receiveTimeout s /\ options s' = options s.

(** [s'] has the sockets of [s], up to their pending writes and their
    connecting flags, and the same current socket. *)
Definition sameSockets (s s' : State) : Prop :=
  socket s' = socket s /\ map ended (sockets s') = map ended (sockets s).

(** The ['data'] events of socket [h] for the chunks [ds]. *)
Definition chunks (h : nat) (ds : list Buffer) : list Event :=
  map (Data h) ds.

(** A reply in two chunks to a query, and the quiet timer firing. *)
Definition chunkedReply : list Event :=
  [Submit [0x81; 0x8a; 0x8b] true; Connected 0; Written 0].

(** A query whose socket fails after the write, its command timer still
    armed, and a second query written to a new socket. *)
Definition leftoverTimerRun : list Event :=
  [Submit [0x81; 0x8a; 0x8b] true; Connected 0; Written 0;
   SocketError 0 (Error "ECONNRESET"); Submit [0x81; 0x8a; 0x8b] true;
   Connected 1; Written 1].

(** ** The invariant is kept by every listener *)

Lemma settle_shape p o s :
  settle p o s = set_settled (settled (settle p o s)) s.
Proof. unfold settle. destruct (existsb _ _); destruct s; reflexivity. Qed.

Lemma settle_old p o s : In p (settledIds s) -> settle p o s = s.
Proof.
  intros H. unfold settle.
  destruct (existsb (Nat.eqb p) (settledIds s)) eqn:E; auto.
  exfalso. apply Bool.not_true_iff_false in E. apply E.
  apply existsb_exists. exists p. split; auto. apply Nat.eqb_refl.
Qed.

Lemma settle_new p o s :
  ~ In p (settledIds s) -> settle p o s = set_settled (settled s ++ [(p, o)]) s.
Proof.
  intros H. unfold settle.
  destruct (existsb (Nat.eqb p) (settledIds s)) eqn:E; auto.
  exfalso. apply H. apply existsb_exists in E. destruct E as [x [Hx E]].
  apply Nat.eqb_eq in E. subst; auto.
Qed.

Lemma updateSocket_In h f l k :
  In k (updateSocket h f l) -> exists k0, In k0 l /\ (k = k0 \/ k = f k0).
Proof.
  revert h. induction l as [|x r IH]; intros h H; simpl in H.
  - destruct h; contradiction.
  - destruct h.
    + destruct H as [H|H]; [exists x; simpl; auto | exists k; simpl; auto].
    + destruct H as [H|H]; [exists x; simpl; auto|].
      destruct (IH _ H) as [k0 [H1 H2]]. exists k0; simpl; auto.
Qed.

Lemma app_eq_length {A} (l1 : list A) : forall l2 a b,
  l1 ++ l2 = a ++ b -> List.length l1 = List.length a -> l1 = a /\ l2 = b.
Proof.
  induction l1 as [|x l1 IH]; intros l2 a b H Hl; destruct a as [|y a];
    simpl in *; try discriminate; auto.
  inversion H; subst. inversion Hl.
  destruct (IH _ _ _ H2 H1). split; congruence.
Qed.

Lemma app_seq_split (l1 l2 : list nat) n :
  l1 ++ l2 = seq 0 n ->
  l1 = seq 0 (List.length l1) /\ l2 = seq (List.length l1) (List.length l2).
Proof.
  intros H.
  assert (Hn : n = (List.length l1 + List.length l2)%nat).
  { apply (f_equal (@List.length nat)) in H.
    rewrite length_app, length_seq in H. lia. }
  subst n. rewrite seq_app in H. simpl in H.
  apply app_eq_length in H; [exact H|]. rewrite length_seq. reflexivity.
Qed.

Lemma settled_before_head s c q x :
  settledIds s ++ queueIds s = seq 0 (promises s) ->
  commandQueue s = c :: q -> In x (settledIds s) -> (x <= promise c)%nat.
Proof.
  intros H Eq Hx. apply app_seq_split in H. destruct H as [H1 H2].
  unfold queueIds in H2. rewrite Eq in H2. simpl in H2. inversion H2.
  rewrite H1 in Hx. apply in_seq in Hx. lia.
Qed.

Lemma StronglySorted_snoc {A} (R : A -> A -> Prop) l x :
  StronglySorted R l -> (forall y, In y l -> R y x) ->
  StronglySorted R (l ++ [x]).
Proof.
  induction 1 as [|a l Hl IH Ha]; intros Hx; simpl.
  - constructor; constructor.
  - constructor.
    + apply IH. intros y Hy. apply Hx. simpl; auto.
    + apply Forall_app. split; auto. constructor; [|constructor].
      apply Hx. simpl; auto.
Qed.

Lemma fold_left_add (buf : list Z) : forall a,
  fold_left Z.add buf a = a + fold_right Z.add 0 buf.
Proof.
  induction buf as [|x r IH]; intros a; simpl; [lia|]. rewrite IH. lia.
Qed.

(** The checksum loop of [sendCommand] computes the sum of the bytes
    modulo 256. *)
Lemma checksum_spec (buf : Buffer) : checksum buf = byteSum buf mod 256.
Proof.
  unfold checksum, byteSum. rewrite fold_left_add.
  change 0xff with (Z.ones 8). rewrite Z.land_ones by lia. reflexivity.
Qed.

Lemma Inv_weaken s : Inv s -> Inv' s.
Proof.
  intros [H1 H2 H3 H4 H5 H6 H7 H8]. constructor; auto.
  intros Hq Hs. apply Hq. apply H2. exact Hs.
Qed.

Lemma handleNextCommand_frame s s' :
  handleNextCommand s = Ok s' ->
  settled s' = settled s /\ commandQueue s' = commandQueue s /\
  promises s' = promises s /\ timers s' = timers s /\
  receivedData s' = receivedData s /\ options s' = options s.
Proof.
  unfold handleNextCommand. intros H.
  destruct (commandQueue s) eqn:Eq; [|destruct (socket s) eqn:Es].
  - inversion H; subst; clear H.
    destruct (socket s); simpl; rewrite ?Eq; auto 10.
  - inversion H; subst; clear H. simpl. rewrite ?Eq; auto 10.
  - discriminate.
Qed.

Lemma handleNextCommand_inv s :
  Inv' s -> exists s', handleNextCommand s = Ok s' /\ Inv s'.
Proof.
  intros [H1 H2 H3 H4 H5 H6 H7 H8]. unfold handleNextCommand.
  destruct (commandQueue s) as [|cmd q] eqn:Eq.
  - eexists; split; [reflexivity|].
    assert (Hq : queueIds s = []) by (unfold queueIds; rewrite Eq; reflexivity).
    destruct (socket s) as [h|] eqn:Es.
    + constructor; unfold_inv; simpl;
        rewrite ?Eq in *; auto.
      * split; auto.
      * intros k Hk. apply updateSocket_In in Hk. destruct Hk as [k0 [Hk0
          [->| ->]]]; simpl; auto.
      * intros k c Hk Hc. apply updateSocket_In in Hk.
        destruct Hk as [k0 [Hk0 [->| ->]]]; simpl in *; eauto.
    + constructor; unfold_inv; simpl;
        rewrite ?Eq in *; auto.
      split; auto.
  - destruct (socket s) as [h|] eqn:Es.
    2:{ exfalso. apply H2; [discriminate | reflexivity]. }
    eexists; split; [reflexivity|].
    assert (Hle : forall y, In y (wire s) -> promiseLe y cmd).
    { intros y Hy. unfold promiseLe. destruct (H5 y Hy) as [Hs|Hs].
      - eapply settled_before_head; eauto.
      - rewrite Eq in Hs. inversion Hs. lia. }
    constructor; unfold_inv; simpl;
      rewrite ?Eq, ?Es in *; auto.
    + split; discriminate.
    + intros k Hk. apply updateSocket_In in Hk. destruct Hk as [k0 [Hk0
        [->| ->]]]; simpl; auto.
    + intros c Hc. apply in_app_or in Hc. destruct Hc as [Hc|[<-|[]]]; auto.
    + intros k c Hk Hc. apply updateSocket_In in Hk.
      destruct Hk as [k0 [Hk0 [->| ->]]]; simpl in *.
      * apply in_or_app. left. eauto.
      * apply in_app_or in Hc. apply in_or_app.
        destruct Hc as [Hc|Hc]; [left; eauto | right; exact Hc].
    + intros c [Hc|Hc]; [apply H7; auto|].
      apply in_app_or in Hc. destruct Hc as [Hc|[<-|[]]]; apply H7; simpl; auto.
    + apply StronglySorted_snoc; auto.
Qed.

Lemma Inv_frame s s' : Inv s -> frame s s' -> Inv s'.
Proof.
  intros [H1 H2 H3 H4 H5 H6 H7 H8] (F1 & F2 & F3 & F4 & F5 & F6 & F7).
  constructor; unfold_inv;
    rewrite ?F1, ?F2, ?F3, ?F4, ?F5, ?F6; eauto.
Qed.

Lemma frame_refl s : frame s s.
Proof. unfold frame; auto 10. Qed.

Lemma frame_step s s1 s2 :
  frame s s1 ->
  settled s2 = settled s1 -> commandQueue s2 = commandQueue s1 ->
  promises s2 = promises s1 -> socket s2 = socket s1 ->
  sockets s2 = sockets s1 -> wire s2 = wire s1 ->
  (forall t p, In (t, ConnectTimeout p) (timers s2) ->
               In (t, ConnectTimeout p) (timers s1)) ->
  frame s s2.
Proof.
  unfold frame. intros (A1 & A2 & A3 & A4 & A5 & A6 & A7) B1 B2 B3 B4 B5 B6 B7.
  repeat split; try congruence. auto.
Qed.

Lemma frame_clearTimeout t s s1 : frame s s1 -> frame s (clearTimeout t s1).
Proof.
  intros H. eapply frame_step; [exact H | reflexivity ..|].
  intros t' p Hin. apply filter_In in Hin. tauto.
Qed.

Lemma frame_setTimeout cb s s1 :
  (forall p, cb <> ConnectTimeout p) -> frame s s1 ->
  frame s (snd (setTimeout cb s1)).
Proof.
  intros Hcb H. eapply frame_step; [exact H | reflexivity ..|].
  intros t' p Hin. simpl in Hin. apply in_app_or in Hin.
  destruct Hin as [Hin|[Hin|[]]]; auto.
  inversion Hin. subst. exfalso. eapply Hcb; eauto.
Qed.

Lemma frame_commandTimeout v s s1 :
  frame s s1 -> frame s (set_commandTimeout v s1).
Proof. intros H. eapply frame_step; [exact H | reflexivity ..|]; auto. Qed.

Lemma frame_receiveTimeout v s s1 :
  frame s s1 -> frame s (set_receiveTimeout v s1).
Proof. intros H. eapply frame_step; [exact H | reflexivity ..|]; auto. Qed.

Lemma frame_connectTimeout v s s1 :
  frame s s1 -> frame s (set_connectTimeout v s1).
Proof. intros H. eapply frame_step; [exact H | reflexivity ..|]; auto. Qed.

Lemma frame_receivedData v s s1 :
  frame s s1 -> frame s (set_receivedData v s1).
Proof. intros H. eapply frame_step; [exact H | reflexivity ..|]; auto. Qed.

Create HintDb frames.

#[local] Hint Resolve frame_refl frame_clearTimeout frame_commandTimeout
  frame_receiveTimeout frame_connectTimeout frame_receivedData : frames.

#[local] Hint Extern 1 (frame _ (snd (setTimeout ReceiveQuiet _))) =>
  apply frame_setTimeout; [discriminate|] : frames.

#[local] Hint Extern 1 (frame _ (snd (setTimeout CommandTimeout _))) =>
  apply frame_setTimeout; [discriminate|] : frames.

Lemma order_nodup s :
  settledIds s ++ queueIds s = seq 0 (promises s) ->
  NoDup (settledIds s ++ queueIds s).
Proof. intros ->. apply seq_NoDup. Qed.

Lemma head_unsettled s c q :
  settledIds s ++ queueIds s = seq 0 (promises s) ->
  commandQueue s = c :: q -> ~ In (promise c) (settledIds s).
Proof.
  intros H Eq Hin. apply order_nodup in H. unfold queueIds in H.
  rewrite Eq in H. simpl in H. apply NoDup_remove_2 in H.
  apply H. apply in_or_app. auto.
Qed.

(** Settling the head and removing it. *)
Lemma finish_inv s c q o :
  Inv s -> commandQueue s = c :: q ->
  Inv' (set_commandQueue q (set_receivedData [] (settle (promise c) o s))).
Proof.
  intros [H1 H2 H3 H4 H5 H6 H7 H8] Eq.
  assert (Hn := head_unsettled _ _ _ H1 Eq).
  rewrite (settle_new _ _ _ Hn).
  constructor; unfold_inv; simpl;
    rewrite ?Eq, ?map_app in *; simpl in *.
  - rewrite <- app_assoc. exact H1.
  - intros _ Hs. assert (c :: q = []) by (apply H2; exact Hs). discriminate.
  - intros k Hk. left. apply in_or_app.
    destruct (H3 k Hk) as [H|H]; [auto | inversion H; simpl; auto].
  - intros t p Ht. left. apply in_or_app.
    destruct (H4 t p Ht) as [H|H]; [auto | inversion H; simpl; auto].
  - intros c' Hc. left. apply in_or_app.
    destruct (H5 c' Hc) as [H|H]; [auto | inversion H; simpl; auto].
  - exact H6.
  - intros c' [Hc|Hc]; apply H7; auto.
  - exact H8.
Qed.

Lemma finish_empty_inv s :
  Inv s -> commandQueue s = [] ->
  Inv' (set_commandQueue [] (set_receivedData [] s)).
Proof.
  intros [H1 H2 H3 H4 H5 H6 H7 H8] Eq.
  constructor; unfold_inv; simpl;
    rewrite ?Eq in *; simpl in *; auto.
Qed.

Lemma receiveData_empty_inv s :
  Inv s -> exists s', receiveData true [] s = Ok s' /\ Inv s'.
Proof.
  intros H. unfold receiveData.
  set (s0 := match commandTimeout s with
             | Some t => set_commandTimeout None (clearTimeout t s)
             | None => s end).
  assert (H0 : Inv s0).
  { subst s0. destruct (commandTimeout s); auto.
    eapply Inv_frame; [exact H | auto with frames]. }
  clearbody s0. clear H s.
  destruct (commandQueue s0) as [|c q] eqn:Eq.
  - apply handleNextCommand_inv. simpl. rewrite Eq. simpl.
    apply finish_empty_inv; auto.
  - apply handleNextCommand_inv.
    replace (commandQueue (set_receivedData [] (settle (promise c) (Resolved
      (receivedData s0)) s0))) with (c :: q).
    2:{ rewrite settle_shape. simpl. auto. }
    simpl. apply finish_inv; auto.
Qed.

Lemma handleCommandTimeout_inv s :
  Inv s -> exists s', handleCommandTimeout s = Ok s' /\ Inv s'.
Proof.
  intros H. unfold handleCommandTimeout.
  set (s0 := set_commandTimeout None s).
  assert (H0 : Inv s0)
    by (subst s0; eapply Inv_frame; [exact H | auto with frames]).
  clearbody s0. clear H s.
  destruct (commandQueue s0) as [|c q] eqn:Eq.
  - apply handleNextCommand_inv. simpl. rewrite Eq. simpl.
    apply finish_empty_inv; auto.
  - apply handleNextCommand_inv.
    replace (commandQueue (set_receivedData [] (settle (promise c) (Rejected
      (Error "Command timed out")) s0))) with (c :: q).
    2:{ rewrite settle_shape. simpl. auto. }
    simpl. apply finish_inv; auto.
Qed.

Lemma receiveData_data_inv data s :
  Inv s -> exists s', receiveData false data s = Ok s' /\ Inv s'.
Proof.
  intros H. unfold receiveData.
  set (s0 := match commandTimeout s with
             | Some t => set_commandTimeout None (clearTimeout t s)
             | None => s end).
  assert (H0 : frame s s0).
  { subst s0. destruct (commandTimeout s); auto with frames. }
  clearbody s0.
  set (s2 := match receiveTimeout _ with Some _ => _ | None => _ end).
  assert (H2 : frame s s2).
  { subst s2. destruct (receiveTimeout _); auto with frames. }
  clearbody s2.
  rewrite (surjective_pairing (setTimeout ReceiveQuiet s2)).
  eexists; split; [reflexivity|].
  eapply Inv_frame; [exact H | auto with frames].
Qed.

Lemma rejectAll_settled err q : forall s,
  NoDup (settledIds s ++ map promise q) ->
  rejectAll err q s = set_settled (settled s ++ rejections err q) s.
Proof.
  unfold rejectAll.
  induction q as [|c q IH]; intros s H; simpl.
  - rewrite app_nil_r. destruct s; reflexivity.
  - assert (Hn : ~ In (promise c) (settledIds s)).
    { intros Hin. apply NoDup_remove_2 in H. apply H. apply in_or_app. auto. }
    rewrite (settle_new _ _ _ Hn). rewrite IH.
    + simpl. rewrite <- app_assoc. reflexivity.
    + unfold settledIds. simpl. rewrite map_app. simpl.
      rewrite <- app_assoc. exact H.
Qed.

(** What [socketErrorHandler] leaves behind. *)
Lemma socketErrorHandler_eq err p s :
  Inv s -> Front s p ->
  socketErrorHandler err p s =
  set_commandQueue []
    (set_settled (settled s ++ rejections err (commandQueue s))
       (set_socket None (endCurrent (set_preventDataSending true s)))).
Proof.
  intros [H1 H2 H3 H4 H5 H6 H7 H8] Hp. unfold socketErrorHandler.
  set (s1 := set_preventDataSending true s).
  assert (Hnd : NoDup (settledIds s1 ++ map promise (commandQueue s1))).
  { change (NoDup (settledIds s ++ queueIds s)). apply order_nodup; auto. }
  destruct Hp as [Hp|Hp].
  - rewrite (settle_old p _ s1) by exact Hp.
    set (s3 := set_socket None _).
    change (fold_left _ (commandQueue s3) s3) with (rejectAll err
      (commandQueue s3) s3).
    assert (E : commandQueue s3 = commandQueue s).
    { subst s3 s1. simpl. destruct (socket s); reflexivity. }
    assert (E' : settled s3 = settled s).
    { subst s3 s1. simpl. destruct (socket s); reflexivity. }
    rewrite rejectAll_settled.
    + rewrite E, E'. subst s3 s1. unfold endCurrent. simpl. reflexivity.
    + unfold settledIds. rewrite E, E'. exact Hnd.
  - unfold queueIds in Hp. destruct (commandQueue s) as [|c q] eqn:Eq;
      [discriminate|].
    simpl in Hp. inversion Hp; subst p; clear Hp.
    assert (Hn : ~ In (promise c) (settledIds s1)).
    { apply (head_unsettled s c q); auto. }
    rewrite (settle_new _ _ _ Hn).
    set (s3 := set_socket None _).
    assert (E : commandQueue s3 = c :: q).
    { subst s3 s1. simpl. destruct (socket s); simpl; auto. }
    assert (E' : settled s3 = settled s ++ [(promise c, Rejected err)]).
    { subst s3 s1. simpl. destruct (socket s); reflexivity. }
    rewrite E. simpl.
    rewrite settle_old.
    2:{ unfold settledIds. rewrite E', map_app. apply in_or_app. simpl. auto. }
    change (fold_left _ q s3) with (rejectAll err q s3).
    rewrite rejectAll_settled.
    + rewrite E'. rewrite <- app_assoc. simpl.
      subst s3 s1. unfold endCurrent. simpl. destruct (socket s); reflexivity.
    + unfold settledIds. rewrite E', map_app, <- app_assoc. simpl.
      simpl in Hnd. rewrite Eq in Hnd. exact Hnd.
Qed.

Lemma rejections_ids err q : map fst (rejections err q) = map promise q.
Proof. unfold rejections. rewrite map_map. reflexivity. Qed.

Lemma socketErrorHandler_inv err p s :
  Inv s -> Front s p -> Inv (socketErrorHandler err p s).
Proof.
  intros H Hp. rewrite socketErrorHandler_eq by assumption.
  destruct H as [H1 H2 H3 H4 H5 H6 H7 H8].
  assert (Hall : forall x, Front s x -> In x (map fst (settled s ++ rejections
    err (commandQueue s)))).
  { intros x [Hx|Hx]; rewrite map_app, rejections_ids; apply in_or_app; auto.
    right. unfold queueIds in Hx. destruct (map promise (commandQueue s));
      inversion Hx. simpl; auto. }
  assert (Hin : forall c, InFlight s c -> In (promise c) (map fst (settled
    s ++ rejections err (commandQueue s)))).
  { intros c [Hx|Hx]; rewrite map_app, rejections_ids; apply in_or_app; auto.
    right. destruct (commandQueue s); inversion Hx. simpl; auto. }
  unfold endCurrent.
  change (socket (set_preventDataSending true s)) with (socket s).
  destruct (socket s) as [h|] eqn:Es;
    constructor; unfold_inv; simpl;
    try tauto; try (rewrite app_nil_r, map_app, rejections_ids; exact H1);
    try (intros c [[]|Hc]; apply H7; auto);
    eauto.
  - intros k Hk. left. apply Hall.
    apply updateSocket_In in Hk. destruct Hk as [k0 [Hk0 [->| ->]]]; simpl;
      auto.
  - intros k c Hk Hc.
    apply updateSocket_In in Hk. destruct Hk as [k0 [Hk0 [->| ->]]]; simpl
      in *; eauto.
Qed.

Lemma submit_inv buf er s : Inv s -> Inv (snd (submit buf er s)).
Proof.
  intros [H1 H2 H3 H4 H5 H6 H7 H8].
  unfold submit, newPromise, sendCommand. simpl.
  set (entry := {| expectReply := er; promise := promises s;
                   command := buf ++ [checksum buf] |}).
  destruct (commandQueue s) as [|c q] eqn:Eq.
  - assert (Es : socket s = None) by (apply H2; reflexivity).
    rewrite Es. unfold queueIds in H1. rewrite Eq in H1. simpl in H1.
    assert (Hall : forall x, Front s x -> In x (settledIds s)).
    { intros x [Hx|Hx]; auto. unfold queueIds in Hx. rewrite Eq in Hx.
      discriminate. }
    assert (G : Inv (set_socket (Some (List.length (sockets s)))
                 (snd (net_connect (promises s)
                    (set_preventDataSending false
                      (set_commandQueue ([] ++ [entry]) (set_promises (S
                        (promises s)) s))))))).
    { constructor; unfold_inv; simpl.
      - change (0%nat :: seq 1 (promises s)) with (seq 0 (S (promises s))).
        rewrite seq_S. simpl. f_equal. rewrite app_nil_r in H1. exact H1.
      - split; discriminate.
      - intros k Hk. apply in_app_or in Hk. destruct Hk as [Hk|[<-|[]]];
          simpl; auto.
      - intros t p Ht. left. apply Hall. eauto.
      - intros c Hc. left. destruct (H5 c Hc) as [Hx|Hx]; auto.
        rewrite Eq in Hx. discriminate.
      - intros k c Hk Hc. apply in_app_or in Hk. destruct Hk as [Hk|[<-|[]]];
          simpl in *; eauto.
        contradiction.
      - intros c [[<-|[]]|Hc]; [|apply H7; auto].
        exists buf. simpl. rewrite checksum_spec. reflexivity.
      - exact H8. }
    simpl. destruct (truthy (connectTimeoutLength (options s))); [|exact G].
    simpl. destruct G as [G1 G2 G3 G4 G5 G6 G7 G8].
    constructor; unfold_inv; simpl in *; auto.
    intros t p Ht. apply in_app_or in Ht. destruct Ht as [Ht|[Ht|[]]]; eauto.
    inversion Ht; subst. auto.
  - assert (Es : socket s <> None) by (intros E; apply H2 in E; discriminate).
    assert (G : Inv (set_commandQueue ((c :: q) ++ [entry]) (set_promises (S
      (promises s)) s))).
    { constructor; unfold_inv; simpl; rewrite ?Eq in *; simpl in *; auto.
      - change (0%nat :: seq 1 (promises s)) with (seq 0 (S (promises s))).
        rewrite seq_S. simpl. rewrite map_app. simpl.
        change (map fst (settled s) ++ (promise c :: map promise q) ++
          [promises s] = seq 0 (promises s) ++ [promises s]).
        rewrite app_assoc. f_equal. exact H1.
      - split; [discriminate | intros E; contradiction].
      - intros c0 [[<-|Hc]|Hc]; [apply H7; simpl; auto| |apply H7; auto].
        apply in_app_or in Hc. destruct Hc as [Hc|[<-|[]]]; [apply H7; simpl;
          auto|].
        exists buf. simpl. rewrite checksum_spec. reflexivity. }
    destruct (socket s); exact G.
Qed.

Lemma Inv_updateSocket h f s :
  (forall k, opener (f k) = opener k) ->
  (forall k c, In c (writeCallbacks (f k)) -> In c (writeCallbacks k)) ->
  Inv s -> Inv (set_sockets (updateSocket h f (sockets s)) s).
Proof.
  intros Ho Hw [H1 H2 H3 H4 H5 H6 H7 H8].
  constructor; unfold_inv; simpl; auto.
  - intros k Hk. apply updateSocket_In in Hk.
    destruct Hk as [k0 [Hk0 [->| ->]]]; rewrite ?Ho; auto.
  - intros k c Hk Hc. apply updateSocket_In in Hk.
    destruct Hk as [k0 [Hk0 [->| ->]]]; eauto.
Qed.

Lemma init_inv o : Inv (init o).
Proof.
  constructor; unfold Front, InFlight, queueIds, settledIds; simpl;
    try tauto; try contradiction.
  constructor.
Qed.

Lemma onConnect_inv s : Inv s -> exists s', onConnect s = Ok s' /\ Inv s'.
Proof.
  intros H. unfold onConnect.
  set (s0 := match connectTimeout s with
             | Some t => set_connectTimeout None (clearTimeout t s)
             | None => s end).
  assert (H0 : Inv s0).
  { subst s0. destruct (connectTimeout s); auto.
    eapply Inv_frame; [exact H | auto with frames]. }
  clearbody s0.
  destruct (negb (preventDataSending s0)).
  - apply handleNextCommand_inv, Inv_weaken, H0.
  - eauto.
Qed.

Lemma onWritten_inv cmd s :
  Inv s -> exists s', onWritten cmd s = Ok s' /\ Inv s'.
Proof.
  intros H. unfold onWritten.
  destruct (negb (expectReply cmd)).
  - apply receiveData_empty_inv, H.
  - destruct (commandTimeoutLength (options s)); [|eauto].
    rewrite (surjective_pairing (setTimeout CommandTimeout s)).
    eexists; split; [reflexivity|].
    eapply Inv_frame; [exact H | auto with frames].
Qed.

Lemma timerCb_In t s cb : timerCb t s = Some cb -> In (t, cb) (timers s).
Proof.
  unfold timerCb. destruct (find _ _) as [[t' cb']|] eqn:E; [|discriminate].
  intros H. inversion H; subst. apply find_some in E. destruct E as [E1 E2].
  simpl in E2. apply Nat.eqb_eq in E2. subst. exact E1.
Qed.

Lemma onTimer_inv t cb s :
  Inv s -> In (t, cb) (timers s) ->
  exists s', onTimer cb (clearTimeout t s) = Ok s' /\ Inv s'.
Proof.
  intros H Hin.
  assert (H0 : Inv (clearTimeout t s)).
  { eapply Inv_frame; [exact H | auto with frames]. }
  destruct cb as [| |p]; cbn [onTimer].
  - apply receiveData_empty_inv, H0.
  - apply handleCommandTimeout_inv, H0.
  - eexists; split; [reflexivity|].
    apply socketErrorHandler_inv; auto.
    exact (inv_timers s H t p Hin).
Qed.

(** Every event that can occur is handled without an exception, and the
    invariant is kept. *)
Lemma step_inv e s r :
  Inv s -> step e s = Some r -> exists s', r = Ok s' /\ Inv s'.
Proof.
  intros H Hs. destruct e as [buf er|h|h err|h data|h|t]; simpl in Hs.
  - inversion Hs; subst. eexists; split; [reflexivity|]. apply submit_inv, H.
  - destruct (nth_error (sockets s) h) as [k|] eqn:E; [|discriminate].
    destruct (connecting k); [|discriminate]. inversion Hs; subst; clear Hs.
    destruct (onConnect_inv (markConnected h s)) as [s' [E1 E2]].
    + apply Inv_updateSocket; auto.
    + exists s'. auto.
  - destruct (nth_error (sockets s) h) as [k|] eqn:E; [|discriminate].
    inversion Hs; subst; clear Hs. eexists; split; [reflexivity|].
    apply socketErrorHandler_inv; auto.
    apply (inv_openers s H). eapply nth_error_In; eauto.
  - destruct (nth_error (sockets s) h) as [k|] eqn:E; [|discriminate].
    destruct (connecting k); [discriminate|]. inversion Hs; subst; clear Hs.
    destruct (receiveData_data_inv data s H) as [s' [E1 E2]]. exists s'; auto.
  - destruct (nth_error (sockets s) h) as [k|] eqn:E; [|discriminate].
    destruct (writeCallbacks k) as [|cmd w]; [discriminate|].
    inversion Hs; subst; clear Hs.
    destruct (onWritten_inv cmd (popWrite h s)) as [s' [E1 E2]].
    + apply Inv_updateSocket; auto. intros k0 c Hc. simpl in Hc.
      destruct (writeCallbacks k0); simpl in *; auto.
    + exists s'; auto.
  - destruct (timerCb t s) as [cb|] eqn:E; [|discriminate].
    inversion Hs; subst; clear Hs.
    destruct (onTimer_inv t cb s H (timerCb_In _ _ _ E)) as [s' [E1 E2]].
    exists s'; auto.
Qed.

Lemma exec_inv tr : forall s s', Inv s -> exec tr s = Some s' -> Inv s'.
Proof.
  induction tr as [|e tr IH]; intros s s' H Hx; simpl in Hx.
  - inversion Hx; subst; auto.
  - destruct (step e s) as [r|] eqn:E; [|discriminate].
    destruct (step_inv e s r H E) as [s1 [-> H1]].
    eapply IH; eauto.
Qed.

Lemma reachable_inv o tr s : exec tr (init o) = Some s -> Inv s.
Proof. apply exec_inv, init_inv. Qed.

(** No listener throws: in a state reached from a new instance, every
    event the runtime can produce is handled to the end. *)
Lemma listeners_never_throw o tr s e r :
  exec tr (init o) = Some s -> step e s = Some r -> exists s', r = Ok s'.
Proof.
  intros H Hs.
  destruct (step_inv e s r (reachable_inv _ _ _ H) Hs) as [s' [E _]].
  exists s'. exact E.
Qed.

(** ** The settlement log *)

Lemma grows_refl s : grows s s.
Proof. split; [exists []; rewrite app_nil_r|]; reflexivity. Qed.

Lemma grows_trans s1 s2 s3 : grows s1 s2 -> grows s2 s3 -> grows s1 s3.
Proof.
  intros [[l1 H1] O1] [[l2 H2] O2]. split; [|congruence].
  exists (l1 ++ l2). rewrite H2, H1, app_assoc. reflexivity.
Qed.

Lemma grows_eq s s' :
  settled s' = settled s -> options s' = options s -> grows s s'.
Proof.
  intros H Ho. split; [|exact Ho]. exists []. rewrite app_nil_r. exact H.
Qed.

Lemma settle_grows p o s : grows s (settle p o s).
Proof.
  unfold settle. destruct (existsb _ _); [apply grows_refl|].
  split; [exists [(p, o)]|]; reflexivity.
Qed.

(** The same, seen through updates of other fields. *)
Lemma grows_via s s1 s' :
  grows s s1 -> settled s' = settled s1 -> options s' = options s1 ->
  grows s s'.
Proof.
  intros H E Eo. eapply grows_trans; [exact H|]. apply grows_eq; assumption.
Qed.

Lemma rejectAll_grows err q : forall s, grows s (rejectAll err q s).
Proof.
  unfold rejectAll. induction q as [|c q IH]; intros s; simpl.
  - apply grows_refl.
  - eapply grows_trans; [apply settle_grows | apply IH].
Qed.

Lemma handleNextCommand_grows s s' :
  handleNextCommand s = Ok s' -> grows s s'.
Proof.
  intros H. apply handleNextCommand_frame in H. apply grows_eq; tauto.
Qed.

Lemma receiveData_grows empty data s s' :
  receiveData empty data s = Ok s' -> grows s s'.
Proof.
  unfold receiveData.
  set (s0 := match commandTimeout s with
             | Some t => set_commandTimeout None (clearTimeout t s)
             | None => s end).
  assert (H0 : grows s s0).
  { subst s0. destruct (commandTimeout s); apply grows_eq; reflexivity. }
  clearbody s0. intros H. eapply grows_trans; [exact H0|]. clear H0.
  destruct empty.
  - destruct (commandQueue s0) as [|c q]; apply handleNextCommand_grows in H;
      (eapply grows_trans; [|exact H]).
    + apply grows_eq; reflexivity.
    + eapply grows_via; [apply settle_grows | reflexivity | reflexivity].
  - destruct (receiveTimeout (set_receivedData (receivedData s0 ++ data) s0));
      simpl in H; inversion H; apply grows_eq; reflexivity.
Qed.

Lemma handleCommandTimeout_grows s s' :
  handleCommandTimeout s = Ok s' -> grows s s'.
Proof.
  unfold handleCommandTimeout. intros H. simpl in H.
  destruct (commandQueue s) as [|c q]; apply handleNextCommand_grows in H;
    (eapply grows_trans; [|exact H]).
  - apply grows_eq; reflexivity.
  - apply (grows_trans _ (set_commandTimeout None s));
      [apply grows_eq; reflexivity|].
    eapply grows_via; [apply settle_grows | reflexivity | reflexivity].
Qed.

Lemma socketErrorHandler_grows err p s : grows s (socketErrorHandler err p s).
Proof.
  unfold socketErrorHandler.
  set (s1 := settle p (Rejected err) (set_preventDataSending true s)).
  assert (H1 : grows s s1).
  { apply (grows_trans _ (set_preventDataSending true s));
      [apply grows_eq; reflexivity | apply settle_grows]. }
  clearbody s1.
  set (s2 := set_socket None _).
  assert (H2 : grows s1 s2).
  { subst s2. destruct (socket s1); apply grows_eq; reflexivity. }
  clearbody s2.
  eapply grows_trans; [exact H1|]. eapply grows_trans; [exact H2|].
  eapply grows_via; [apply (rejectAll_grows err (commandQueue s2) s2) | |];
    reflexivity.
Qed.

Lemma some_eq {A} (a b : A) : Some a = Some b -> a = b.
Proof. congruence. Qed.

Lemma ok_eq {A} (a b : A) : Ok a = Ok b -> a = b.
Proof. congruence. Qed.

Lemma step_grows e s s' : step e s = Some (Ok s') -> grows s s'.
Proof.
  intros Hs. destruct e as [buf er|h|h err|h data|h|t]; cbn [step] in Hs.
  - inversion Hs; subst; clear Hs.
    unfold submit, newPromise, sendCommand. simpl.
    destruct (commandQueue s); [destruct (socket s)|];
      try (apply grows_eq; reflexivity).
    simpl. destruct (truthy _); apply grows_eq; reflexivity.
  - destruct (nth_error (sockets s) h) as [k|]; [|discriminate].
    destruct (connecting k); [|discriminate].
    apply some_eq in Hs; rename Hs into H.
    unfold onConnect in H.
    set (s0 := match connectTimeout _ with Some _ => _ | None => _ end) in H.
    assert (H0 : grows s s0).
    { subst s0. destruct (connectTimeout (markConnected h s));
        apply grows_eq; reflexivity. }
    clearbody s0. eapply grows_trans; [exact H0|].
    destruct (negb (preventDataSending s0)).
    + apply handleNextCommand_grows, H.
    + inversion H. apply grows_refl.
  - destruct (nth_error (sockets s) h) as [k|]; [|discriminate].
    apply some_eq, ok_eq in Hs. subst s'. apply socketErrorHandler_grows.
  - destruct (nth_error (sockets s) h) as [k|]; [|discriminate].
    destruct (connecting k); [discriminate|].
    apply some_eq in Hs; rename Hs into H.
    eapply receiveData_grows; eauto.
  - destruct (nth_error (sockets s) h) as [k|]; [|discriminate].
    destruct (writeCallbacks k) as [|cmd w]; [discriminate|].
    apply some_eq in Hs; rename Hs into H. unfold onWritten in H.
    apply (grows_trans _ (popWrite h s)); [apply grows_eq; reflexivity|].
    destruct (negb (expectReply cmd)).
    + eapply receiveData_grows; eauto.
    + destruct (commandTimeoutLength (options (popWrite h s))); simpl in H;
        inversion H; apply grows_eq; reflexivity.
  - destruct (timerCb t s) as [cb|]; [|discriminate].
    apply some_eq in Hs; rename Hs into H.
    apply (grows_trans _ (clearTimeout t s)); [apply grows_eq; reflexivity|].
    destruct cb; cbn [onTimer] in H.
    + eapply receiveData_grows; eauto.
    + eapply handleCommandTimeout_grows; eauto.
    + apply ok_eq in H. subst s'. apply socketErrorHandler_grows.
Qed.

Lemma exec_grows tr : forall s s', exec tr s = Some s' -> grows s s'.
Proof.
  induction tr as [|e tr IH]; intros s s' H; simpl in H.
  - inversion H. apply grows_refl.
  - destruct (step e s) as [[s1|]|] eqn:E; try discriminate.
    eapply grows_trans; [eapply step_grows; eauto | eapply IH; eauto].
Qed.

Lemma exec_app tr1 : forall tr2 s,
  exec (tr1 ++ tr2) s =
  match exec tr1 s with
  | Some s1 => exec tr2 s1
  | None => None
  end.
Proof.
  induction tr1 as [|e tr1 IH]; intros tr2 s; simpl; [reflexivity|].
  destruct (step e s) as [[s1|]|]; auto.
Qed.

(** C1: commands settle in the order they were submitted.  After any run
    of events, the settlement log holds exactly the first submitted
    commands, the k-th settlement being that of the k-th submission, and
    the queue holds the later ones in submission order; a command handed to
    the socket and not yet settled is the head of the queue, commands reach
    the socket in submission order, and the log of an earlier moment of the
    run is a prefix of the log. *)
Theorem fifo_settlement (o : Options) (tr : list Event) (s : State) :
  exec tr (init o) = Some s ->
  settledIds s = seq 0 (List.length (settled s)) /\
  queueIds s = seq (List.length (settled s)) (List.length (commandQueue s)) /\
  (List.length (settled s) + List.length (commandQueue s) = promises s)%nat /\
  (forall c, In c (wire s) -> InFlight s c) /\
  StronglySorted promiseLe (wire s) /\
  (forall tr1 tr2 s1,
      tr = tr1 ++ tr2 -> exec tr1 (init o) = Some s1 ->
      exists l, settled s = settled s1 ++ l).
Proof.
  intros H. assert (HI := reachable_inv _ _ _ H).
  destruct HI as [H1 H2 H3 H4 H5 H6 H7 H8].
  assert (Hs := app_seq_split _ _ _ H1). destruct Hs as [Ha Hb].
  unfold settledIds, queueIds in *. rewrite !length_map in *.
  repeat split; auto.
  - apply (f_equal (@List.length nat)) in H1.
    rewrite length_app, !length_map, length_seq in H1. exact H1.
  - intros tr1 tr2 s1 -> H1'. rewrite exec_app, H1' in H.
    exact (proj1 (exec_grows _ _ _ H)).
Qed.

Lemma fifo_settlement_witness :
  exists s, exec sampleRun (init defaultOptions) = Some s /\
            settled s = [(0%nat, Resolved [0x81]); (1%nat, Resolved []);
                         (2%nat, Rejected (Error "Command timed out"))] /\
            settledIds s = seq 0 (List.length (settled s)).
Proof.
  eexists. split; [vm_compute; reflexivity|]. split; [reflexivity|].
  eapply (fifo_settlement defaultOptions sampleRun). vm_compute. reflexivity.
Defined.

(** ** Checksum and socket errors *)

(** C2: the send path appends exactly one byte to the frame, the sum of
    the bytes of the frame modulo 256, for every frame and every state. *)
Theorem checksum_appended (buf : Buffer) (er : bool) (p : nat) (s : State) :
  commandQueue (sendCommand buf er p s) =
  commandQueue s ++ [{| expectReply := er; promise := p;
                        command := buf ++ [byteSum buf mod 256] |}] /\
  checksum buf = byteSum buf mod 256 /\
  0 <= byteSum buf mod 256 < 256.
Proof.
  split; [|split; [apply checksum_spec | apply Z.mod_pos_bound; lia]].
  unfold sendCommand. rewrite checksum_spec.
  destruct (commandQueue s) as [|c q] eqn:Eq; [destruct (socket s)|];
    simpl; rewrite ?Eq; try reflexivity.
  destruct (truthy _); simpl; rewrite ?Eq; reflexivity.
Qed.

(** Every frame that reaches a socket ends with its checksum. *)
Lemma wire_framed (o : Options) (tr : list Event) (s : State) (c : Cmd) :
  exec tr (init o) = Some s -> In c (wire s) -> Framed c.
Proof.
  intros H Hc. apply (inv_framed s (reachable_inv _ _ _ H)). auto.
Qed.

Lemma socketErrorHandler_spec err p s :
  Inv s -> Front s p ->
  let s' := socketErrorHandler err p s in
  settled s' = settled s ++ rejections err (commandQueue s) /\
  commandQueue s' = [] /\ socket s' = None /\
  promises s' = promises s /\ receivedData s' = receivedData s /\
  List.length (sockets s') = List.length (sockets s).
Proof.
  intros H Hp. cbv zeta. rewrite socketErrorHandler_eq by assumption.
  unfold endCurrent. simpl. repeat split.
  - destruct (socket s); reflexivity.
  - destruct (socket s); reflexivity.
  - destruct (socket s); simpl; auto.
    generalize (sockets s). clear. intros l. revert n.
    induction l as [|x l IH]; intros n; destruct n; simpl; auto.
Qed.

Lemma submit_idle buf er s :
  commandQueue s = [] -> socket s = None ->
  let s' := snd (submit buf er s) in
  socket s' = Some (List.length (sockets s)) /\
  sockets s' = sockets s ++ [freshSocket (promises s)] /\
  commandQueue s' = [{| expectReply := er; promise := promises s;
                        command := buf ++ [checksum buf] |}].
Proof.
  intros Eq Es. cbv zeta. unfold submit, newPromise, sendCommand. simpl.
  rewrite Eq, Es. simpl. destruct (truthy _); simpl; rewrite ?Eq; auto.
Qed.

(** C3: a socket-level error while commands are queued rejects every
    queued command with that error, in queue order, empties the queue and
    drops the socket; the next submission opens a new connection. *)
Theorem socket_error_fails_all (o : Options) (tr : list Event) (s : State)
  (e : Event) (err : exn) :
  exec tr (init o) = Some s ->
  commandQueue s <> [] ->
  socketLevelError s e err ->
  exists s',
    step e s = Some (Ok s') /\
    settled s' = settled s ++ rejections err (commandQueue s) /\
    (forall c, In c (commandQueue s) ->
               In (promise c, Rejected err) (settled s')) /\
    commandQueue s' = [] /\
    socket s' = None /\
    forall buf er,
      let s'' := snd (submit buf er s') in
      socket s'' = Some (List.length (sockets s')) /\
      sockets s'' = sockets s' ++ [freshSocket (promises s')] /\
      List.length (sockets s'') = S (List.length (sockets s)).
Proof.
  intros Hx Hq He. assert (HI := reachable_inv _ _ _ Hx).
  assert (G : forall s0 p, Inv s0 -> Front s0 p ->
            settled s0 = settled s -> commandQueue s0 = commandQueue s ->
            List.length (sockets s0) = List.length (sockets s) ->
            let s' := socketErrorHandler err p s0 in
            settled s' = settled s ++ rejections err (commandQueue s) /\
            (forall c, In c (commandQueue s) ->
               In (promise c, Rejected err) (settled s')) /\
            commandQueue s' = [] /\ socket s' = None /\
            forall buf er,
              let s'' := snd (submit buf er s') in
              socket s'' = Some (List.length (sockets s')) /\
              sockets s'' = sockets s' ++ [freshSocket (promises s')] /\
              List.length (sockets s'') = S (List.length (sockets s))).
  { intros s0 p H0 Hp E1 E2 E3 s'.
    destruct (socketErrorHandler_spec err p s0 H0 Hp)
      as (A1 & A2 & A3 & A4 & A5 & A6).
    fold s' in A1, A2, A3, A4, A5, A6. rewrite E1, E2 in A1.
    repeat split; auto.
    - intros c Hc. rewrite A1. apply in_or_app. right.
      unfold rejections. apply in_map_iff. exists c. auto.
    - apply (submit_idle buf er s' A2 A3).
    - apply (submit_idle buf er s' A2 A3).
    - destruct (submit_idle buf er s' A2 A3) as (_ & B & _).
      rewrite B, length_app, A6, E3. simpl. lia. }
  destruct e as [buf er|h|h er|h data|h|t]; simpl in He; try contradiction.
  - destruct He as [-> Hn].
    cbn [step]. destruct (nth_error (sockets s) h) as [k|] eqn:E;
      [|contradiction].
    eexists. split; [reflexivity|].
    apply G; auto. apply (inv_openers s HI). eapply nth_error_In; eauto.
  - destruct He as [[p Hp] ->].
    cbn [step]. rewrite Hp. eexists. split; [reflexivity|]. cbn [onTimer].
    apply G; auto.
    + eapply Inv_frame; [exact HI | auto with frames].
    + exact (inv_timers s HI t p (timerCb_In _ _ _ Hp)).
Qed.

Lemma socket_error_fails_all_witness :
  exists s s',
    exec twoQueued (init defaultOptions) = Some s /\
    step (SocketError 0 (Error "ECONNREFUSED")) s = Some (Ok s') /\
    settled s' = [(0%nat, Rejected (Error "ECONNREFUSED"));
                  (1%nat, Rejected (Error "ECONNREFUSED"))] /\
    commandQueue s' = [] /\ socket s' = None.
Proof.
  destruct (socket_error_fails_all defaultOptions twoQueued
              (snd (submit [0x71; 0x23; 0x0f] true
                 (snd (submit [0x81; 0x8a; 0x8b] true (init defaultOptions)))))
              (SocketError 0 (Error "ECONNREFUSED")) (Error "ECONNREFUSED"))
    as [s' (H1 & H2 & H3 & H4 & H5 & H6)].
  - reflexivity.
  - vm_compute. discriminate.
  - vm_compute. split; [reflexivity | discriminate].
  - eexists. exists s'. split; [reflexivity|]. split; [exact H1|].
    split; [rewrite H2; reflexivity|]. split; assumption.
Defined.

(** ** Commands that expect no reply, and the receive buffer *)





(** C9: after a socket error the receive buffer still holds the bytes
    received before the error, and they are delivered to the next command.
    The run: a query is written and one byte of its reply arrives; the
    socket fails, which rejects the query and leaves the byte in the
    buffer.  A second query submitted next is resolved with that byte when
    the quiet-period timer of the first reply fires, before it is even
    written; or, if its own reply arrives first, with that byte in front of
    its reply. *)
Theorem receive_buffer_survives_socket_error :
  exists s s1 s2,
    exec [Submit [0x81; 0x8a; 0x8b] true; Connected 0; Written 0;
          Data 0 [0x81]; SocketError 0 (Error "ECONNRESET")]
      (init defaultOptions) = Some s /\
    settled s = [(0%nat, Rejected (Error "ECONNRESET"))] /\
    commandQueue s = [] /\
    receivedData s = [0x81] /\
    exec [Submit [0x81; 0x8a; 0x8b] true; TimerFired 1] s = Some s1 /\
    settled s1 = [(0%nat, Rejected (Error "ECONNRESET"));
                  (1%nat, Resolved [0x81])] /\
    wire s1 = wire s /\
    exec [Submit [0x81; 0x8a; 0x8b] true; Connected 1; Written 1;
          Data 1 [0x55]; TimerFired 3] s = Some s2 /\
    settled s2 = [(0%nat, Rejected (Error "ECONNRESET"));
                  (1%nat, Resolved [0x81; 0x55])].
Proof.
  eexists. eexists. eexists.
  split; [vm_compute; reflexivity|].
  split; [reflexivity|]. split; [reflexivity|]. split; [reflexivity|].
  split; [vm_compute; reflexivity|].
  split; [reflexivity|]. split; [reflexivity|].
  split; [vm_compute; reflexivity|]. reflexivity.
Qed.

(** The two other ways a command finishes do empty the buffer. *)
Lemma receiveData_resets_buffer (s s' : State) :
  receiveData true [] s = Ok s' -> receivedData s' = [].
Proof.
  unfold receiveData. intros H.
  apply handleNextCommand_frame in H. simpl in H. tauto.
Qed.

Lemma handleCommandTimeout_resets_buffer (s s' : State) :
  handleCommandTimeout s = Ok s' -> receivedData s' = [].
Proof.
  unfold handleCommandTimeout. intros H.
  apply handleNextCommand_frame in H. simpl in H. tauto.
Qed.

Lemma rejectAll_keeps_buffer err q : forall s,
  receivedData (rejectAll err q s) = receivedData s.
Proof.
  unfold rejectAll. induction q as [|c q IH]; intros s; simpl; [reflexivity|].
  rewrite IH, settle_shape. reflexivity.
Qed.

Lemma socketErrorHandler_keeps_buffer (err : exn) (p : nat) (s : State) :
  receivedData (socketErrorHandler err p s) = receivedData s.
Proof.
  unfold socketErrorHandler. cbn [receivedData set_commandQueue].
  match goal with
  | |- receivedData (fold_left _ ?q ?s3) = _ =>
      change (receivedData (rejectAll err q s3) = receivedData s)
  end.
  rewrite rejectAll_keeps_buffer. cbn [receivedData set_socket].
  rewrite (settle_shape p (Rejected err) (set_preventDataSending true s)).
  destruct (socket _); reflexivity.
Qed.

(** *** Numbers: comparisons *)

Lemma upTo_In (n : nat) (s : Z) : 0 <= s < Z.of_nat n -> In s (upTo n).
Proof.
  intros H. unfold upTo. apply in_map_iff. exists (Z.to_nat s).
  split; [lia|]. apply in_seq. lia.
Qed.

Lemma SFcompare_Lt_Gt (a b : spec_float) :
  SFcompare a b = Some Lt -> SFcompare b a = Some Gt.
Proof.
  destruct a as [sa|sa| |sa ma ea], b as [sb|sb| |sb mb eb]; simpl; intros H;
    try discriminate;
    try (destruct sa; simpl in *; congruence);
    try (destruct sb; simpl in *; congruence);
    destruct sa, sb; simpl in *; try congruence;
    change (Pos.compare_cont Eq mb ma) with (Pos.compare mb ma);
    change (Pos.compare_cont Eq ma mb) with (Pos.compare ma mb) in H;
    rewrite (Z.compare_antisym ea eb), (Pos.compare_antisym ma mb);
    destruct (ea ?= eb)%Z; simpl in *; try congruence;
    destruct (ma ?= mb)%positive; simpl in *; congruence.
Qed.

Lemma ltb_compare (x y : float) :
  PrimFloat.ltb x y = true -> PrimFloat.compare x y = FLt.
Proof.
  rewrite FloatAxioms.ltb_spec, FloatAxioms.compare_spec. unfold SFltb.
  destruct (SFcompare (Prim2SF x) (Prim2SF y)) as [[| |]|]; simpl;
    congruence.
Qed.

Lemma ltb_compare_rev (x y : float) :
  PrimFloat.ltb x y = true -> PrimFloat.compare y x = FGt.
Proof.
  rewrite FloatAxioms.ltb_spec, FloatAxioms.compare_spec. unfold SFltb.
  destruct (SFcompare (Prim2SF x) (Prim2SF y)) as [[| |]|] eqn:E;
    try discriminate.
  intros _. rewrite (SFcompare_Lt_Gt _ _ E). reflexivity.
Qed.

(** A number above a positive number is above zero. *)
Lemma above_positive (m : positive) (e : Z) (y : spec_float) :
  SFcompare (S754_finite false m e) y = Some Lt ->
  SFcompare (S754_zero false) y = Some Lt.
Proof.
  destruct y as [s|s| |s m' e']; simpl; try discriminate;
    destruct s; simpl; congruence.
Qed.

Lemma ltb_above_zero (lo x : float) (m : positive) (e : Z) :
  Prim2SF lo = S754_finite false m e ->
  PrimFloat.ltb lo x = true -> PrimFloat.compare 0 x = FLt.
Proof.
  intros Hlo. rewrite FloatAxioms.ltb_spec, FloatAxioms.compare_spec, Hlo.
    unfold SFltb.
  destruct (SFcompare (S754_finite false m e) (Prim2SF x)) as [[| |]|] eqn:E;
    try discriminate.
  intros _. change (Prim2SF 0) with (S754_zero false).
  rewrite (above_positive _ _ _ E). reflexivity.
Qed.

Lemma above_larger (m1 m2 : positive) (e1 e2 : Z) (y : spec_float) :
  e1 < e2 ->
  SFcompare (S754_finite false m2 e2) y = Some Lt ->
  SFcompare (S754_finite false m1 e1) y = Some Lt.
Proof.
  intros He. destruct y as [s|s| |s m e]; simpl; try discriminate;
    destruct s; simpl; try congruence.
  destruct (Z.compare_spec e2 e); try discriminate; intros _.
  - subst. rewrite (proj2 (Z.compare_lt_iff e1 e) He). reflexivity.
  - assert (Hlt : e1 < e) by lia.
    rewrite (proj2 (Z.compare_lt_iff e1 e) Hlt). reflexivity.
Qed.

Lemma ltb_above_larger (lo hi x : float) (m1 m2 : positive) (e1 e2 : Z) :
  Prim2SF lo = S754_finite false m1 e1 ->
  Prim2SF hi = S754_finite false m2 e2 ->
  e1 < e2 ->
  PrimFloat.ltb hi x = true -> PrimFloat.compare lo x = FLt.
Proof.
  intros Hlo Hhi He.
  rewrite FloatAxioms.ltb_spec, FloatAxioms.compare_spec, Hlo, Hhi.
  unfold SFltb.
  destruct (SFcompare (S754_finite false m2 e2) (Prim2SF x)) as [[| |]|] eqn:E;
    try discriminate.
  intros _. rewrite (above_larger _ _ _ _ _ He E). reflexivity.
Qed.

Lemma Math_max_cases (a b : float) :
  Math_max a b = PrimFloat.nan \/ Math_max a b = a \/ Math_max a b = b.
Proof.
  unfold Math_max. destruct (PrimFloat.compare a b); auto.
  destruct (is_neg_zero a); auto.
Qed.

Lemma Math_min_cases (a b : float) :
  Math_min a b = PrimFloat.nan \/ Math_min a b = a \/ Math_min a b = b.
Proof.
  unfold Math_min. destruct (PrimFloat.compare a b); auto.
  destruct (is_neg_zero b); auto.
Qed.

(** Clamping a clamped value changes nothing, for bounds that are numbers
    and in order. *)
Lemma clamp_idem (x lo hi : float) :
  Math_min hi PrimFloat.nan = PrimFloat.nan ->
  clamp PrimFloat.nan lo hi = PrimFloat.nan ->
  clamp (Math_min hi lo) lo hi = Math_min hi lo ->
  clamp hi lo hi = hi ->
  clamp (clamp x lo hi) lo hi = clamp x lo hi.
Proof.
  intros Hn Hcn Hlo Hhi. unfold clamp in *.
  destruct (Math_max_cases lo x) as [E|[E|E]]; rewrite !E.
  - rewrite Hn. exact Hcn.
  - exact Hlo.
  - destruct (Math_min_cases hi x) as [F|[F|F]]; rewrite !F.
    + exact Hcn.
    + exact Hhi.
    + rewrite E. exact F.
Qed.

Lemma clamp_below (x lo hi : float) :
  PrimFloat.ltb x lo = true -> clamp x lo hi = Math_min hi lo.
Proof.
  intros H. unfold clamp, Math_max. rewrite (ltb_compare_rev _ _ H).
  reflexivity.
Qed.

Lemma clamp_above (x lo hi : float) :
  PrimFloat.compare lo x = FLt -> PrimFloat.ltb hi x = true ->
  clamp x lo hi = hi.
Proof.
  intros Hlo H. unfold clamp, Math_max, Math_min.
  rewrite Hlo, (ltb_compare _ _ H). reflexivity.
Qed.

Lemma speedToDelay_clamps (x : float) :
  speedToDelay x = speedToDelay (clamp x 0 100).
Proof.
  unfold speedToDelay. rewrite clamp_idem; reflexivity.
Qed.

Lemma delayToSpeed_clamps (x : float) :
  delayToSpeed x = delayToSpeed (clamp x 1 31).
Proof.
  unfold delayToSpeed. rewrite clamp_idem; reflexivity.
Qed.

Lemma exact_clamp_id (v lo hi : Q) :
  (lo <= v)%Q -> (v <= hi)%Q -> (Exact.clamp v lo hi == v)%Q.
Proof.
  intros H1 H2. unfold Exact.clamp. rewrite (Q.max_r lo v H1).
  apply Q.min_r. exact H2.
Qed.

(** In exact arithmetic [speedToDelay] is the line from (0, 31) to
    (100, 1) and [delayToSpeed] undoes it. *)
Lemma exact_speedToDelay_line (q : Q) :
  (0 <= q <= 100)%Q -> (Exact.speedToDelay q == 31 - (3 # 10) * q)%Q.
Proof.
  intros [H1 H2]. unfold Exact.speedToDelay.
  rewrite (exact_clamp_id q 0 100 H1 H2). field.
Qed.

Lemma exact_round_trip (q : Q) :
  (0 <= q <= 100)%Q -> (Exact.delayToSpeed (Exact.speedToDelay q) == q)%Q.
Proof.
  intros H. unfold Exact.delayToSpeed.
  assert (E := exact_speedToDelay_line q H).
  assert (C : (Exact.clamp (Exact.speedToDelay q) 1 31
               == Exact.speedToDelay q)%Q).
  { apply exact_clamp_id; rewrite E; lra. }
  rewrite C, E. field.
Qed.

Lemma round_trip_check :
  forallb (fun s => closeTo (delayToSpeed (speedToDelay (ofZ s)))
                      (inject_Z s) (1 # 2 ^ 46)) (upTo 101) = true.
Proof. vm_compute. reflexivity. Qed.

Lemma rounding_check :
  forallb (fun s => closeTo (speedToDelay (ofZ s))
                      (Exact.speedToDelay (inject_Z s)) (1 # 2 ^ 48))
    (upTo 101) = true.
Proof. vm_compute. reflexivity. Qed.

Lemma decreasing_check :
  forallb (fun s => PrimFloat.ltb (speedToDelay (ofZ (s + 1)))
                      (speedToDelay (ofZ s))) (upTo 100) = true.
Proof. vm_compute. reflexivity. Qed.

(** C5, as claimed, fails: the round trip is not exact away from the
    extremes.  In binary64 [delayToSpeed (speedToDelay 3)] is
    2.9999999999999858 (the number 0x1.7ffffffffffep+1), not 3, and 28 of
    the integer speeds in [0, 100], all of them strictly between 0 and 100,
    do not come back exactly. *)
Lemma round_trip_not_exact :
  delayToSpeed (speedToDelay (ofZ 3)) = 0x1.7ffffffffffep+1%float /\
  delayToSpeed (speedToDelay (ofZ 3)) <> ofZ 3 /\
  inexactSpeeds =
    [3; 4; 21; 22; 28; 29; 34; 36; 39; 41; 42; 43; 44; 45; 46; 47; 52; 54;
     57; 58; 61; 62; 63; 64; 71; 79; 93; 96] /\
  List.length inexactSpeeds = 28%nat.
Proof.
  split; [vm_compute; reflexivity|]. split.
  - intros H. apply (f_equal toUint8) in H. vm_compute in H. discriminate.
  - split; vm_compute; reflexivity.
Qed.

(** C5, amended: the speed and delay conversions.  For every integer speed
    [s] in [0, 100] the round trip [delayToSpeed (speedToDelay s)] is [s]
    up to the rounding of binary64 arithmetic (within 2^-46, and exactly at
    0 and 100); in exact arithmetic the two functions are inverse to each other
    on [0, 100], [speedToDelay] being the line [31 - 3 s / 10], which the
    binary64 result follows within 2^-48; [speedToDelay] is strictly
    decreasing and maps 100 to 1 and 0 to 31.  Both conversions clamp their
    argument first: any [x] gives the result of its clamped value, speeds
    below 0 or above 100 give the delays 31 and 1, delays below 1 or above
    31 give the speeds 100 and 0. *)
Theorem speed_delay_conversions (s : Z) (x : float) (q : Q) :
  0 <= s <= 100 ->
  closeTo (delayToSpeed (speedToDelay (ofZ s))) (inject_Z s) (1 # 2 ^ 46)
    = true /\
  delayToSpeed (speedToDelay 0) = 0%float /\
  delayToSpeed (speedToDelay 100) = 100%float /\
  ((0 <= q <= 100)%Q ->
   (Exact.delayToSpeed (Exact.speedToDelay q) == q)%Q /\
   (Exact.speedToDelay q == 31 - (3 # 10) * q)%Q) /\
  closeTo (speedToDelay (ofZ s)) (Exact.speedToDelay (inject_Z s))
    (1 # 2 ^ 48) = true /\
  (s < 100 ->
   PrimFloat.ltb (speedToDelay (ofZ (s + 1))) (speedToDelay (ofZ s)) = true) /\
  speedToDelay 100 = 1%float /\
  speedToDelay 0 = 31%float /\
  speedToDelay x = speedToDelay (clamp x 0 100) /\
  (PrimFloat.ltb x 0 = true -> speedToDelay x = 31%float) /\
  (PrimFloat.ltb 100 x = true -> speedToDelay x = 1%float) /\
  delayToSpeed x = delayToSpeed (clamp x 1 31) /\
  (PrimFloat.ltb x 1 = true -> delayToSpeed x = 100%float) /\
  (PrimFloat.ltb 31 x = true -> delayToSpeed x = 0%float).
Proof.
  intros Hs.
  split. { apply (proj1 (forallb_forall _ _) round_trip_check).
           apply upTo_In. simpl. lia. }
  split. { reflexivity. }
  split. { reflexivity. }
  split. { intros Hq. split;
             [apply exact_round_trip | apply exact_speedToDelay_line];
             exact Hq. }
  split. { apply (proj1 (forallb_forall _ _) rounding_check).
           apply upTo_In. simpl. lia. }
  split. { intros Hlt.
           apply (proj1 (forallb_forall _ _) decreasing_check).
           apply upTo_In. simpl. lia. }
  split. { reflexivity. }
  split. { reflexivity. }
  split. { apply speedToDelay_clamps. }
  split. { intros H. unfold speedToDelay. rewrite (clamp_below _ _ _ H).
           reflexivity. }
  split. { intros H. unfold speedToDelay. rewrite (clamp_above x 0 100).
           - reflexivity.
           - eapply (ltb_above_zero 100); [reflexivity | exact H].
           - exact H. }
  split. { apply delayToSpeed_clamps. }
  split. { intros H. unfold delayToSpeed. rewrite (clamp_below _ _ _ H).
           reflexivity. }
  intros H. unfold delayToSpeed. rewrite (clamp_above x 1 31).
  - reflexivity.
  - eapply (ltb_above_larger 1 31); [reflexivity | reflexivity | | exact H].
    vm_compute. reflexivity.
  - exact H.
Qed.

Lemma speed_delay_conversions_witness :
  closeTo (delayToSpeed (speedToDelay (ofZ 3))) (inject_Z 3) (1 # 2 ^ 46)
    = true /\
  speedToDelay 250 = 1%float /\
  (Exact.delayToSpeed (Exact.speedToDelay (7 # 2)) == 7 # 2)%Q.
Proof.
  destruct (speed_delay_conversions 3 250 (7 # 2))
    as (H1 & _ & _ & H4 & _ & _ & _ & _ & _ & _ & H11 & _); [lia|].
  split; [exact H1|]. split; [apply H11; reflexivity|].
  apply H4. split; discriminate.
Defined.

(** *** Pattern frames *)

Lemma submit_fst buf er s : fst (submit buf er s) = promises s.
Proof. reflexivity. Qed.

Lemma setIAPattern_valid (code : Z) (speed : float) (s : State) :
  1 <= code <= 300 ->
  setIAPattern code speed s =
  (snd (submit (iaPatternFrame code speed) (ackOf AckPattern s) s),
   Pending (promises s) (ThenAck AckPattern)).
Proof.
  intros H. unfold setIAPattern.
  destruct (Z.ltb_spec code 1); [lia|].
  destruct (Z.gtb_spec code 300); [lia|]. reflexivity.
Qed.

(** C6: [setIAPattern(1, 10)] submits the frame 0x61, 0x00, 0x64, 10, 0x0f,
    whose bytes 1 and 2 read as the big-endian value 100; a code below 1 or
    above 300 makes the call return a promise rejected with "Invalid code",
    the instance being left as it was: nothing queued, no socket opened. *)
Theorem setIAPattern_validation (code : Z) (speed : float) (s : State) :
  code < 1 \/ 300 < code ->
  setIAPattern code speed s = (s, RejectedNow (Error "Invalid code")) /\
  setIAPattern 1 10 s =
    (snd (submit [0x61; 0x00; 0x64; 10; 0x0f] (ackOf AckPattern s) s),
     Pending (promises s) (ThenAck AckPattern)) /\
  Buf.readUInt8 (iaPatternFrame 1 10) 0 = Ok 0x61 /\
  Buf.readUInt16BE (iaPatternFrame 1 10) 1 = Ok 100.
Proof.
  intros H. split; [|split; [|split]]; try reflexivity.
  unfold setIAPattern.
  destruct (Z.ltb_spec code 1); [reflexivity|].
  destruct (Z.gtb_spec code 300); [reflexivity|]. lia.
Qed.

Lemma setIAPattern_validation_witness :
  setIAPattern 301 10 (init defaultOptions) =
    (init defaultOptions, RejectedNow (Error "Invalid code")) /\
  setIAPattern 0 10 (init defaultOptions) =
    (init defaultOptions, RejectedNow (Error "Invalid code")).
Proof.
  split.
  - apply (setIAPattern_validation 301 10 (init defaultOptions)). lia.
  - apply (setIAPattern_validation 0 10 (init defaultOptions)). lia.
Defined.

(** C7, as claimed, fails: the fourth byte of the frame of
    [setIAPattern(1, 10)] is the speed 10 itself, not the delay 28 that
    [speedToDelay] gives for it. *)
Lemma iaPattern_speed_not_converted :
  iaPatternFrame 1 10 <>
  Buf.from [Int 0x61; Int ((1 + 99) / 256); Int ((1 + 99) mod 256);
            Dbl (speedToDelay 10); Int 0x0f].
Proof. vm_compute. discriminate. Qed.

(** C7, amended: for a code in [1, 300] the frame is 0x61, the big-endian
    16-bit value [code + 99], the speed as given (stored as a byte, not
    converted to a delay), 0x0f; and this is the frame submitted. *)
Theorem iaPattern_frame (code : Z) (speed : float) (s : State) :
  1 <= code <= 300 ->
  iaPatternFrame code speed =
    [0x61; (code + 99) / 256; (code + 99) mod 256; toUint8 speed; 0x0f] /\
  Buf.readUInt16BE (iaPatternFrame code speed) 1 = Ok (code + 99) /\
  setIAPattern code speed s =
    (snd (submit (iaPatternFrame code speed) (ackOf AckPattern s) s),
     Pending (promises s) (ThenAck AckPattern)).
Proof.
  intros H.
  assert (E : iaPatternFrame code speed =
    [0x61; (code + 99) / 256; (code + 99) mod 256; toUint8 speed; 0x0f]).
  { unfold iaPatternFrame, Buf.from. cbn [app map Buf.toByte].
    rewrite Z.shiftr_div_pow2 by lia.
    change 0xff with (Z.ones 8). rewrite Z.land_ones by lia.
    change (2 ^ 8) with 256.
    rewrite Z.mod_mod by lia.
    rewrite (Z.mod_small ((code + 99) / 256) 256).
    - reflexivity.
    - split; [apply Z.div_pos; lia | apply Z.div_lt_upper_bound; lia]. }
  split; [exact E|]. split; [|apply setIAPattern_valid, H].
  rewrite E. unfold Buf.readUInt16BE. cbn [nth_error]. f_equal.
  change (2 ^ 8) with 256.
  rewrite (Z.div_mod (code + 99) 256) at 3 by lia. lia.
Qed.

Lemma iaPattern_frame_witness :
  iaPatternFrame 300 10 = [0x61; 0x01; 0x8f; 10; 0x0f].
Proof.
  destruct (iaPattern_frame 300 10 (init defaultOptions)) as (H & _); [lia|].
  rewrite H. reflexivity.
Defined.

Lemma colorSlot_length (m : CustomMode) (i : nat) :
  List.length (colorSlot m i) = 4%nat.
Proof. unfold colorSlot. destruct (nth_error (colors m) i); reflexivity. Qed.

Lemma slotBytes_length (m : CustomMode) : List.length (slotBytes m) = 64%nat.
Proof.
  unfold slotBytes, Buf.from. rewrite length_map. cbn [seq flat_map].
  rewrite !length_app, !colorSlot_length. reflexivity.
Qed.

(** C8, as claimed, fails: a [CustomMode] whose transition type is none of
    the three is not rejected; a command is queued and a socket opened, the
    queued frame having no transition byte (69 bytes with its checksum
    instead of 70). *)
Lemma unknown_transition_not_rejected :
  let r := setCustomPattern (Instance blink) 50 (init defaultOptions) in
  snd r = Pending 0 (ThenAck AckCustomPattern) /\
  socket (fst r) = Some 0%nat /\
  map (fun c => List.length (command c)) (commandQueue (fst r)) = [69%nat] /\
  customPatternFrame blink 50 =
    0x51 :: slotBytes blink ++ [toUint8 (speedToDelay 50); 0xff; 0x0f].
Proof. vm_compute. repeat split. Qed.

(** C8, amended: a pattern that is not an instance of [CustomMode] makes
    the call return a promise rejected with "Invalid pattern", the instance
    being left as it was; for an instance whose transition type is 'fade',
    'jump' or 'strobe' the frame carries 0x3a, 0x3b or 0x3c after the 64
    slot bytes and the delay, and is submitted. *)
Theorem setCustomPattern_validation (m : CustomMode) (speed : float)
  (s : State) (t : string) (b : Z) :
  In (t, b) [("fade", 0x3a); ("jump", 0x3b); ("strobe", 0x3c)] ->
  transitionType m = t ->
  setCustomPattern NotCustomMode speed s =
    (s, RejectedNow (Error "Invalid pattern")) /\
  customPatternFrame m speed =
    0x51 :: slotBytes m ++ [toUint8 (speedToDelay speed); b; 0xff; 0x0f] /\
  List.length (slotBytes m) = 64%nat /\
  setCustomPattern (Instance m) speed s =
    (snd (submit (customPatternFrame m speed) (ackOf AckCustomPattern s) s),
     Pending (promises s) (ThenAck AckCustomPattern)).
Proof.
  intros Hin Ht. split; [reflexivity|]. split; [|split; [apply
    slotBytes_length | reflexivity]].
  unfold customPatternFrame, slotBytes, Buf.from. rewrite Ht.
  destruct Hin as [E|[E|[E|[]]]]; inversion E; subst t b;
    rewrite !map_app, <- !app_assoc; reflexivity.
Qed.

Lemma setCustomPattern_validation_witness :
  nth_error (customPatternFrame fadeRedBlue 50) 66 = Some 0x3a /\
  firstn 9 (customPatternFrame fadeRedBlue 50) =
    [0x51; 255; 0; 0; 0; 0; 0; 255; 0].
Proof.
  destruct (setCustomPattern_validation fadeRedBlue 50 (init defaultOptions)
              "fade" 0x3a) as (_ & H & _).
  - simpl. auto.
  - reflexivity.
  - rewrite H. split; reflexivity.
Defined.

(** *** Decoding a query response *)

Lemma nth_error_lt {A} (l : list A) (i : nat) :
  (i < List.length l)%nat -> exists v, nth_error l i = Some v.
Proof.
  intros H. destruct (nth_error l i) eqn:E; eauto.
  apply nth_error_None in E. lia.
Qed.

Lemma readUInt8_at (b : Buffer) (i : nat) (v : Z) :
  nth_error b i = Some v -> Buf.readUInt8 b i = Ok v.
Proof. unfold Buf.readUInt8. intros ->. reflexivity. Qed.

Lemma firstName_none (tbl : list (string * Z)) (resp : Buffer) (b3 : Z) :
  nth_error resp 3 = Some b3 ->
  (forall name code, In (name, code) tbl -> code <> b3) ->
  firstName tbl resp = Ok None.
Proof.
  intros H3. induction tbl as [|[name code] tbl IH]; intros Hno; simpl.
  - reflexivity.
  - rewrite (readUInt8_at _ _ _ H3). simpl.
    destruct (Z.eqb_spec code b3) as [E|E].
    + exfalso. apply (Hno name code); simpl; auto.
    + apply IH. intros n c Hin. apply (Hno n c). simpl; auto.
Qed.

(** C10: a response of at least 14 bytes whose byte 3 lies in
    [0x25, 0x38] without being a code of the pattern table is decoded by
    [queryState] with mode ['pattern'] and pattern [null]. *)
Theorem unnamed_pattern_code (patterns : list (string * Z)) (data : Buffer)
  (s : State) (b3 : Z) :
  (14 <= List.length data)%nat ->
  Forall (fun x => 0 <= x < 256) data ->
  nth_error data 3 = Some b3 ->
  0x25 <= b3 <= 0x38 ->
  (forall name code, In (name, code) patterns -> code <> b3) ->
  determineMode data = Ok (Some mode_pattern) /\
  determinePattern patterns data = Ok None /\
  (exists b4, Buf.readUInt16BE data 3 = Ok (b3 * 256 + b4) /\
              0x2500 <= b3 * 256 + b4) /\
  exists st s',
    queryState_then patterns data s = Ok (st, s') /\
    StateType.mode st = Some mode_pattern /\
    StateType.pattern st = None.
Proof.
  intros Hlen Hbytes H3 Hr Hno.
  assert (R : forall i, (i < 14)%nat -> exists v, nth_error data i = Some v).
  { intros i Hi. apply nth_error_lt. lia. }
  destruct (R 4%nat) as [b4 H4]; [lia|].
  assert (Hb4 : 0 <= b4 < 256).
  { apply (proj1 (Forall_forall _ _) Hbytes). eapply nth_error_In; eauto. }
  assert (H16 : Buf.readUInt16BE data 3 = Ok (b3 * 256 + b4)).
  { unfold Buf.readUInt16BE. rewrite H3, H4. reflexivity. }
  assert (Hmode : determineMode data = Ok (Some mode_pattern)).
  { unfold determineMode, u8, u16, orR, andR.
    rewrite !(readUInt8_at _ _ _ H3). cbn [bind].
    replace (0x61 =? b3) with false by (symmetry; apply Z.eqb_neq; lia).
    replace (0 =? b3) with false by (symmetry; apply Z.eqb_neq; lia).
    replace (0x62 =? b3) with false by (symmetry; apply Z.eqb_neq; lia).
    replace (0x60 =? b3) with false by (symmetry; apply Z.eqb_neq; lia).
    replace (0x25 <=? b3) with true by (symmetry; apply Z.leb_le; lia).
    replace (b3 <=? 0x38) with true by (symmetry; apply Z.leb_le; lia).
    reflexivity. }
  assert (Hpat : determinePattern patterns data = Ok None).
  { unfold determinePattern, iaCode, u8, u16, andR.
    rewrite !(readUInt8_at _ _ _ H3). cbn [bind].
    replace (0x25 <=? b3) with true by (symmetry; apply Z.leb_le; lia).
    replace (b3 <=? 0x38) with true by (symmetry; apply Z.leb_le; lia).
    rewrite (firstName_none _ _ _ H3 Hno). cbn [bind].
    rewrite H16. cbn [bind].
    replace (0x64 <=? b3 * 256 + b4) with true by (symmetry; apply Z.leb_le;
      lia).
    replace (b3 * 256 + b4 <=? 0x018f) with false by (symmetry; apply
      Z.leb_gt; lia).
    reflexivity. }
  split; [exact Hmode|]. split; [exact Hpat|].
  split; [exists b4; split; [exact H16 | lia]|].
  destruct (R 1%nat) as [b1 H1]; [lia|].
  destruct (R 2%nat) as [b2 H2]; [lia|].
  destruct (R 5%nat) as [b5 H5]; [lia|].
  destruct (R 6%nat) as [b6 H6]; [lia|].
  destruct (R 7%nat) as [b7 H7]; [lia|].
  destruct (R 8%nat) as [b8 H8]; [lia|].
  destruct (R 9%nat) as [b9 H9]; [lia|].
  destruct (R 11%nat) as [b11 H11]; [lia|].
  unfold queryState_then.
  replace (Z.of_nat (List.length data) <? 14) with false
    by (symmetry; apply Z.ltb_ge; lia).
  rewrite Hmode, Hpat.
  rewrite (readUInt8_at _ _ _ H1), (readUInt8_at _ _ _ H2),
    (readUInt8_at _ _ _ H5), (readUInt8_at _ _ _ H6),
    (readUInt8_at _ _ _ H7), (readUInt8_at _ _ _ H8),
    (readUInt8_at _ _ _ H9), (readUInt8_at _ _ _ H11).
  cbn [bind]. eexists. eexists. split; [reflexivity|]. split; reflexivity.
Qed.

Lemma unnamed_pattern_code_witness :
  determineMode reply = Ok (Some mode_pattern) /\
  determinePattern oneName reply = Ok None.
Proof.
  destruct (unnamed_pattern_code oneName reply (init defaultOptions) 0x26)
    as (H1 & H2 & _).
  - simpl. lia.
  - unfold reply. repeat (constructor; [lia|]). constructor.
  - reflexivity.
  - lia.
  - intros name code [E|[]]. inversion E. lia.
  - split; assumption.
Defined.

(** * Further properties of the driver *)

(** ** The acknowledgement mask *)

Lemma land_pow2 (m k : Z) :
  0 <= k -> Z.land m (2 ^ k) = if Z.testbit m k then 2 ^ k else 0.
Proof.
  intros Hk. apply Z.bits_inj'. intros n Hn.
  rewrite Z.land_spec, Z.pow2_bits_eqb by exact Hk.
  destruct (Z.eqb_spec k n) as [->|Hne].
  - destruct (Z.testbit m n); simpl.
    + rewrite Z.pow2_bits_true by exact Hn. reflexivity.
    + apply eq_sym, Z.bits_0.
  - rewrite Bool.andb_false_r. destruct (Z.testbit m k).
    + rewrite Z.pow2_bits_false by (try lia; congruence). reflexivity.
    + apply eq_sym, Z.bits_0.
Qed.

Lemma land_pow2_pos (m k : Z) :
  0 <= k -> (Z.land m (2 ^ k) >? 0) = Z.testbit m k.
Proof.
  intros Hk. rewrite land_pow2 by exact Hk.
  destruct (Z.testbit m k); [|reflexivity].
  apply Z.gtb_lt. apply Z.pow_pos_nonneg; lia.
Qed.

(** X1: [ackMask] reads the four low bits of the mask: bit 0 is [power],
    bit 1 [color], bit 2 [pattern], bit 3 [customPattern].  Hence the mask
    built from four flags gives these flags back, and adding a multiple of
    16 to a mask changes nothing. *)
Theorem ackMask_bits (mask k : Z) (p c t u : bool) :
  ackMask mask =
    {| power := Z.testbit mask 0; color := Z.testbit mask 1;
       pattern := Z.testbit mask 2; customPattern := Z.testbit mask 3 |} /\
  ackMask (Z.b2z p + 2 * Z.b2z c + 4 * Z.b2z t + 8 * Z.b2z u) =
    {| power := p; color := c; pattern := t; customPattern := u |} /\
  ackMask (mask + 16 * k) = ackMask mask.
Proof.
  assert (E : forall m, ackMask m =
    {| power := Z.testbit m 0; color := Z.testbit m 1;
       pattern := Z.testbit m 2; customPattern := Z.testbit m 3 |}).
  { intros m. unfold ackMask.
    change 0x01 with (2 ^ 0). change 0x02 with (2 ^ 1).
    change 0x04 with (2 ^ 2). change 0x08 with (2 ^ 3).
    rewrite !land_pow2_pos by lia. reflexivity. }
  split; [apply E|]. split.
  - destruct p, c, t, u; reflexivity.
  - rewrite !E.
    assert (B : forall n, 0 <= n < 4 ->
                Z.testbit (mask + 16 * k) n = Z.testbit mask n).
    { intros n Hn.
      rewrite <- (Z.mod_pow2_bits_low (mask + 16 * k) 4 n) by lia.
      rewrite <- (Z.mod_pow2_bits_low mask 4 n) by lia.
      change (2 ^ 4) with 16. f_equal.
      rewrite (Z.mul_comm 16 k). apply Z.mod_add. lia. }
    rewrite !B by lia. reflexivity.
Qed.

(** ** Decoding bytes 3 and 4 *)

Lemma u8_at (resp : Buffer) (off : nat) (p : Z -> bool) (v : Z) :
  nth_error resp off = Some v -> u8 resp off p = Ok (p v).
Proof. intros H. unfold u8. rewrite (readUInt8_at _ _ _ H). reflexivity. Qed.

Lemma readUInt16BE_at (resp : Buffer) (off : nat) (h l : Z) :
  nth_error resp off = Some h -> nth_error resp (S off) = Some l ->
  Buf.readUInt16BE resp off = Ok (h * 256 + l).
Proof. intros H1 H2. unfold Buf.readUInt16BE. rewrite H1, H2. reflexivity. Qed.

Lemma u16_at (resp : Buffer) (off : nat) (p : Z -> bool) (h l : Z) :
  nth_error resp off = Some h -> nth_error resp (S off) = Some l ->
  u16 resp off p = Ok (p (h * 256 + l)).
Proof.
  intros H1 H2. unfold u16. rewrite (readUInt16BE_at _ _ _ _ H1 H2).
  reflexivity.
Qed.

Lemma determineMode_at (resp : Buffer) (b3 b4 : Z) :
  nth_error resp 3 = Some b3 -> nth_error resp 4 = Some b4 ->
  determineMode resp = Ok (modeOf b3 b4).
Proof.
  intros H3 H4. unfold determineMode, modeOf, orR, andR.
  rewrite !(u8_at _ _ _ _ H3), !(u8_at _ _ _ _ H4), !(u16_at _ _ _ _ _ H3 H4).
  cbn [bind].
  rewrite (Z.eqb_sym 0x61 b3), (Z.eqb_sym 0 b3), (Z.eqb_sym 0x61 b4),
    (Z.eqb_sym 0x62 b3), (Z.eqb_sym 0x60 b3).
  destruct (b3 =? 0x61); cbn [orb bind]; [reflexivity|].
  destruct (b3 =? 0); cbn [andb bind].
  - destruct (b4 =? 0x61); cbn [bind]; [reflexivity|].
    destruct (b3 =? 0x62); cbn [bind]; [reflexivity|].
    destruct (b3 =? 0x60); cbn [bind]; [reflexivity|].
    destruct (0x25 <=? b3); cbn [andb bind];
      [destruct (b3 <=? 0x38); cbn [bind]; [reflexivity|]|];
      (destruct (0x64 <=? b3 * 256 + b4); cbn [andb bind];
       [destruct (b3 * 256 + b4 <=? 0x018f)|]; reflexivity).
  - destruct (b3 =? 0x62); cbn [bind]; [reflexivity|].
    destruct (b3 =? 0x60); cbn [bind]; [reflexivity|].
    destruct (0x25 <=? b3); cbn [andb bind];
      [destruct (b3 <=? 0x38); cbn [bind]; [reflexivity|]|];
      (destruct (0x64 <=? b3 * 256 + b4); cbn [andb bind];
       [destruct (b3 * 256 + b4 <=? 0x018f)|]; reflexivity).
Qed.

Lemma firstName_find (tbl : list (string * Z)) (resp : Buffer) (b3 : Z) :
  nth_error resp 3 = Some b3 ->
  firstName tbl resp =
  Ok (match find (fun e => snd e =? b3) tbl with
      | Some e => Some (fst e)
      | None => None
      end).
Proof.
  intros H3. induction tbl as [|[name code] tbl IH]; simpl; [reflexivity|].
  rewrite (readUInt8_at _ _ _ H3). cbn [bind].
  destruct (code =? b3); [reflexivity | exact IH].
Qed.

Lemma iaCode_at (resp : Buffer) (b3 b4 : Z) :
  nth_error resp 3 = Some b3 -> nth_error resp 4 = Some b4 ->
  iaCode resp = Ok (iaOf b3 b4).
Proof.
  intros H3 H4. unfold iaCode, iaOf, andR.
  rewrite !(u16_at _ _ _ _ _ H3 H4). cbn [bind].
  destruct (0x64 <=? b3 * 256 + b4); cbn [andb bind]; [|reflexivity].
  destruct (b3 * 256 + b4 <=? 0x018f); [|reflexivity].
  rewrite (readUInt16BE_at _ _ _ _ H3 H4). reflexivity.
Qed.

Lemma determinePattern_at (patterns : list (string * Z)) (resp : Buffer)
  (b3 b4 : Z) :
  nth_error resp 3 = Some b3 -> nth_error resp 4 = Some b4 ->
  determinePattern patterns resp = Ok (patternOf patterns b3 b4).
Proof.
  intros H3 H4. unfold determinePattern, patternOf, andR.
  rewrite !(u8_at _ _ _ _ H3). cbn [bind].
  rewrite (iaCode_at _ _ _ H3 H4), (firstName_find _ _ _ H3).
  destruct (0x25 <=? b3); cbn [andb bind]; [|reflexivity].
  destruct (b3 <=? 0x38); [|reflexivity]. cbn [bind].
  destruct (find _ patterns); reflexivity.
Qed.

(** X2: [determineMode] and [determinePattern] agree on every response
    (bytes 3 and 4 present, each a byte).  With mode ['ia_pattern'] the
    pattern is the number read from bytes 3-4 minus 99, between 1 and 300;
    with mode ['pattern'] it is [null] or a name the table maps to byte 3;
    with any other mode, or none, it is [null]. *)
Theorem mode_and_pattern_agree (patterns : list (string * Z)) (resp : Buffer)
  (b3 b4 : Z) :
  nth_error resp 3 = Some b3 -> nth_error resp 4 = Some b4 ->
  0 <= b3 < 256 -> 0 <= b4 < 256 ->
  exists mode pat,
    determineMode resp = Ok mode /\
    determinePattern patterns resp = Ok pat /\
    match mode with
    | Some mode_ia_pattern =>
        pat = Some (PCode (b3 * 256 + b4 - 99)) /\
        1 <= b3 * 256 + b4 - 99 <= 300
    | Some mode_pattern =>
        pat = None \/
        exists name, pat = Some (PName name) /\ In (name, b3) patterns
    | _ => pat = None
    end.
Proof.
  intros H3 H4 Hb3 Hb4.
  exists (modeOf b3 b4), (patternOf patterns b3 b4).
  split; [apply determineMode_at; assumption|].
  split; [apply determinePattern_at; assumption|].
  unfold modeOf, patternOf, iaOf.
  destruct (Z.eqb_spec b3 0x61) as [E|E]; cbn [orb].
  { subst b3. cbn [Z.leb Z.compare andb].
    replace (0x64 <=? 0x61 * 256 + b4) with true
      by (symmetry; apply Z.leb_le; lia).
    replace (0x61 * 256 + b4 <=? 0x018f) with false
      by (symmetry; apply Z.leb_gt; lia).
    reflexivity. }
  destruct (Z.eqb_spec b3 0) as [E0|E0]; cbn [andb].
  { subst b3. destruct (Z.eqb_spec b4 0x61) as [E4|E4].
    - subst b4. reflexivity.
    - cbn [Z.eqb Z.leb Z.compare andb].
      destruct (Z.leb_spec 0x64 (0 * 256 + b4));
        destruct (Z.leb_spec (0 * 256 + b4) 0x018f); cbn [andb];
        try reflexivity.
      split; [reflexivity | lia]. }
  destruct (Z.eqb_spec b3 0x62) as [E2|E2].
  { subst b3. cbn [Z.leb Z.compare andb].
    replace (0x64 <=? 0x62 * 256 + b4) with true
      by (symmetry; apply Z.leb_le; lia).
    replace (0x62 * 256 + b4 <=? 0x018f) with false
      by (symmetry; apply Z.leb_gt; lia).
    reflexivity. }
  destruct (Z.eqb_spec b3 0x60) as [E6|E6].
  { subst b3. cbn [Z.leb Z.compare andb].
    replace (0x64 <=? 0x60 * 256 + b4) with true
      by (symmetry; apply Z.leb_le; lia).
    replace (0x60 * 256 + b4 <=? 0x018f) with false
      by (symmetry; apply Z.leb_gt; lia).
    reflexivity. }
  destruct (Z.leb_spec 0x25 b3); destruct (Z.leb_spec b3 0x38); cbn [andb].
  - destruct (find (fun e => snd e =? b3) patterns) as [[name code]|] eqn:F.
    + right. exists name. split; [reflexivity|].
      apply find_some in F. destruct F as [F1 F2]. simpl in F2.
      apply Z.eqb_eq in F2. subst code. exact F1.
    + left.
      replace (b3 * 256 + b4 <=? 0x018f) with false
        by (symmetry; apply Z.leb_gt; lia).
      rewrite Bool.andb_false_r. reflexivity.
  - destruct (Z.leb_spec 0x64 (b3 * 256 + b4));
      destruct (Z.leb_spec (b3 * 256 + b4) 0x018f); cbn [andb];
      try reflexivity.
    split; [reflexivity | lia].
  - destruct (Z.leb_spec 0x64 (b3 * 256 + b4));
      destruct (Z.leb_spec (b3 * 256 + b4) 0x018f); cbn [andb];
      try reflexivity.
    split; [reflexivity | lia].
  - lia.
Qed.

Lemma mode_and_pattern_agree_witness :
  exists mode pat,
    determineMode reply = Ok mode /\ determinePattern oneName reply = Ok pat.
Proof.
  destruct (mode_and_pattern_agree oneName reply 0x26 0x21)
    as (mode & pat & H1 & H2 & _); try reflexivity; try lia.
  exists mode, pat. split; assumption.
Defined.

(** ** Decoding a whole reply *)

Lemma byte_at (data : Buffer) (i : nat) :
  (i < List.length data)%nat -> nth_error data i = Some (byte data i).
Proof. intros H. unfold byte. apply nth_error_nth'. exact H. Qed.

Lemma queryState_then_long (patterns : list (string * Z)) (data : Buffer)
  (s : State) :
  (14 <= List.length data)%nat ->
  queryState_then patterns data s =
  Ok (decoded patterns data,
      afterQuery (byte data 1) (byte data 6) (byte data 7) (byte data 8)
        (byte data 9) (byte data 11) s).
Proof.
  intros Hlen.
  assert (R : forall i, (i < 14)%nat -> nth_error data i = Some (byte data i)).
  { intros i Hi. apply byte_at. lia. }
  unfold queryState_then.
  replace (Z.of_nat (List.length data) <? 14) with false
    by (symmetry; apply Z.ltb_ge; lia).
  rewrite (determineMode_at data _ _ (R 3%nat ltac:(lia)) (R 4%nat ltac:(lia))).
  rewrite (determinePattern_at patterns data _ _
             (R 3%nat ltac:(lia)) (R 4%nat ltac:(lia))).
  rewrite (readUInt8_at _ _ _ (R 1%nat ltac:(lia))),
    (readUInt8_at _ _ _ (R 2%nat ltac:(lia))),
    (readUInt8_at _ _ _ (R 5%nat ltac:(lia))),
    (readUInt8_at _ _ _ (R 6%nat ltac:(lia))),
    (readUInt8_at _ _ _ (R 7%nat ltac:(lia))),
    (readUInt8_at _ _ _ (R 8%nat ltac:(lia))),
    (readUInt8_at _ _ _ (R 9%nat ltac:(lia))),
    (readUInt8_at _ _ _ (R 11%nat ltac:(lia))).
  reflexivity.
Qed.

(** X3: the handler of [queryState] decodes a reply exactly when it has at
    least 14 bytes: a shorter one throws "Only got short reply", a longer
    one never reads out of bounds and yields the device type from byte 1,
    the power flag from byte 2, mode and pattern from bytes 3-4, the speed
    from byte 5 (converted from a delay unless the mode is ['ia_pattern']),
    the color from bytes 6-8 and the white levels from bytes 9 and 11. *)
Theorem queryState_then_decodes (patterns : list (string * Z))
  (data : Buffer) (s : State) :
  queryState_then patterns data s =
  if (List.length data <? 14)%nat then Throw (Error "Only got short reply")
  else Ok (decoded patterns data,
           afterQuery (byte data 1) (byte data 6) (byte data 7)
             (byte data 8) (byte data 9) (byte data 11) s).
Proof.
  destruct (Nat.ltb_spec (List.length data) 14) as [H|H].
  - unfold queryState_then.
    replace (Z.of_nat (List.length data) <? 14) with true
      by (symmetry; apply Z.ltb_lt; lia).
    reflexivity.
  - apply queryState_then_long. exact H.
Qed.

Lemma queryState_then_ok (patterns : list (string * Z)) (data : Buffer)
  (s s' : State) (st : StateType.t) :
  queryState_then patterns data s = Ok (st, s') ->
  (14 <= List.length data)%nat /\
  st = decoded patterns data /\
  s' = afterQuery (byte data 1) (byte data 6) (byte data 7) (byte data 8)
         (byte data 9) (byte data 11) s.
Proof.
  destruct (Nat.lt_ge_cases (List.length data) 14) as [H|H].
  - unfold queryState_then.
    replace (Z.of_nat (List.length data) <? 14) with true
      by (symmetry; apply Z.ltb_lt; lia).
    discriminate.
  - rewrite (queryState_then_long patterns data s H). intros E.
    apply ok_eq in E. injection E as <- <-. auto.
Qed.

Lemma afterQuery_fields (type r g b ww cw : Z) (s : State) :
  let s' := afterQuery type r g b ww cw s in
  lastColor s' = {| red := r; green := g; blue := b |} /\
  lastWW s' = ww /\ lastCW s' = cw /\
  commandQueue s' = commandQueue s /\ socket s' = socket s /\
  settled s' = settled s /\ receivedData s' = receivedData s /\
  timers s' = timers s /\
  ack (options s') = ack (options s) /\
  commandTimeoutLength (options s') = commandTimeoutLength (options s) /\
  connectTimeoutLength (options s') = connectTimeoutLength (options s) /\
  applyMasks (options s') =
    applyMasks (options s) ||
    ((type =? 0x25) || (type =? 0x35) || (type =? 0x44)) /\
  coldWhiteSupport (options s') =
    coldWhiteSupport (options s) || (type =? 0x35).
Proof.
  cbv zeta. unfold afterQuery.
  destruct (Z.eqb_spec type 0x25) as [E1|E1];
    [subst type; simpl; repeat split;
     destruct (applyMasks (options s)), (coldWhiteSupport (options s));
     reflexivity|].
  destruct (Z.eqb_spec type 0x35) as [E2|E2];
    [subst type; simpl; repeat split;
     destruct (applyMasks (options s)), (coldWhiteSupport (options s));
     reflexivity|].
  destruct (Z.eqb_spec type 0x44) as [E3|E3];
    [subst type; simpl; repeat split;
     destruct (applyMasks (options s)), (coldWhiteSupport (options s));
     reflexivity|].
  simpl. repeat split;
    destruct (applyMasks (options s)), (coldWhiteSupport (options s));
    reflexivity.
Qed.

(** X4: what a decoded query changes on the instance.  The color and white
    levels of the reply are stored; mask application is turned on by the
    device types 0x25, 0x35 and 0x44 and cold-white support by 0x35, and
    neither is ever turned off; the acknowledgement flags, the timeouts,
    the queue, the socket and the settlements are left alone. *)
Theorem queryState_then_effects (patterns : list (string * Z))
  (data : Buffer) (s s' : State) (st : StateType.t) :
  queryState_then patterns data s = Ok (st, s') ->
  lastColor s' = StateType.color st /\
  lastWW s' = StateType.warm_white st /\
  lastCW s' = StateType.cold_white st /\
  applyMasks (options s') =
    applyMasks (options s) ||
    ((StateType.type st =? 0x25) || (StateType.type st =? 0x35) ||
     (StateType.type st =? 0x44)) /\
  coldWhiteSupport (options s') =
    coldWhiteSupport (options s) || (StateType.type st =? 0x35) /\
  (applyMasks (options s) = true -> applyMasks (options s') = true) /\
  (coldWhiteSupport (options s) = true ->
   coldWhiteSupport (options s') = true) /\
  ack (options s') = ack (options s) /\
  commandTimeoutLength (options s') = commandTimeoutLength (options s) /\
  connectTimeoutLength (options s') = connectTimeoutLength (options s) /\
  commandQueue s' = commandQueue s /\ socket s' = socket s /\
  settled s' = settled s.
Proof.
  intros H. apply queryState_then_ok in H. destruct H as (_ & -> & ->).
  destruct (afterQuery_fields (byte data 1) (byte data 6) (byte data 7)
              (byte data 8) (byte data 9) (byte data 11) s)
    as (A1 & A2 & A3 & A4 & A5 & A6 & A7 & A8 & A9 & A10 & A11 & A12 & A13).
  cbn [decoded StateType.color StateType.warm_white StateType.cold_white
       StateType.type].
  repeat split; try assumption.
  - intros Hm. rewrite A12, Hm. reflexivity.
  - intros Hc. rewrite A13, Hc. reflexivity.
Qed.

(** A reply of a controller of type 0x35. *)
Lemma queryState_then_effects_witness :
  exists st s',
    queryState_then oneName
      [0x81; 0x35; 0x23; 0x61; 0x21; 0x10; 0xff; 0x80; 0x00; 0x07; 0x04;
       0x09; 0x0f; 0x30] (init defaultOptions) = Ok (st, s') /\
    applyMasks (options s') = true /\ coldWhiteSupport (options s') = true /\
    lastColor s' = {| red := 0xff; green := 0x80; blue := 0 |} /\
    lastWW s' = 7 /\ lastCW s' = 9.
Proof.
  eexists. eexists. split; [vm_compute; reflexivity|].
  match goal with
  | |- applyMasks (options ?s1) = _ /\ _ =>
      destruct (queryState_then_effects oneName
        [0x81; 0x35; 0x23; 0x61; 0x21; 0x10; 0xff; 0x80; 0x00; 0x07; 0x04;
         0x09; 0x0f; 0x30] (init defaultOptions) s1
        (decoded oneName
           [0x81; 0x35; 0x23; 0x61; 0x21; 0x10; 0xff; 0x80; 0x00; 0x07;
            0x04; 0x09; 0x0f; 0x30]))
        as (A1 & A2 & A3 & A4 & A5 & _)
  end.
  - vm_compute. reflexivity.
  - rewrite A1, A2, A3, A4, A5. repeat split.
Defined.

(** ** Pattern commands and their echo in a reply *)

Lemma iaPatternFrame_bytes (code : Z) (speed : float) :
  1 <= code <= 300 ->
  iaPatternFrame code speed =
  [0x61; (code + 99) / 256; (code + 99) mod 256; toUint8 speed; 0x0f].
Proof.
  intros H. unfold iaPatternFrame, Buf.from. cbn [app map Buf.toByte].
  rewrite Z.shiftr_div_pow2 by lia.
  change 0xff with (Z.ones 8). rewrite Z.land_ones by lia.
  change (2 ^ 8) with 256. rewrite Z.mod_mod by lia.
  rewrite (Z.mod_small ((code + 99) / 256) 256); [reflexivity|].
  split; [apply Z.div_pos; lia | apply Z.div_lt_upper_bound; lia].
Qed.

Lemma toUint8_ofZ_check :
  forallb (fun n => toUint8 (ofZ n) =? n) (upTo 256) = true.
Proof. vm_compute. reflexivity. Qed.

Lemma toUint8_ofZ (n : Z) : 0 <= n <= 255 -> toUint8 (ofZ n) = n.
Proof.
  intros H. apply Z.eqb_eq.
  apply (proj1 (forallb_forall _ _) toUint8_ofZ_check).
  apply upTo_In. simpl. lia.
Qed.

(** X5: an extended pattern survives the wire.  If a reply of at least 14
    bytes carries at offsets 3, 4 and 5 the code and speed bytes that
    [setIAPattern(code, speed)] sends at offsets 1, 2 and 3, the query
    decodes mode ['ia_pattern'], the pattern [code] and, as speed, the
    speed byte unconverted; for an integer speed [n] in [0, 255] that byte
    is [n]. *)
Theorem iaPattern_round_trip (patterns : list (string * Z)) (code n : Z)
  (speed : float) (data : Buffer) (s : State) :
  1 <= code <= 300 ->
  0 <= n <= 255 ->
  (14 <= List.length data)%nat ->
  nth_error data 3 = nth_error (iaPatternFrame code speed) 1 ->
  nth_error data 4 = nth_error (iaPatternFrame code speed) 2 ->
  nth_error data 5 = nth_error (iaPatternFrame code speed) 3 ->
  (exists st s',
     queryState_then patterns data s = Ok (st, s') /\
     StateType.mode st = Some mode_ia_pattern /\
     StateType.pattern st = Some (PCode code) /\
     StateType.speed st = ofZ (toUint8 speed)) /\
  nth_error (iaPatternFrame code (ofZ n)) 3 = Some n.
Proof.
  intros Hc Hn Hlen H3 H4 H5.
  rewrite (iaPatternFrame_bytes code speed Hc) in H3, H4, H5.
  rewrite (byte_at data 3) in H3 by lia.
  rewrite (byte_at data 4) in H4 by lia.
  rewrite (byte_at data 5) in H5 by lia.
  cbn [nth_error] in H3, H4, H5.
  assert (B3 : byte data 3 = (code + 99) / 256) by congruence.
  assert (B4 : byte data 4 = (code + 99) mod 256) by congruence.
  assert (B5 : byte data 5 = toUint8 speed) by congruence.
  assert (V : byte data 3 * 256 + byte data 4 = code + 99).
  { rewrite B3, B4. rewrite (Z.div_mod (code + 99) 256) at 3 by lia. lia. }
  assert (D : 0 <= byte data 3 <= 1).
  { rewrite B3. split; [apply Z.div_pos; lia|].
    apply Z.lt_succ_r. apply Z.div_lt_upper_bound; lia. }
  assert (M : modeOf (byte data 3) (byte data 4) = Some mode_ia_pattern).
  { unfold modeOf. rewrite V.
    replace (byte data 3 =? 0x61) with false
      by (symmetry; apply Z.eqb_neq; lia).
    replace (byte data 3 =? 0x62) with false
      by (symmetry; apply Z.eqb_neq; lia).
    replace (byte data 3 =? 0x60) with false
      by (symmetry; apply Z.eqb_neq; lia).
    replace (0x25 <=? byte data 3) with false
      by (symmetry; apply Z.leb_gt; lia).
    replace (0x64 <=? code + 99) with true
      by (symmetry; apply Z.leb_le; lia).
    replace (code + 99 <=? 0x018f) with true
      by (symmetry; apply Z.leb_le; lia).
    cbn [orb andb].
    destruct (Z.eqb_spec (byte data 3) 0) as [E0|E0]; [|reflexivity].
    replace (byte data 4 =? 0x61) with false; [reflexivity|].
    symmetry. apply Z.eqb_neq. lia. }
  assert (P : patternOf patterns (byte data 3) (byte data 4)
              = Some (PCode code)).
  { unfold patternOf, iaOf. rewrite V.
    replace (0x25 <=? byte data 3) with false
      by (symmetry; apply Z.leb_gt; lia).
    replace (0x64 <=? code + 99) with true
      by (symmetry; apply Z.leb_le; lia).
    replace (code + 99 <=? 0x018f) with true
      by (symmetry; apply Z.leb_le; lia).
    cbn [andb]. do 2 f_equal. lia. }
  split.
  - exists (decoded patterns data). eexists.
    split; [apply queryState_then_long; exact Hlen|].
    unfold decoded. cbn [StateType.mode StateType.pattern StateType.speed].
    rewrite M, P, B5. repeat split.
  - rewrite (iaPatternFrame_bytes code (ofZ n) Hc). cbn [nth_error].
    rewrite (toUint8_ofZ n Hn). reflexivity.
Qed.

Lemma iaPattern_round_trip_witness :
  exists st s',
    queryState_then oneName
      [0x81; 0x25; 0x23; 0x00; 0x6e; 0x40; 0; 0; 0; 0; 0x04; 0; 0x0f; 0x30]
      (init defaultOptions) = Ok (st, s') /\
    StateType.pattern st = Some (PCode 11).
Proof.
  destruct (iaPattern_round_trip oneName 11 0x40 (ofZ 0x40)
    [0x81; 0x25; 0x23; 0x00; 0x6e; 0x40; 0; 0; 0; 0; 0x04; 0; 0x0f; 0x30]
    (init defaultOptions)) as [(st & s' & H1 & _ & H3 & _) _];
    try reflexivity; try (simpl; lia).
  exists st, s'. split; assumption.
Defined.

Lemma find_by_name (l : list (string * Z)) (name : string) (code : Z) :
  NoDup (map fst l) -> In (name, code) l ->
  find (fun e => String.eqb (fst e) name) l = Some (name, code).
Proof.
  induction l as [|[n c] l IH]; intros Hnd Hin; simpl in *; [contradiction|].
  inversion Hnd as [|? ? Hn Hnd']; subst.
  destruct Hin as [E|Hin].
  - inversion E; subst. rewrite String.eqb_refl. reflexivity.
  - destruct (String.eqb_spec n name) as [->|Hne]; [|auto].
    exfalso. apply Hn. apply in_map_iff. exists (name, code). auto.
Qed.

Lemma find_by_code (l : list (string * Z)) (name : string) (code : Z) :
  NoDup (map snd l) -> In (name, code) l ->
  find (fun e => snd e =? code) l = Some (name, code).
Proof.
  induction l as [|[n c] l IH]; intros Hnd Hin; simpl in *; [contradiction|].
  inversion Hnd as [|? ? Hn Hnd']; subst.
  destruct Hin as [E|Hin].
  - inversion E; subst. rewrite Z.eqb_refl. reflexivity.
  - destruct (Z.eqb_spec c code) as [->|Hne]; [|auto].
    exfalso. apply Hn. apply in_map_iff. exists (name, code). auto.
Qed.

(** X6: a named pattern survives the wire, for a table without repeated
    names or codes.  [setPattern(name, speed)] submits 0x61, the code of
    the name, the delay byte of the speed and 0x0f; a reply whose byte 3 is
    that code (in [0x25, 0x38]) is decoded with mode ['pattern'] and the
    same name. *)
Theorem pattern_round_trip (patterns : list (string * Z)) (name : string)
  (code : Z) (speed : float) (data : Buffer) (s : State) :
  NoDup (map fst patterns) -> NoDup (map snd patterns) ->
  In (name, code) patterns ->
  0x25 <= code <= 0x38 ->
  (14 <= List.length data)%nat ->
  nth_error data 3 = Some code ->
  setPattern patterns name speed s =
    (snd (submit [0x61; code; toUint8 (speedToDelay speed); 0x0f]
            (ackOf AckPattern s) s),
     Pending (promises s) (ThenAck AckPattern)) /\
  exists st s',
    queryState_then patterns data s = Ok (st, s') /\
    StateType.mode st = Some mode_pattern /\
    StateType.pattern st = Some (PName name).
Proof.
  intros Hn Hc Hin Hr Hlen H3. split.
  - unfold setPattern, patternCode. rewrite (find_by_name _ _ _ Hn Hin).
    cbn [snd memberNum]. unfold Buf.from. cbn [map Buf.toByte].
    rewrite (Z.mod_small code 256) by lia. reflexivity.
  - assert (B3 : byte data 3 = code).
    { rewrite (byte_at data 3) in H3 by lia. congruence. }
    exists (decoded patterns data). eexists.
    split; [apply queryState_then_long; exact Hlen|].
    unfold decoded. cbn [StateType.mode StateType.pattern].
    unfold modeOf, patternOf. rewrite B3.
    replace (code =? 0x61) with false by (symmetry; apply Z.eqb_neq; lia).
    replace (code =? 0) with false by (symmetry; apply Z.eqb_neq; lia).
    replace (code =? 0x62) with false by (symmetry; apply Z.eqb_neq; lia).
    replace (code =? 0x60) with false by (symmetry; apply Z.eqb_neq; lia).
    replace (0x25 <=? code) with true by (symmetry; apply Z.leb_le; lia).
    replace (code <=? 0x38) with true by (symmetry; apply Z.leb_le; lia).
    cbn [orb andb]. rewrite (find_by_code _ _ _ Hc Hin). split; reflexivity.
Qed.

Lemma pattern_round_trip_witness :
  exists st s',
    queryState_then oneName
      [0x81; 0x25; 0x23; 0x25; 0x21; 0x10; 0; 0; 0; 0; 0x04; 0; 0x0f; 0x30]
      (init defaultOptions) = Ok (st, s') /\
    StateType.pattern st = Some (PName "seven_color_cross_fade").
Proof.
  destruct (pattern_round_trip oneName "seven_color_cross_fade" 0x25 50
    [0x81; 0x25; 0x23; 0x25; 0x21; 0x10; 0; 0; 0; 0; 0x04; 0; 0x0f; 0x30]
    (init defaultOptions)) as (_ & st & s' & H1 & _ & H3);
    try reflexivity; try (simpl; lia); try (simpl; tauto);
    try (repeat constructor; simpl; tauto).
  exists st, s'. split; assumption.
Defined.

Lemma delay_byte_check :
  forallb (fun n => toUint8 (speedToDelay (ofZ n)) =? (310 - 3 * n) / 10)
    (upTo 101) = true.
Proof. vm_compute. reflexivity. Qed.

Lemma reported_speed_check :
  forallb (fun n => within (reportedSpeed (toUint8 (speedToDelay (ofZ n))))
                      n (10 # 3)) (upTo 101) = true.
Proof. vm_compute. reflexivity. Qed.

(** X7: the delay byte.  For an integer speed [n] in [0, 100] the byte that
    [setPattern] and [setCustomPattern] send for it is the integer part of
    [31 - 3 n / 10], between 1 and 31, and the speed a query reports for
    that byte is at least [n] and at most [n + 10/3]; a speed below 0 is
    sent as 31 and one above 100 as 1. *)
Theorem delay_byte (n : Z) (x : float) :
  0 <= n <= 100 ->
  toUint8 (speedToDelay (ofZ n)) = (310 - 3 * n) / 10 /\
  1 <= toUint8 (speedToDelay (ofZ n)) <= 31 /\
  within (reportedSpeed (toUint8 (speedToDelay (ofZ n)))) n (10 # 3) = true /\
  (PrimFloat.ltb x 0 = true -> toUint8 (speedToDelay x) = 31) /\
  (PrimFloat.ltb 100 x = true -> toUint8 (speedToDelay x) = 1).
Proof.
  intros H.
  assert (E : toUint8 (speedToDelay (ofZ n)) = (310 - 3 * n) / 10).
  { apply Z.eqb_eq. apply (proj1 (forallb_forall _ _) delay_byte_check).
    apply upTo_In. simpl. lia. }
  split; [exact E|]. split.
  { rewrite E. split.
    - apply Z.div_le_lower_bound; lia.
    - apply Z.div_le_upper_bound; lia. }
  split.
  { apply (proj1 (forallb_forall _ _) reported_speed_check).
    apply upTo_In. simpl. lia. }
  split.
  - intros Hx. unfold speedToDelay. rewrite (clamp_below _ _ _ Hx).
    reflexivity.
  - intros Hx. unfold speedToDelay. rewrite (clamp_above x 0 100).
    + reflexivity.
    + eapply (ltb_above_zero 100); [reflexivity | exact Hx].
    + exact Hx.
Qed.

Lemma delay_byte_witness :
  toUint8 (speedToDelay (ofZ 50)) = 16 /\ toUint8 (speedToDelay 250) = 1.
Proof.
  destruct (delay_byte 50 250) as (H1 & _ & _ & _ & H5); [lia|].
  split; [rewrite H1; reflexivity | apply H5; reflexivity].
Defined.

(** X8: [setPattern] with a name that the table does not have.  Unless
    the name is one that every object inherits ([constructor], [toString]
    and the like), the call returns a promise rejected with "Invalid
    pattern" and leaves the instance as it was: nothing is queued and no
    socket is opened.  For an inherited name the lookup finds a function,
    the call is not rejected, and a frame with pattern byte 0 is
    submitted. *)
Theorem setPattern_unknown_name (patterns : list (string * Z))
  (name : string) (speed : float) (s : State) :
  (forall code, ~ In (name, code) patterns) ->
  (~ In name objectPrototype ->
   setPattern patterns name speed s =
   (s, RejectedNow (Error "Invalid pattern"))) /\
  (In name objectPrototype ->
   setPattern patterns name speed s =
   (snd (submit [0x61; 0; toUint8 (speedToDelay speed); 0x0f]
           (ackOf AckPattern s) s),
    Pending (promises s) (ThenAck AckPattern))).
Proof.
  intros H.
  assert (F : find (fun e => String.eqb (fst e) name) patterns = None).
  { destruct (find (fun e => String.eqb (fst e) name) patterns)
      as [[n c]|] eqn:F; [|reflexivity].
    exfalso. apply find_some in F. destruct F as [F1 F2]. simpl in F2.
    apply String.eqb_eq in F2. subst n. exact (H c F1). }
  unfold setPattern, patternCode. rewrite F. split; intros Hp.
  - replace (existsb (String.eqb name) objectPrototype) with false;
      [reflexivity|].
    symmetry. apply Bool.not_true_iff_false. intros E. apply Hp.
    apply existsb_exists in E. destruct E as [x [Hx E]].
    apply String.eqb_eq in E. subst x. exact Hx.
  - replace (existsb (String.eqb name) objectPrototype) with true;
      [reflexivity|].
    symmetry. apply existsb_exists. exists name.
    split; [exact Hp | apply String.eqb_refl].
Qed.

Lemma setPattern_unknown_name_witness :
  setPattern oneName "rainbow" 50 (init defaultOptions) =
    (init defaultOptions, RejectedNow (Error "Invalid pattern")) /\
  map command
    (commandQueue (fst (setPattern oneName "constructor" 50
                          (init defaultOptions)))) = [[97; 0; 16; 15; 128]].
Proof.
  destruct (setPattern_unknown_name oneName "rainbow" 50
              (init defaultOptions)) as [H1 _].
  { intros code [E|[]]. discriminate. }
  destruct (setPattern_unknown_name oneName "constructor" 50
              (init defaultOptions)) as [_ H2].
  { intros code [E|[]]. discriminate. }
  split.
  - apply H1. unfold objectPrototype. simpl.
    intros Hin. repeat destruct Hin as [Hin|Hin]; try discriminate.
    exact Hin.
  - rewrite H2; [reflexivity|]. simpl. auto.
Defined.

(** ** The color methods *)

Lemma clampInt_range (v : Z) : 0 <= clampInt v 0 255 <= 255.
Proof. unfold clampInt. lia. Qed.

Lemma clampInt_id (v : Z) : 0 <= v <= 255 -> clampInt v 0 255 = v.
Proof. unfold clampInt. lia. Qed.

Lemma clampInt_byte (v : Z) : clampInt v 0 255 mod 256 = clampInt v 0 255.
Proof. apply Z.mod_small. pose proof (clampInt_range v). lia. Qed.

Lemma submit_keeps_memory buf er s :
  let s' := snd (submit buf er s) in
  lastColor s' = lastColor s /\ lastWW s' = lastWW s /\
  lastCW s' = lastCW s /\ options s' = options s.
Proof.
  cbv zeta. unfold submit, newPromise, sendCommand. simpl.
  destruct (commandQueue s); destruct (socket s); simpl;
    try destruct (truthy _); simpl; auto.
Qed.

Lemma sendColorChangeCommand_eq (red green blue ww cw mask : Z) (s : State) :
  let cold := coldWhiteSupport (options s) in
  let cw' := if cold then clampInt cw 0 255 else cw in
  sendColorChangeCommand red green blue ww cw mask s =
  (snd (submit
          (colorFrame cold (clampInt red 0 255) (clampInt green 0 255)
             (clampInt blue 0 255) (clampInt ww 0 255) cw' (mask mod 256))
          (color (ack (options s))) s),
   Pending (promises s) (ThenAck AckColor),
   {| sent_red := clampInt red 0 255; sent_green := clampInt green 0 255;
      sent_blue := clampInt blue 0 255; sent_ww := clampInt ww 0 255;
      sent_cw := cw' |}).
Proof.
  cbv zeta. unfold sendColorChangeCommand, colorFrame, Buf.from.
  destruct (coldWhiteSupport (options s)); cbn [map Buf.toByte];
    rewrite !clampInt_byte; reflexivity.
Qed.


Lemma masked_color_frame (red green blue : Z) (s : State) :
  applyMasks (options s) = true ->
  setColor red green blue s =
  (snd (submit (colorFrame (coldWhiteSupport (options s))
                  (clampInt red 0 255) (clampInt green 0 255)
                  (clampInt blue 0 255) 0 0 0xf0)
          (color (ack (options s))) s),
   Pending (promises s) (ThenAck AckColor),
   {| sent_red := clampInt red 0 255; sent_green := clampInt green 0 255;
      sent_blue := clampInt blue 0 255; sent_ww := 0; sent_cw := 0 |}).
Proof.
  intros Hm. unfold setColor. rewrite Hm, sendColorChangeCommand_eq.
  cbv zeta. destruct (coldWhiteSupport (options s)); reflexivity.
Qed.

Lemma unmasked_color_frame (red green blue : Z) (s : State) :
  applyMasks (options s) = false ->
  0 <= lastWW s <= 255 ->
  (coldWhiteSupport (options s) = true -> 0 <= lastCW s <= 255) ->
  setColor red green blue s =
  (snd (submit (colorFrame (coldWhiteSupport (options s))
                  (clampInt red 0 255) (clampInt green 0 255)
                  (clampInt blue 0 255) (lastWW s) (lastCW s) 0)
          (color (ack (options s))) s),
   Pending (promises s) (ThenAck AckColor),
   {| sent_red := clampInt red 0 255; sent_green := clampInt green 0 255;
      sent_blue := clampInt blue 0 255; sent_ww := lastWW s;
      sent_cw := lastCW s |}).
Proof.
  intros Hm Hw Hc. unfold setColor, setColorAndWhites.
  rewrite Hm, sendColorChangeCommand_eq. cbv zeta.
  rewrite (clampInt_id _ Hw).
  assert (C : (if coldWhiteSupport (options s)
               then clampInt (lastCW s) 0 255 else lastCW s) = lastCW s).
  { destruct (coldWhiteSupport (options s)); [|reflexivity].
    apply clampInt_id. auto. }
  rewrite C. reflexivity.
Qed.

(** X10: with [applyMasks], [setColor] sends the color with both whites 0
    and mask 0xf0, and a successful reply makes the instance remember
    whites 0; a [setWarmWhite] that follows then sends cold white 0, with
    the color 0 and mask 0x0f, whatever cold white was remembered before
    the [setColor]. *)
Theorem masked_setColor_forgets_whites (red green blue ww : Z) (s : State) :
  applyMasks (options s) = true ->
  let cold := coldWhiteSupport (options s) in
  let r := setColor red green blue s in
  let s1 := fst (fst r) in
  let s2 := colorChanged (snd r) true s1 in
  s1 = snd (submit (colorFrame cold (clampInt red 0 255)
                      (clampInt green 0 255) (clampInt blue 0 255)
                      0 0 0xf0)
              (color (ack (options s))) s) /\
  lastWW s2 = 0 /\ lastCW s2 = 0 /\
  lastColor s2 = {| red := clampInt red 0 255; green := clampInt green 0 255;
                    blue := clampInt blue 0 255 |} /\
  fst (fst (setWarmWhite ww s2)) =
    snd (submit (colorFrame cold 0 0 0 (clampInt ww 0 255) 0 0x0f)
           (color (ack (options s))) s2).
Proof.
  intros Hm. cbv zeta. rewrite (masked_color_frame _ _ _ _ Hm).
  cbn [fst snd].
  set (f := colorFrame _ _ _ _ _ _ _).
  destruct (submit_keeps_memory f (color (ack (options s))) s)
    as (M1 & M2 & M3 & M4).
  split; [reflexivity|].
  unfold colorChanged. cbn [sent_red sent_green sent_blue sent_ww sent_cw].
  split; [reflexivity|]. split; [reflexivity|]. split; [reflexivity|].
  unfold setWarmWhite. cbn [options set_lastCW set_lastWW set_lastColor].
  rewrite M4, Hm. rewrite sendColorChangeCommand_eq.
  cbn [fst snd options lastCW set_lastCW set_lastWW set_lastColor].
  rewrite M4. do 2 f_equal.
  destruct (coldWhiteSupport (options s)); reflexivity.
Qed.

Lemma masked_setColor_forgets_whites_witness :
  lastCW (colorChanged
            (snd (setColor 255 0 0
                    (set_lastCW 200 (init (enable true true defaultOptions)))))
            true
            (fst (fst (setColor 255 0 0
                    (set_lastCW 200
                       (init (enable true true defaultOptions))))))) = 0.
Proof.
  destruct (masked_setColor_forgets_whites 255 0 0 10
    (set_lastCW 200 (init (enable true true defaultOptions))))
    as (_ & _ & H & _); [reflexivity|]. exact H.
Defined.

(** X11: without [applyMasks], [setColor] sends the color together with
    the remembered whites and mask 0, and a successful reply leaves the
    remembered whites as they were (levels in [0, 255]); without
    [coldWhiteSupport] the cold white is not sent and is remembered
    unchanged whatever its value. *)
Theorem unmasked_setColor_keeps_whites (red green blue : Z) (s : State) :
  applyMasks (options s) = false ->
  0 <= lastWW s <= 255 ->
  (coldWhiteSupport (options s) = true -> 0 <= lastCW s <= 255) ->
  let cold := coldWhiteSupport (options s) in
  let r := setColor red green blue s in
  let s1 := fst (fst r) in
  let s2 := colorChanged (snd r) true s1 in
  s1 = snd (submit (colorFrame cold (clampInt red 0 255)
                      (clampInt green 0 255) (clampInt blue 0 255)
                      (lastWW s) (lastCW s) 0)
              (color (ack (options s))) s) /\
  lastWW s2 = lastWW s /\ lastCW s2 = lastCW s /\
  lastColor s2 = {| red := clampInt red 0 255; green := clampInt green 0 255;
                    blue := clampInt blue 0 255 |}.
Proof.
  intros Hm Hw Hc. cbv zeta.
  rewrite (unmasked_color_frame _ _ _ _ Hm Hw Hc). cbn [fst snd].
  split; [reflexivity|]. unfold colorChanged.
  cbn [sent_red sent_green sent_blue sent_ww sent_cw]. repeat split.
Qed.

Lemma unmasked_setColor_keeps_whites_witness :
  lastWW (colorChanged
            (snd (setColor 300 0 0 (set_lastWW 77 (init defaultOptions))))
            true
            (fst (fst (setColor 300 0 0
                         (set_lastWW 77 (init defaultOptions)))))) = 77.
Proof.
  destruct (unmasked_setColor_keeps_whites 300 0 0
    (set_lastWW 77 (init defaultOptions))) as (_ & H & _);
    first [exact H | reflexivity | (simpl; lia) | discriminate].
Defined.

Lemma bytes_at (data : Buffer) (i : nat) :
  bytes data -> (i < List.length data)%nat -> 0 <= byte data i <= 255.
Proof.
  intros Hb Hi. unfold bytes in Hb. rewrite Forall_forall in Hb.
  assert (H : 0 <= byte data i < 256)
    by (apply Hb; unfold byte; apply nth_In; exact Hi).
  lia.
Qed.

Lemma afterQuery_options (type r g b ww cw : Z) (s : State) :
  options (afterQuery type r g b ww cw s) =
  (if maskedType type
   then enable true (type =? 0x35) (options s) else options s).
Proof.
  unfold afterQuery, maskedType.
  destruct (Z.eqb_spec type 0x25) as [->|H1]; [reflexivity|].
  destruct (Z.eqb_spec type 0x35) as [->|H2]; [reflexivity|].
  destruct (Z.eqb_spec type 0x44) as [->|H3]; reflexivity.
Qed.

(** X12: a query seeds the color methods.  After the handler of
    [queryState] has read a reply of at least 14 bytes, [setColor] on an
    instance without masks, and of a device type that does not turn them
    on, sends the new color with the warm white of byte 9 and, with
    [coldWhiteSupport], the cold white of byte 11; for the device types
    0x25, 0x35 and 0x44 it sends whites 0 and mask 0xf0 instead. *)
Theorem query_seeds_setColor (patterns : list (string * Z)) (data : Buffer)
  (s : State) (red green blue : Z) :
  bytes data -> (14 <= List.length data)%nat ->
  applyMasks (options s) = false ->
  exists st s1,
    queryState_then patterns data s = Ok (st, s1) /\
    let cold := coldWhiteSupport (options s1) in
    fst (fst (setColor red green blue s1)) =
    snd (submit
           (if maskedType (byte data 1)
            then colorFrame cold (clampInt red 0 255) (clampInt green 0 255)
                   (clampInt blue 0 255) 0 0 0xf0
            else colorFrame cold (clampInt red 0 255) (clampInt green 0 255)
                   (clampInt blue 0 255) (byte data 9) (byte data 11) 0)
           (color (ack (options s))) s1).
Proof.
  intros Hb Hlen Hm. eexists. eexists.
  split; [apply queryState_then_long; exact Hlen|].
  set (s1 := afterQuery _ _ _ _ _ _ s).
  assert (Ho : options s1 = if maskedType (byte data 1)
                            then enable true (byte data 1 =? 0x35) (options s)
                            else options s)
    by apply afterQuery_options.
  assert (Hl : lastWW s1 = byte data 9 /\ lastCW s1 = byte data 11).
  { subst s1. unfold afterQuery.
    destruct (_ =? 0x25); [split; reflexivity|].
    destruct (_ =? 0x35); [split; reflexivity|].
    destruct (_ =? 0x44); split; reflexivity. }
  destruct Hl as [Hw Hc]. cbv zeta.
  assert (Ha : color (ack (options s1)) = color (ack (options s)))
    by (rewrite Ho; destruct (maskedType _); reflexivity).
  destruct (maskedType (byte data 1)) eqn:Mt.
  - rewrite masked_color_frame by (rewrite Ho; reflexivity).
    cbn [fst snd]. rewrite Ha. reflexivity.
  - rewrite unmasked_color_frame.
    + cbn [fst snd]. rewrite Ha, Hw, Hc. reflexivity.
    + rewrite Ho. exact Hm.
    + rewrite Hw. apply bytes_at; [exact Hb | lia].
    + intros _. rewrite Hc. apply bytes_at; [exact Hb | lia].
Qed.

Lemma query_seeds_setColor_witness :
  exists st s1,
    queryState_then oneName reply (init defaultOptions) = Ok (st, s1) /\
    fst (fst (setColor 1 2 3 s1)) =
    snd (submit [0x31; 1; 2; 3; 0; 0xf0; 0x0f] true s1).
Proof.
  destruct (query_seeds_setColor oneName reply (init defaultOptions) 1 2 3)
    as (st & s1 & H1 & H2).
  - repeat constructor; simpl; lia.
  - simpl. lia.
  - reflexivity.
  - exists st, s1. split; [exact H1|].
    assert (E : s1 = afterQuery 0x25 0xff 0 0 0 0 (init defaultOptions)).
    { rewrite (queryState_then_long oneName reply (init defaultOptions))
        in H1 by (simpl; lia).
      apply ok_eq in H1. inversion H1. reflexivity. }
    cbv zeta in H2. rewrite H2, E. reflexivity.
Defined.


(** X13: without [applyMasks], [setWhites] sends the remembered color
    (levels in [0, 255]) with the new whites and mask 0, and a successful
    reply leaves the remembered color as it was; [setWarmWhite] is
    [setWhites] with the remembered cold white, with or without masks. *)
Theorem unmasked_whites_keep_color (ww cw : Z) (s : State) :
  applyMasks (options s) = false ->
  0 <= red (lastColor s) <= 255 -> 0 <= green (lastColor s) <= 255 ->
  0 <= blue (lastColor s) <= 255 ->
  let cold := coldWhiteSupport (options s) in
  let cw' := if cold then clampInt cw 0 255 else cw in
  let r := setWhites ww cw s in
  let s1 := fst (fst r) in
  let s2 := colorChanged (snd r) true s1 in
  s1 = snd (submit (colorFrame cold (red (lastColor s)) (green (lastColor s))
                      (blue (lastColor s)) (clampInt ww 0 255) cw' 0)
              (color (ack (options s))) s) /\
  lastColor s2 = lastColor s /\
  lastWW s2 = clampInt ww 0 255 /\ lastCW s2 = cw' /\
  (forall s0 : State, setWarmWhite ww s0 = setWhites ww (lastCW s0) s0).
Proof.
  intros Hm Hr Hg Hb. cbv zeta. unfold setWhites, setColorAndWhites.
  rewrite Hm, sendColorChangeCommand_eq. cbv zeta. cbn [fst snd].
  rewrite (clampInt_id _ Hr), (clampInt_id _ Hg), (clampInt_id _ Hb).
  change (0 mod 256) with 0. split; [reflexivity|].
  unfold colorChanged. cbn [sent_red sent_green sent_blue sent_ww sent_cw].
  split; [destruct (lastColor s); reflexivity|].
  split; [reflexivity|]. split; [reflexivity|].
  intros s0. unfold setWarmWhite, setWhites, setColorAndWarmWhite,
    setColorAndWhites. reflexivity.
Qed.

Lemma unmasked_whites_keep_color_witness :
  lastCW (colorChanged
            (snd (setWhites 300 999 (init defaultOptions))) true
            (fst (fst (setWhites 300 999 (init defaultOptions))))) = 999.
Proof.
  destruct (unmasked_whites_keep_color 300 999 (init defaultOptions))
    as (_ & _ & _ & H & _);
    first [exact H | reflexivity | (simpl; lia)].
Defined.

(** ** Power and brightness *)

(** X14: the power bit survives the wire.  [setPower(on)] submits 0x71,
    then 0x23 for on and 0x24 for off, then 0x0f, expecting a reply as
    [ack.power] says; [turnOn] and [turnOff] are [setPower] of true and
    false; and a reply of at least 14 bytes that carries that second byte
    at offset 2 is decoded with [on] as requested. *)
Theorem power_round_trip (patterns : list (string * Z)) (on : bool)
  (data : Buffer) (s : State) :
  let frame := [0x71; if on then 0x23 else 0x24; 0x0f] in
  (14 <= List.length data)%nat ->
  nth_error data 2 = nth_error frame 1 ->
  setPower on s = (snd (submit frame (power (ack (options s))) s),
                   Pending (promises s) (ThenAck AckPower)) /\
  (if on then turnOn s else turnOff s) = setPower on s /\
  exists st s',
    queryState_then patterns data s = Ok (st, s') /\ StateType.on st = on.
Proof.
  cbv zeta. intros Hlen H2.
  split; [destruct on; reflexivity|]. split; [destruct on; reflexivity|].
  exists (decoded patterns data). eexists.
  split; [apply queryState_then_long; exact Hlen|].
  rewrite (byte_at data 2) in H2 by lia. cbn [nth_error] in H2.
  unfold decoded. cbn [StateType.on].
  apply some_eq in H2. rewrite H2. destruct on; reflexivity.
Qed.

Lemma power_round_trip_witness :
  exists st s',
    queryState_then oneName reply (init defaultOptions) = Ok (st, s') /\
    StateType.on st = true.
Proof.
  destruct (power_round_trip oneName true reply (init defaultOptions))
    as (_ & _ & H); first [exact H | reflexivity | (simpl; lia)].
Defined.

Lemma positive_level_check :
  forallb (fun c => Bool.eqb (PrimFloat.ltb 0 (ofZ c)) (0 <? c)) (upTo 256)
  = true.
Proof. vm_compute. reflexivity. Qed.

Lemma positive_level (c : Z) :
  0 <= c <= 255 -> PrimFloat.ltb 0 (ofZ c) = (0 <? c).
Proof.
  intros H. apply Bool.eqb_prop.
  apply (proj1 (forallb_forall _ _) positive_level_check).
  apply upTo_In. simpl. lia.
Qed.

Lemma levels_In (c b : Z) :
  0 <= c <= 255 -> 0 <= b <= 100 -> In (c, b) levels.
Proof.
  intros Hc Hb. unfold levels. apply in_flat_map. exists c.
  split; [apply upTo_In; simpl; lia|].
  apply in_map. apply upTo_In. simpl. lia.
Qed.

Lemma channel_check :
  forallb (fun p =>
             let r := toUint8 (channel (fst p) (snd p)) in
             PrimFloat.Leibniz.eqb (channel (fst p) (snd p)) (ofZ r)
             && (0 <=? r) && (r <=? fst p)
             && (Z.abs (100 * r - fst p * snd p) <=? 50)) levels = true.
Proof. vm_compute. reflexivity. Qed.

Lemma channel_nearest (c b : Z) :
  0 <= c <= 255 -> 0 <= b <= 100 ->
  exists r, channel c b = ofZ r /\ nearest r c b.
Proof.
  intros Hc Hb.
  assert (H := proj1 (forallb_forall _ _) channel_check (c, b)
                 (levels_In c b Hc Hb)).
  cbv zeta in H. cbn [fst snd] in H.
  apply andb_prop in H. destruct H as [H H4].
  apply andb_prop in H. destruct H as [H H3].
  apply andb_prop in H. destruct H as [H1 H2].
  exists (toUint8 (channel c b)). split.
  - apply FloatAxioms.Leibniz.eqb_spec. exact H1.
  - unfold nearest. apply Z.leb_le in H2, H3, H4. lia.
Qed.

(** X15: [setColorWithBrightness] on a color that is not black.  For
    integer levels in [0, 255], one of them positive, and an integer
    brightness [b] in [0, 100], each level [c] handed to [setColor] is an
    integer between 0 and [c] that differs from [c * b / 100] by at most a
    half; so brightness 100 hands the color on as it is and brightness 0
    hands on black. *)
Theorem brightness_scaling (red green blue b : Z) :
  0 <= red <= 255 -> 0 <= green <= 255 -> 0 <= blue <= 255 ->
  0 <= b <= 100 -> 0 < red + green + blue ->
  exists r g bl,
    setColorWithBrightness_rgb (ofZ red) (ofZ green) (ofZ blue) (ofZ b) =
      (ofZ r, ofZ g, ofZ bl) /\
    nearest r red b /\ nearest g green b /\ nearest bl blue b /\
    (b = 100 -> r = red /\ g = green /\ bl = blue) /\
    (b = 0 -> r = 0 /\ g = 0 /\ bl = 0).
Proof.
  intros Hr Hg Hbl Hb Hpos.
  destruct (channel_nearest red b Hr Hb) as (r & Er & Nr).
  destruct (channel_nearest green b Hg Hb) as (g & Eg & Ng).
  destruct (channel_nearest blue b Hbl Hb) as (bl & Ebl & Nbl).
  exists r, g, bl. split.
  - unfold setColorWithBrightness_rgb.
    rewrite (positive_level red Hr), (positive_level green Hg),
      (positive_level blue Hbl).
    replace ((0 <? red) || (0 <? green) || (0 <? blue)) with true.
    + unfold channel in Er, Eg, Ebl. rewrite Er, Eg, Ebl. reflexivity.
    + symmetry. apply orb_true_iff.
      destruct (Z.ltb_spec 0 blue); [right; reflexivity|]. left.
      apply orb_true_iff.
      destruct (Z.ltb_spec 0 green); [right; reflexivity|]. left.
      apply Z.ltb_lt. lia.
  - unfold nearest in *. repeat split; try tauto; try lia.
Qed.

Lemma brightness_scaling_witness :
  exists r g bl,
    setColorWithBrightness_rgb 255 0 10 50 = (ofZ r, ofZ g, ofZ bl) /\
    nearest r 255 50.
Proof.
  destruct (brightness_scaling 255 0 10 50)
    as (r & g & bl & H1 & H2 & _); try lia.
  exists r, g, bl. split; [exact H1 | exact H2].
Defined.

Lemma gray_check :
  forallb (fun b => PrimFloat.ltb (gray b) 255
                    && (toUint8 (clamp (gray b) 0 255)
                        =? Z.min 254 (255 * b / 100))) (upTo 101) = true.
Proof. vm_compute. reflexivity. Qed.

(** X16: [setColorWithBrightness] on black, or on levels none of which is
    positive, hands [setColor] the same gray level three times, 255 / 100
    times the brightness and not rounded.  For an integer brightness [b]
    in [0, 100] that level is below 255, and the byte made of it is the
    integer part of [255 * b / 100] below brightness 100, and 254 at
    brightness 100. *)
Theorem brightness_gray (red green blue : float) (b : Z) :
  PrimFloat.ltb 0 red = false -> PrimFloat.ltb 0 green = false ->
  PrimFloat.ltb 0 blue = false -> 0 <= b <= 100 ->
  setColorWithBrightness_rgb red green blue (ofZ b) =
    (gray b, gray b, gray b) /\
  PrimFloat.ltb (gray b) 255 = true /\
  toUint8 (clamp (gray b) 0 255) = Z.min 254 (255 * b / 100).
Proof.
  intros Hr Hg Hbl Hb.
  assert (H := proj1 (forallb_forall _ _) gray_check b).
  cbv beta in H. apply andb_prop in H;
    [|apply upTo_In; simpl; lia].
  destruct H as [H1 H2]. apply Z.eqb_eq in H2.
  split; [|split; assumption].
  unfold setColorWithBrightness_rgb. rewrite Hr, Hg, Hbl. reflexivity.
Qed.

Lemma brightness_gray_witness :
  setColorWithBrightness_rgb 0 0 0 100 = (gray 100, gray 100, gray 100) /\
  toUint8 (clamp (gray 100) 0 255) = 254.
Proof.
  destruct (brightness_gray 0 0 0 100) as (H1 & _ & H3);
    try reflexivity; try lia.
  split; [exact H1 | exact H3].
Defined.

(** ** The slots of a custom pattern *)

Lemma map_flat_map_seq {A B} (f : A -> B) (g : nat -> list A) (l : list nat) :
  map f (flat_map g l) = flat_map (fun i => map f (g i)) l.
Proof.
  induction l as [|x l IH]; simpl; [reflexivity|].
  rewrite map_app, IH. reflexivity.
Qed.

Lemma slot_at {A} (g : nat -> list A) (rest : list A) (n : nat) :
  (forall k, List.length (g k) = 4%nat) ->
  forall start i, (i < n)%nat ->
  firstn 4 (skipn (4 * i) (flat_map g (seq start n) ++ rest))
  = g (start + i)%nat.
Proof.
  intros Hg. induction n as [|n IH]; intros start i Hi; [lia|].
  cbn [seq flat_map]. rewrite <- app_assoc.
  destruct i as [|i].
  - rewrite Nat.mul_0_r, Nat.add_0_r. cbn [skipn].
    rewrite firstn_app, (Hg start), Nat.sub_diag, firstn_O, app_nil_r.
    apply firstn_all2. rewrite Hg. lia.
  - replace (4 * S i)%nat with (List.length (g start) + 4 * i)%nat
      by (rewrite Hg; lia).
    rewrite skipn_app, Nat.add_comm, Nat.add_sub.
    rewrite skipn_all2 by lia. cbn [app].
    rewrite (IH (S start) i) by lia. f_equal. lia.
Qed.

Lemma slots_length {A} (g : nat -> list A) :
  (forall k, List.length (g k) = 4%nat) ->
  forall n start, List.length (flat_map g (seq start n)) = (4 * n)%nat.
Proof.
  intros Hg. induction n as [|n IH]; intros start; [reflexivity|].
  cbn [seq flat_map]. rewrite length_app, Hg, IH. lia.
Qed.

Lemma flat_map_ext_seq {A} (f g : nat -> list A) (start n : nat) :
  (forall i, (start <= i < start + n)%nat -> f i = g i) ->
  flat_map f (seq start n) = flat_map g (seq start n).
Proof.
  revert start. induction n as [|n IH]; intros start H; [reflexivity|].
  cbn [seq flat_map]. rewrite (H start) by lia. f_equal.
  apply IH. intros i Hi. apply H. lia.
Qed.

(** X17: the color slots of [setCustomPattern].  The frame has sixteen
    slots of four bytes after its first byte: slot [i] holds the red, green
    and blue of color [i], reduced to bytes, and 0, and the slots beyond the
    last color hold 1, 2, 3, 0; the delay byte of the speed follows at
    offset 65.  Colors after the sixteenth are not sent. *)
Theorem customPattern_slots (m : CustomMode) (speed : float) (i : nat) :
  (i < 16)%nat ->
  firstn 4 (skipn (1 + 4 * i) (customPatternFrame m speed)) =
    match nth_error (colors m) i with
    | Some c => [red c mod 256; green c mod 256; blue c mod 256; 0]
    | None => [1; 2; 3; 0]
    end /\
  nth_error (customPatternFrame m speed) 65 =
    Some (toUint8 (speedToDelay speed)) /\
  customPatternFrame m speed =
    customPatternFrame {| colors := firstn 16 (colors m);
                          transitionType := transitionType m |} speed.
Proof.
  intros Hi.
  assert (E : forall m',
    customPatternFrame m' speed =
    0x51 :: (flat_map (fun k => Buf.from (colorSlot m' k)) (seq 0 16)
             ++ Buf.from ([Dbl (speedToDelay speed)]
                          ++ transitionByte (transitionType m')
                          ++ [Int 0xff; Int 0x0f]))).
  { intros m'. unfold customPatternFrame, Buf.from.
    rewrite <- !app_assoc. cbn [app map Buf.toByte].
    rewrite map_app, map_flat_map_seq. reflexivity. }
  assert (L : forall m' k, List.length (Buf.from (colorSlot m' k)) = 4%nat).
  { intros m' k. unfold Buf.from. rewrite length_map.
    apply colorSlot_length. }
  split; [|split].
  - rewrite E. change (1 + 4 * i)%nat with (S (4 * i)). cbn [skipn].
    rewrite (slot_at _ _ 16 (L m) 0%nat i Hi). cbn [Nat.add].
    unfold colorSlot. destruct (nth_error (colors m) i); reflexivity.
  - rewrite E.
    match goal with
    | |- nth_error (_ :: ?l) _ = _ =>
        change (nth_error l 64 = Some (toUint8 (speedToDelay speed)))
    end.
    rewrite nth_error_app2; rewrite (slots_length _ (L m) 16 0).
    + reflexivity.
    + apply Nat.le_refl.
  - rewrite !E. cbn [transitionType]. do 2 f_equal.
    apply flat_map_ext_seq. intros k Hk. unfold colorSlot. cbn [colors].
    rewrite nth_error_firstn.
    destruct (Nat.ltb_spec k 16) as [_|H]; [reflexivity | lia].
Qed.

Lemma customPattern_slots_witness :
  firstn 4 (skipn 5 (customPatternFrame fadeRedBlue 50)) = [0; 0; 255; 0].
Proof.
  destruct (customPattern_slots fadeRedBlue 50 1) as (H & _);
    [lia | exact H].
Defined.

(** ** Sockets and timers of the queue manager *)

Lemma settle_keep {A} (f : State -> A) p o s :
  (forall v s0, f (set_settled v s0) = f s0) -> f (settle p o s) = f s.
Proof. intros H. unfold settle. destruct (existsb _ _); auto. Qed.

Lemma rejectAll_keep {A} (f : State -> A) err q :
  (forall v s0, f (set_settled v s0) = f s0) ->
  forall s, f (rejectAll err q s) = f s.
Proof.
  intros H. unfold rejectAll. induction q as [|c q IH]; intros s; simpl.
  - reflexivity.
  - rewrite IH. apply settle_keep, H.
Qed.

Lemma sameTiming_refl s : sameTiming s s.
Proof. unfold sameTiming. auto. Qed.

Lemma sameTiming_trans s1 s2 s3 :
  sameTiming s1 s2 -> sameTiming s2 s3 -> sameTiming s1 s3.
Proof. unfold sameTiming. intuition congruence. Qed.

Lemma sameSockets_refl s : sameSockets s s.
Proof. unfold sameSockets. auto. Qed.

Lemma sameSockets_trans s1 s2 s3 :
  sameSockets s1 s2 -> sameSockets s2 s3 -> sameSockets s1 s3.
Proof. unfold sameSockets. intuition congruence. Qed.

Lemma settle_sameTiming p o s : sameTiming s (settle p o s).
Proof. unfold sameTiming. repeat split; apply settle_keep; reflexivity. Qed.

Lemma settle_sameSockets p o s : sameSockets s (settle p o s).
Proof.
  unfold sameSockets. split.
  - apply settle_keep. reflexivity.
  - apply (settle_keep (fun x => map ended (sockets x))). reflexivity.
Qed.

Lemma rejectAll_sameTiming err q s : sameTiming s (rejectAll err q s).
Proof. unfold sameTiming. repeat split; apply rejectAll_keep; reflexivity. Qed.

Lemma rejectAll_sameSockets err q s : sameSockets s (rejectAll err q s).
Proof.
  unfold sameSockets. split.
  - apply rejectAll_keep. reflexivity.
  - apply (rejectAll_keep (fun x => map ended (sockets x))). reflexivity.
Qed.

Lemma Timing_same s s' : sameTiming s s' -> Timing s -> Timing s'.
Proof.
  unfold sameTiming, Timing. intros (E1 & E2 & E3 & E4).
  rewrite E1, E2, E3, E4. auto.
Qed.

Lemma LiveOn_map cur l :
  LiveOn cur l <->
  (forall h b, nth_error (map ended l) h = Some b ->
               (b = false <-> cur = Some h)).
Proof.
  unfold LiveOn. split; intros H h.
  - intros b Hb. rewrite nth_error_map in Hb.
    destruct (nth_error l h) as [k|] eqn:E; [|discriminate].
    apply some_eq in Hb. subst b. apply (H h k E).
  - intros k Hk. apply (H h (ended k)).
    rewrite nth_error_map, Hk. reflexivity.
Qed.

Lemma OneLive_same s s' : sameSockets s s' -> OneLive s -> OneLive s'.
Proof.
  unfold sameSockets, OneLive. intros [E1 E2] H.
  apply LiveOn_map. rewrite E1, E2. apply LiveOn_map. exact H.
Qed.

Lemma updateSocket_ended h f l :
  (forall k, ended (f k) = ended k) ->
  map ended (updateSocket h f l) = map ended l.
Proof.
  intros Hf. revert h. induction l as [|x r IH]; intros h; destruct h;
    simpl; rewrite ?Hf, ?IH; reflexivity.
Qed.

Lemma updateSocket_nth h f l h' :
  nth_error (updateSocket h f l) h' =
  if Nat.eqb h h' then option_map f (nth_error l h') else nth_error l h'.
Proof.
  revert h h'. induction l as [|x r IH]; intros h h'.
  - destruct h, h'; simpl; try reflexivity.
    destruct (Nat.eqb h h'); reflexivity.
  - destruct h, h'; simpl; try reflexivity. apply IH.
Qed.

Lemma OneLive_end h s :
  OneLive s -> socket s = Some h -> OneLive (set_socket None (socket_end h s)).
Proof.
  unfold OneLive, LiveOn. intros H Es h' k'. simpl.
  rewrite updateSocket_nth. intros Hk. split; [|discriminate].
  intros He. exfalso.
  destruct (Nat.eqb_spec h h') as [->|Hne].
  - destruct (nth_error (sockets s) h'); [|discriminate].
    apply some_eq in Hk. subst k'. discriminate.
  - apply (H h' k' Hk) in He. congruence.
Qed.

Lemma OneLive_connect p s :
  OneLive s -> socket s = None ->
  OneLive (set_socket (Some (List.length (sockets s)))
             (snd (net_connect p s))).
Proof.
  unfold OneLive, LiveOn. intros H Es h k. simpl. intros Hk.
  destruct (Nat.lt_ge_cases h (List.length (sockets s))) as [Hlt|Hge].
  - rewrite nth_error_app1 in Hk by exact Hlt.
    split; intros He.
    + apply (H h k Hk) in He. congruence.
    + apply some_eq in He. lia.
  - rewrite nth_error_app2 in Hk by exact Hge.
    destruct (h - List.length (sockets s))%nat as [|d] eqn:Ed.
    + apply some_eq in Hk. subst k. simpl.
      split; [intros _; f_equal; lia | reflexivity].
    + destruct d; discriminate.
Qed.

Lemma handleNextCommand_sameTiming s s' :
  handleNextCommand s = Ok s' -> sameTiming s s'.
Proof.
  unfold handleNextCommand, sameTiming. intros H.
  destruct (commandQueue s); [|destruct (socket s)].
  - apply ok_eq in H. subst s'. destruct (socket s); simpl; auto.
  - apply ok_eq in H. subst s'. simpl. auto.
  - discriminate.
Qed.

Lemma handleNextCommand_live s s' :
  handleNextCommand s = Ok s' -> OneLive s -> OneLive s'.
Proof.
  unfold handleNextCommand. intros H HL.
  destruct (commandQueue s); [|destruct (socket s) as [h|] eqn:Es].
  - apply ok_eq in H. subst s'.
    destruct (socket s) as [h|] eqn:Es.
    + apply OneLive_end; assumption.
    + eapply OneLive_same; [|exact HL]. unfold sameSockets. simpl. auto.
  - apply ok_eq in H. subst s'.
    eapply OneLive_same; [|exact HL]. unfold sameSockets. simpl.
    split; [reflexivity|]. apply updateSocket_ended. reflexivity.
  - discriminate.
Qed.

(** Clearing a timer keeps the ids of the others distinct. *)
Lemma clearTimeout_nodup (t : nat) (tm : list (nat * TimerCb)) :
  NoDup (map fst tm) ->
  NoDup (map fst (filter (fun e => negb (Nat.eqb (fst e) t)) tm)).
Proof.
  induction tm as [|[t' cb] tm IH]; intros Hnd; cbn [filter map fst].
  - constructor.
  - cbn [map fst] in Hnd. apply NoDup_cons_iff in Hnd.
    destruct Hnd as [Hn Hd].
    destruct (negb (Nat.eqb t' t)); cbn [map fst]; [|exact (IH Hd)].
    apply NoDup_cons_iff. split; [|exact (IH Hd)].
    intros Hin. apply Hn. apply in_map_iff in Hin.
    destruct Hin as [y [E Hy]]. apply filter_In in Hy.
    apply in_map_iff. exists y. tauto.
Qed.

Lemma Timing_clear t s : Timing s -> Timing (clearTimeout t s).
Proof.
  unfold Timing. simpl. intros [H1 H2 H3 H4 H5 H6]. constructor.
  - intros t' cb Hin. apply filter_In in Hin. apply (H1 t' cb), Hin.
  - apply clearTimeout_nodup, H2.
  - intros t' Hin. apply filter_In in Hin. apply H3, Hin.
  - intros t' cb Hin. apply filter_In in Hin. apply (H4 t' cb), Hin.
  - exact H5.
  - intros t' cb Hq Hin. apply filter_In in Hin. apply (H6 t' cb Hq), Hin.
Qed.

Lemma TimingOn_arm o tm next quiet quiet' cb :
  TimingOn o tm next quiet -> armable o cb ->
  (forall t, In (t, ReceiveQuiet) (tm ++ [(next, cb)]) -> quiet' = Some t) ->
  quiet' = quiet \/ (quiet' = Some next /\ cb = ReceiveQuiet) ->
  TimingOn o (tm ++ [(next, cb)]) (S next) quiet'.
Proof.
  intros [H1 H2 H3 H4 H5 H6] Ha Hq Hs. constructor.
  - intros t cb' Hin. apply in_app_or in Hin. destruct Hin as [Hin|[E|[]]].
    + apply H1 in Hin. lia.
    + inversion E; subst. lia.
  - rewrite map_app. simpl. apply NoDup_app; [exact H2 | |].
    + constructor; [simpl; tauto | constructor].
    + intros a Ha1 [E|[]]. subst a. apply in_map_iff in Ha1.
      destruct Ha1 as [[t cb'] [E Hin]]. simpl in E. subst t.
      apply H1 in Hin. lia.
  - exact Hq.
  - intros t cb' Hin. apply in_app_or in Hin. destruct Hin as [Hin|[E|[]]].
    + apply (H4 t cb'), Hin.
    + inversion E; subst. exact Ha.
  - intros t Ht. destruct Hs as [->|[-> _]].
    + apply H5 in Ht. lia.
    + apply some_eq in Ht. lia.
  - intros t cb' Ht Hin. apply in_app_or in Hin.
    destruct Hs as [->|[-> ->]].
    + assert (Hlt := H5 t Ht).
      destruct Hin as [Hin|[E|[]]]; [exact (H6 t cb' Ht Hin)|].
      inversion E; subst. lia.
    + apply some_eq in Ht. subst t.
      destruct Hin as [Hin|[E|[]]].
      * apply H1 in Hin. lia.
      * inversion E. reflexivity.
Qed.

Lemma Timing_arm cb s :
  Timing s -> armable (options s) cb -> cb <> ReceiveQuiet ->
  Timing (snd (setTimeout cb s)).
Proof.
  unfold Timing. simpl. intros H Ha Hn.
  apply TimingOn_arm with (quiet := receiveTimeout s); auto.
  intros t Hin. apply in_app_or in Hin. destruct Hin as [Hin|[E|[]]].
  - apply (tm_quiet _ _ _ _ H), Hin.
  - inversion E. congruence.
Qed.

(** Arming the quiet timer after the stored one was cleared. *)
Lemma Timing_requiet s :
  Timing s ->
  let s1 := match receiveTimeout s with
            | Some t => clearTimeout t s
            | None => s
            end in
  Timing (set_receiveTimeout (Some (nextTimer s1))
            (snd (setTimeout ReceiveQuiet s1))).
Proof.
  intros H. cbv zeta.
  set (s1 := match receiveTimeout s with
             | Some t => clearTimeout t s
             | None => s
             end).
  assert (H1 : Timing s1).
  { subst s1. destruct (receiveTimeout s); [apply Timing_clear|]; exact H. }
  assert (Hno : forall t, ~ In (t, ReceiveQuiet) (timers s1)).
  { intros t Hin. subst s1. destruct (receiveTimeout s) as [t0|] eqn:Et.
    - simpl in Hin. apply filter_In in Hin. destruct Hin as [Hin Hf].
      apply (tm_quiet _ _ _ _ H) in Hin. rewrite Et in Hin.
      apply some_eq in Hin. subst t0. simpl in Hf.
      rewrite Nat.eqb_refl in Hf. discriminate.
    - apply (tm_quiet _ _ _ _ H) in Hin. rewrite Et in Hin. discriminate. }
  unfold Timing. simpl.
  apply TimingOn_arm with (quiet := receiveTimeout s1); auto.
  - exact I.
  - intros t Hin. apply in_app_or in Hin. destruct Hin as [Hin|[E|[]]].
    + exfalso. exact (Hno t Hin).
    + inversion E. reflexivity.
Qed.

Lemma receiveData_timing empty data s s' :
  receiveData empty data s = Ok s' -> Timing s -> Timing s'.
Proof.
  unfold receiveData. intros H HT.
  set (s0 := match commandTimeout s with
             | Some t => set_commandTimeout None (clearTimeout t s)
             | None => s
             end) in *.
  assert (H0 : Timing s0).
  { subst s0. destruct (commandTimeout s); [|exact HT].
    eapply Timing_same; [|apply Timing_clear, HT].
    unfold sameTiming. simpl. auto. }
  clearbody s0. destruct empty.
  - apply handleNextCommand_sameTiming in H.
    eapply Timing_same; [exact H|].
    eapply Timing_same; [|exact H0].
    destruct (commandQueue s0) as [|c q].
    + unfold sameTiming. simpl. auto.
    + eapply sameTiming_trans; [apply (settle_sameTiming (promise c)
        (Resolved (receivedData s0)) s0)|].
      unfold sameTiming. simpl. auto.
  - set (s1 := set_receivedData (receivedData s0 ++ data) s0) in *.
    assert (H1 : Timing s1).
    { eapply Timing_same; [|exact H0]. unfold sameTiming. simpl. auto. }
    assert (G := Timing_requiet s1 H1). cbv zeta in G.
    destruct (receiveTimeout s1); simpl in H; apply ok_eq in H; subst s';
      exact G.
Qed.

Lemma receiveData_live empty data s s' :
  receiveData empty data s = Ok s' -> OneLive s -> OneLive s'.
Proof.
  unfold receiveData. intros H HL.
  set (s0 := match commandTimeout s with
             | Some t => set_commandTimeout None (clearTimeout t s)
             | None => s
             end) in *.
  assert (H0 : OneLive s0).
  { subst s0. destruct (commandTimeout s); exact HL. }
  clearbody s0. destruct empty.
  - apply handleNextCommand_live in H; [exact H|].
    eapply OneLive_same; [|exact H0].
    destruct (commandQueue s0) as [|c q].
    + unfold sameSockets. simpl. auto.
    + eapply sameSockets_trans; [apply (settle_sameSockets (promise c)
        (Resolved (receivedData s0)) s0)|].
      unfold sameSockets. simpl. auto.
  - destruct (receiveTimeout _); simpl in H; apply ok_eq in H; subst s';
      exact H0.
Qed.

Lemma handleCommandTimeout_timing s s' :
  handleCommandTimeout s = Ok s' -> Timing s -> Timing s'.
Proof.
  unfold handleCommandTimeout. intros H HT.
  apply handleNextCommand_sameTiming in H.
  eapply Timing_same; [exact H|]. eapply Timing_same; [|exact HT].
  destruct (commandQueue (set_commandTimeout None s)) as [|c q].
  - unfold sameTiming. simpl. auto.
  - eapply sameTiming_trans;
      [|eapply sameTiming_trans;
         [apply (settle_sameTiming (promise c)
                   (Rejected (Error "Command timed out"))
                   (set_commandTimeout None s))|]];
      unfold sameTiming; simpl; auto.
Qed.

Lemma handleCommandTimeout_live s s' :
  handleCommandTimeout s = Ok s' -> OneLive s -> OneLive s'.
Proof.
  unfold handleCommandTimeout. intros H HL.
  apply handleNextCommand_live in H; [exact H|].
  eapply OneLive_same; [|exact HL].
  destruct (commandQueue (set_commandTimeout None s)) as [|c q].
  - unfold sameSockets. simpl. auto.
  - eapply sameSockets_trans;
      [|eapply sameSockets_trans;
         [apply (settle_sameSockets (promise c)
                   (Rejected (Error "Command timed out"))
                   (set_commandTimeout None s))|]];
      unfold sameSockets; simpl; auto.
Qed.

Lemma socketErrorHandler_timing err p s :
  Timing s -> Timing (socketErrorHandler err p s).
Proof.
  intros HT. eapply Timing_same; [|exact HT].
  unfold socketErrorHandler.
  set (s1 := settle p (Rejected err) (set_preventDataSending true s)).
  assert (E1 : sameTiming s s1).
  { eapply sameTiming_trans; [|apply settle_sameTiming].
    unfold sameTiming. simpl. auto. }
  clearbody s1.
  set (s3 := set_socket None _).
  assert (E3 : sameTiming s1 s3).
  { subst s3. destruct (socket s1); unfold sameTiming; simpl; auto. }
  clearbody s3.
  change (fold_left _ (commandQueue s3) s3)
    with (rejectAll err (commandQueue s3) s3).
  eapply sameTiming_trans; [exact E1|].
  eapply sameTiming_trans; [exact E3|].
  eapply sameTiming_trans; [apply (rejectAll_sameTiming err
    (commandQueue s3) s3)|].
  unfold sameTiming. simpl. auto.
Qed.

Lemma socketErrorHandler_live err p s :
  OneLive s -> OneLive (socketErrorHandler err p s).
Proof.
  intros HL. unfold socketErrorHandler.
  set (s1 := settle p (Rejected err) (set_preventDataSending true s)).
  assert (H1 : OneLive s1).
  { eapply OneLive_same; [|exact HL].
    eapply sameSockets_trans; [|apply settle_sameSockets].
    unfold sameSockets. simpl. auto. }
  clearbody s1.
  set (s3 := set_socket None _).
  assert (H3 : OneLive s3).
  { subst s3. destruct (socket s1) as [h|] eqn:Es.
    - apply OneLive_end; assumption.
    - eapply OneLive_same; [|exact H1]. unfold sameSockets. simpl. auto. }
  clearbody s3.
  change (fold_left _ (commandQueue s3) s3)
    with (rejectAll err (commandQueue s3) s3).
  eapply OneLive_same; [|exact H3].
  eapply sameSockets_trans; [apply (rejectAll_sameSockets err
    (commandQueue s3) s3)|].
  unfold sameSockets. simpl. auto.
Qed.

Lemma submit_timing buf er s : Timing s -> Timing (snd (submit buf er s)).
Proof.
  intros HT. unfold submit, newPromise, sendCommand. cbn [snd fst].
  set (e := {| expectReply := er; promise := promises s;
               command := buf ++ [checksum buf] |}).
  set (s0 := set_promises (S (promises s)) s).
  assert (H0 : Timing s0)
    by (eapply Timing_same; [|exact HT]; unfold sameTiming; simpl; auto).
  clearbody s0.
  destruct (commandQueue s0) as [|c q] eqn:Eq;
    [destruct (socket s0) as [h|] eqn:Es|].
  - eapply Timing_same; [|exact H0]. unfold sameTiming. simpl. auto.
  - cbn [net_connect].
    set (s2 := set_socket _ _).
    assert (H2 : Timing s2)
      by (eapply Timing_same; [|exact H0]; unfold sameTiming; simpl; auto).
    assert (Eo : options s2 = options s0) by reflexivity.
    clearbody s2.
    destruct (truthy (connectTimeoutLength (options s2))) eqn:Et;
      [|exact H2].
    assert (G := Timing_arm (ConnectTimeout (promises s)) s2 H2 Et).
    eapply Timing_same; [|apply G; discriminate].
    unfold sameTiming. simpl. auto.
  - eapply Timing_same; [|exact H0]. unfold sameTiming. simpl. auto.
Qed.

Lemma submit_live buf er s :
  OneLive s -> OneLive (snd (submit buf er s)).
Proof.
  intros HL. unfold submit, newPromise, sendCommand. cbn [snd fst].
  set (e := {| expectReply := er; promise := promises s;
               command := buf ++ [checksum buf] |}).
  set (s0 := set_promises (S (promises s)) s).
  assert (H0 : OneLive s0) by exact HL.
  clearbody s0.
  destruct (commandQueue s0) as [|c q] eqn:Eq;
    [destruct (socket s0) as [h|] eqn:Es|].
  - eapply OneLive_same; [|exact H0]. unfold sameSockets. simpl. auto.
  - set (s1 := set_preventDataSending false _).
    assert (H1 : OneLive s1) by exact H0.
    assert (Es1 : socket s1 = None) by exact Es.
    clearbody s1.
    assert (G := OneLive_connect (promises s) s1 H1 Es1).
    cbn [net_connect] in *. cbn [snd] in G.
    destruct (truthy _); exact G.
  - eapply OneLive_same; [|exact H0]. unfold sameSockets. simpl. auto.
Qed.

Lemma onConnect_timing s s' : onConnect s = Ok s' -> Timing s -> Timing s'.
Proof.
  unfold onConnect. intros H HT.
  set (s0 := match connectTimeout s with
             | Some t => set_connectTimeout None (clearTimeout t s)
             | None => s
             end) in *.
  assert (H0 : Timing s0).
  { subst s0. destruct (connectTimeout s); [|exact HT].
    eapply Timing_same; [|apply Timing_clear, HT].
    unfold sameTiming. simpl. auto. }
  clearbody s0. destruct (negb (preventDataSending s0)).
  - apply handleNextCommand_sameTiming in H.
    eapply Timing_same; [exact H | exact H0].
  - apply ok_eq in H. subst s'. exact H0.
Qed.

Lemma onConnect_live s s' : onConnect s = Ok s' -> OneLive s -> OneLive s'.
Proof.
  unfold onConnect. intros H HL.
  set (s0 := match connectTimeout s with
             | Some t => set_connectTimeout None (clearTimeout t s)
             | None => s
             end) in *.
  assert (H0 : OneLive s0) by (subst s0; destruct (connectTimeout s); exact HL).
  clearbody s0. destruct (negb (preventDataSending s0)).
  - apply handleNextCommand_live in H; assumption.
  - apply ok_eq in H. subst s'. exact H0.
Qed.

Lemma onWritten_timing cmd s s' :
  onWritten cmd s = Ok s' -> Timing s -> Timing s'.
Proof.
  unfold onWritten. intros H HT. destruct (negb (expectReply cmd)).
  - eapply receiveData_timing; eauto.
  - destruct (commandTimeoutLength (options s)) as [n|] eqn:El.
    + cbn [setTimeout] in H. apply ok_eq in H. subst s'.
      assert (G := Timing_arm CommandTimeout s HT).
      eapply Timing_same; [|apply G].
      * unfold sameTiming. simpl. auto.
      * simpl. rewrite El. discriminate.
      * discriminate.
    + apply ok_eq in H. subst s'. exact HT.
Qed.

Lemma onWritten_live cmd s s' :
  onWritten cmd s = Ok s' -> OneLive s -> OneLive s'.
Proof.
  unfold onWritten. intros H HL. destruct (negb (expectReply cmd)).
  - eapply receiveData_live; eauto.
  - destruct (commandTimeoutLength (options s)).
    + cbn [setTimeout] in H. apply ok_eq in H. subst s'. exact HL.
    + apply ok_eq in H. subst s'. exact HL.
Qed.

Lemma onTimer_timing cb s s' :
  onTimer cb s = Ok s' -> Timing s -> Timing s'.
Proof.
  destruct cb as [| |p]; cbn [onTimer]; intros H HT.
  - eapply receiveData_timing; eauto.
  - eapply handleCommandTimeout_timing; eauto.
  - apply ok_eq in H. subst s'. apply socketErrorHandler_timing, HT.
Qed.

Lemma onTimer_live cb s s' :
  onTimer cb s = Ok s' -> OneLive s -> OneLive s'.
Proof.
  destruct cb as [| |p]; cbn [onTimer]; intros H HL.
  - eapply receiveData_live; eauto.
  - eapply handleCommandTimeout_live; eauto.
  - apply ok_eq in H. subst s'. apply socketErrorHandler_live, HL.
Qed.

Lemma step_timing e s s' :
  step e s = Some (Ok s') -> Timing s -> Timing s'.
Proof.
  intros H HT. destruct e as [buf er|h|h err|h data|h|t]; cbn [step] in H.
  - apply some_eq, ok_eq in H. subst s'. apply submit_timing, HT.
  - destruct (nth_error (sockets s) h) as [k|]; [|discriminate].
    destruct (connecting k); [|discriminate]. apply some_eq in H.
    eapply onConnect_timing; [exact H|]. exact HT.
  - destruct (nth_error (sockets s) h) as [k|]; [|discriminate].
    apply some_eq, ok_eq in H. subst s'.
    apply socketErrorHandler_timing, HT.
  - destruct (nth_error (sockets s) h) as [k|]; [|discriminate].
    destruct (connecting k); [discriminate|]. apply some_eq in H.
    eapply receiveData_timing; eauto.
  - destruct (nth_error (sockets s) h) as [k|]; [|discriminate].
    destruct (writeCallbacks k) as [|cmd w]; [discriminate|].
    apply some_eq in H. eapply onWritten_timing; [exact H|]. exact HT.
  - destruct (timerCb t s) as [cb|]; [|discriminate]. apply some_eq in H.
    eapply onTimer_timing; [exact H|]. apply Timing_clear, HT.
Qed.

Lemma step_live e s s' :
  step e s = Some (Ok s') -> OneLive s -> OneLive s'.
Proof.
  intros H HL. destruct e as [buf er|h|h err|h data|h|t]; cbn [step] in H.
  - apply some_eq, ok_eq in H. subst s'. apply submit_live, HL.
  - destruct (nth_error (sockets s) h) as [k|]; [|discriminate].
    destruct (connecting k); [|discriminate]. apply some_eq in H.
    eapply onConnect_live; [exact H|].
    eapply OneLive_same; [|exact HL]. unfold sameSockets. simpl.
    split; [reflexivity|]. apply updateSocket_ended. reflexivity.
  - destruct (nth_error (sockets s) h) as [k|]; [|discriminate].
    apply some_eq, ok_eq in H. subst s'.
    apply socketErrorHandler_live, HL.
  - destruct (nth_error (sockets s) h) as [k|]; [|discriminate].
    destruct (connecting k); [discriminate|]. apply some_eq in H.
    eapply receiveData_live; eauto.
  - destruct (nth_error (sockets s) h) as [k|]; [|discriminate].
    destruct (writeCallbacks k) as [|cmd w]; [discriminate|].
    apply some_eq in H. eapply onWritten_live; [exact H|].
    eapply OneLive_same; [|exact HL]. unfold sameSockets. simpl.
    split; [reflexivity|]. apply updateSocket_ended. reflexivity.
  - destruct (timerCb t s) as [cb|]; [|discriminate]. apply some_eq in H.
    eapply onTimer_live; [exact H|]. exact HL.
Qed.

Lemma exec_wired tr : forall s s',
  exec tr s = Some s' -> OneLive s /\ Timing s -> OneLive s' /\ Timing s'.
Proof.
  induction tr as [|e tr IH]; intros s s' H [HL HT]; simpl in H.
  - apply some_eq in H. subst s'. auto.
  - destruct (step e s) as [[s1|]|] eqn:E; try discriminate.
    apply (IH s1 s' H). split.
    + eapply step_live; eauto.
    + eapply step_timing; eauto.
Qed.

Lemma init_wired o : OneLive (init o) /\ Timing (init o).
Proof.
  split.
  - unfold OneLive, LiveOn. simpl. intros h k H. destruct h; discriminate.
  - unfold Timing. simpl. constructor; simpl; try tauto;
      try discriminate. constructor.
Qed.

Lemma reachable_wired o tr s :
  exec tr (init o) = Some s -> OneLive s /\ Timing s.
Proof. intros H. exact (exec_wired tr _ _ H (init_wired o)). Qed.

(** X18: one connection at a time.  In every state reached from a new
    instance the current socket is the only one that was not ended, there
    is a current socket exactly while commands are queued, and an instance
    with an empty queue holds no open socket. *)
Theorem one_live_socket (o : Options) (tr : list Event) (s : State) :
  exec tr (init o) = Some s ->
  (commandQueue s = [] <-> socket s = None) /\
  (forall h k, nth_error (sockets s) h = Some k ->
               (ended k = false <-> socket s = Some h)) /\
  (forall h1 h2 k1 k2,
     nth_error (sockets s) h1 = Some k1 ->
     nth_error (sockets s) h2 = Some k2 ->
     ended k1 = false -> ended k2 = false -> h1 = h2) /\
  (commandQueue s = [] -> forall k, In k (sockets s) -> ended k = true).
Proof.
  intros H. destruct (reachable_wired o tr s H) as [HL _].
  assert (HI := reachable_inv _ _ _ H).
  split; [exact (inv_socket s HI)|]. split; [exact HL|]. split.
  - intros h1 h2 k1 k2 H1 H2 E1 E2.
    apply (HL h1 k1 H1) in E1. apply (HL h2 k2 H2) in E2. congruence.
  - intros Hq k Hin. apply In_nth_error in Hin. destruct Hin as [h Hh].
    destruct (ended k) eqn:E; [reflexivity|].
    apply (HL h k Hh) in E. apply (inv_socket s HI) in Hq. congruence.
Qed.

Lemma one_live_socket_witness :
  exists s, exec twoQueued (init defaultOptions) = Some s /\
            forall h k, nth_error (sockets s) h = Some k ->
                        (ended k = false <-> socket s = Some h).
Proof.
  eexists. split; [vm_compute; reflexivity|].
  refine (proj1 (proj2 (one_live_socket defaultOptions twoQueued _ _))).
  vm_compute. reflexivity.
Defined.

Lemma timerCb_iff (s : State) (t : nat) (cb : TimerCb) :
  NoDup (map fst (timers s)) ->
  (timerCb t s = Some cb <-> In (t, cb) (timers s)).
Proof.
  intros Hnd. split; [apply timerCb_In|].
  unfold timerCb. induction (timers s) as [|[t' cb'] l IH]; simpl;
    [contradiction|].
  inversion Hnd as [|? ? Hn Hd]; subst. intros [E|Hin].
  - inversion E; subst. rewrite Nat.eqb_refl. reflexivity.
  - destruct (Nat.eqb_spec t' t) as [->|Hne]; [|auto].
    exfalso. apply Hn. apply in_map_iff. exists (t, cb). auto.
Qed.

(** X19: the timers of a reachable state.  Timer ids are distinct and
    below the counter, so the timer that fires for an id is the one that
    was armed for it; and at most one quiet timer is armed, the one whose
    id [receiveTimeout] holds: every chunk of data replaces the quiet timer
    of the chunk before. *)
Theorem one_quiet_timer (o : Options) (tr : list Event) (s : State) :
  exec tr (init o) = Some s ->
  NoDup (map fst (timers s)) /\
  (forall t cb, In (t, cb) (timers s) -> (t < nextTimer s)%nat) /\
  (forall t cb, timerCb t s = Some cb <-> In (t, cb) (timers s)) /\
  (forall t, timerCb t s = Some ReceiveQuiet -> receiveTimeout s = Some t) /\
  (forall t1 t2, timerCb t1 s = Some ReceiveQuiet ->
                 timerCb t2 s = Some ReceiveQuiet -> t1 = t2).
Proof.
  intros H. destruct (reachable_wired o tr s H) as [_ [H1 H2 H3 H4 _ _]].
  split; [exact H2|]. split; [exact H1|].
  split; [intros t cb; apply timerCb_iff, H2|]. split.
  - intros t Ht. apply H3, timerCb_In, Ht.
  - intros t1 t2 E1 E2. apply timerCb_In in E1, E2.
    apply H3 in E1, E2. congruence.
Qed.

Lemma one_quiet_timer_witness :
  exists s, exec (chunkedReply ++ chunks 0 [[0x81]; [0x25]])
              (init defaultOptions) = Some s /\
            receiveTimeout s = Some 2%nat.
Proof.
  eexists. split; [vm_compute; reflexivity|].
  refine (proj1 (proj2 (proj2 (proj2
    (one_quiet_timer defaultOptions
       (chunkedReply ++ chunks 0 [[0x81]; [0x25]]) _ _)))) 2%nat _).
  - vm_compute. reflexivity.
  - vm_compute. reflexivity.
Defined.

(** X20: a timeout that the options turn off is never armed.  Without
    [commandTimeoutLength] no command timer ever fires, and with
    [connectTimeoutLength] undefined or 0 no connect timer does; with both
    off the only timers are quiet timers. *)
Theorem disabled_timeouts_never_armed (o : Options) (tr : list Event)
  (s : State) :
  exec tr (init o) = Some s ->
  (commandTimeoutLength o = None ->
   forall t, timerCb t s <> Some CommandTimeout) /\
  (truthy (connectTimeoutLength o) = false ->
   forall t p, timerCb t s <> Some (ConnectTimeout p)) /\
  (commandTimeoutLength o = None ->
   truthy (connectTimeoutLength o) = false ->
   forall t cb, timerCb t s = Some cb -> cb = ReceiveQuiet).
Proof.
  intros H. destruct (reachable_wired o tr s H) as [_ [H1 H2 H3 H4 _ _]].
  assert (Eo : options s = o) by (apply exec_grows in H; apply H).
  rewrite Eo in H4.
  assert (A : commandTimeoutLength o = None ->
              forall t, timerCb t s <> Some CommandTimeout).
  { intros Hc t Ht. apply timerCb_In in Ht. apply H4 in Ht. simpl in Ht.
    contradiction. }
  assert (B : truthy (connectTimeoutLength o) = false ->
              forall t p, timerCb t s <> Some (ConnectTimeout p)).
  { intros Hc t p Ht. apply timerCb_In in Ht. apply H4 in Ht. simpl in Ht.
    congruence. }
  split; [exact A|]. split; [exact B|].
  intros Hc Hn t cb Ht. destruct cb as [| |p]; [reflexivity | |].
  - exfalso. exact (A Hc t Ht).
  - exfalso. exact (B Hn t p Ht).
Qed.

Lemma disabled_timeouts_never_armed_witness :
  exists s, exec sampleRun (init defaultOptions) = Some s /\
            forall t p, timerCb t s <> Some (ConnectTimeout p).
Proof.
  eexists. split; [vm_compute; reflexivity|].
  refine (proj1 (proj2
    (disabled_timeouts_never_armed defaultOptions sampleRun _ _)) _).
  - vm_compute. reflexivity.
  - reflexivity.
Defined.

(** ** Timeouts and replies in chunks *)

Lemma Inv_clearTimeout t s : Inv s -> Inv (clearTimeout t s).
Proof.
  intros H. eapply Inv_frame; [exact H|].
  apply frame_clearTimeout, frame_refl.
Qed.

(** Settling the head of the queue and moving on, as [receiveData] and
    [handleCommandTimeout] do it. *)
Lemma finish_head (o : Outcome) (s : State) (c : Cmd) (q : list Cmd) :
  Inv s -> commandQueue s = c :: q ->
  exists s',
    handleNextCommand
      (set_commandQueue q (set_receivedData [] (settle (promise c) o s)))
    = Ok s' /\
    settled s' = settled s ++ [(promise c, o)] /\
    commandQueue s' = q /\ receivedData s' = [] /\
    commandTimeout s' = commandTimeout s /\
    match q with
    | [] => socket s' = None /\ wire s' = wire s
    | next :: _ => socket s' = socket s /\ wire s' = wire s ++ [next]
    end.
Proof.
  intros HI Eq.
  assert (Hn := head_unsettled _ _ _ (inv_order s HI) Eq).
  rewrite (settle_new _ _ _ Hn).
  destruct (socket s) as [h|] eqn:Es.
  2:{ apply (inv_socket s HI) in Es. congruence. }
  unfold handleNextCommand. cbn [commandQueue set_commandQueue].
  destruct q as [|next q'].
  - eexists. split; [reflexivity|]. simpl. rewrite Es. simpl. auto 10.
  - simpl. rewrite Es. eexists. split; [reflexivity|]. simpl. auto 10.
Qed.

(** X21: a command timeout fails the head of the queue and nothing else.
    When a command timer fires in a reachable state with a command queued,
    the head is rejected with "Command timed out", no other promise is
    settled, the receive buffer is emptied and the head leaves the queue;
    the next command, if there is one, is written to the same socket, and
    the socket is dropped otherwise. *)
Theorem command_timeout_fails_head (o : Options) (tr : list Event)
  (s : State) (t : nat) (c : Cmd) (q : list Cmd) :
  exec tr (init o) = Some s ->
  timerCb t s = Some CommandTimeout ->
  commandQueue s = c :: q ->
  exists s',
    step (TimerFired t) s = Some (Ok s') /\
    settled s' =
      settled s ++ [(promise c, Rejected (Error "Command timed out"))] /\
    commandQueue s' = q /\ receivedData s' = [] /\
    commandTimeout s' = None /\
    match q with
    | [] => socket s' = None /\ wire s' = wire s
    | next :: _ => socket s' = socket s /\ wire s' = wire s ++ [next]
    end.
Proof.
  intros H Ht Eq. assert (HI := reachable_inv _ _ _ H).
  cbn [step]. rewrite Ht. cbn [onTimer]. unfold handleCommandTimeout.
  set (s0 := set_commandTimeout None (clearTimeout t s)).
  assert (H0 : Inv s0).
  { subst s0. eapply Inv_frame; [exact HI|].
    apply frame_commandTimeout, frame_clearTimeout, frame_refl. }
  assert (E0 : commandQueue s0 = c :: q) by exact Eq.
  destruct (finish_head (Rejected (Error "Command timed out")) s0 c q H0 E0)
    as (s' & E & G).
  assert (R : commandQueue
                (set_receivedData []
                   (settle (promise c) (Rejected (Error "Command timed out"))
                      s0)) = c :: q).
  { cbn [commandQueue set_receivedData].
    rewrite (settle_keep commandQueue); [exact E0 | reflexivity]. }
  rewrite E0. cbv iota beta. rewrite R. cbn [tl]. rewrite E.
  exists s'. split; [reflexivity | exact G].
Qed.

Lemma command_timeout_fails_head_witness :
  exists s s',
    exec chunkedReply (init defaultOptions) = Some s /\
    step (TimerFired 0) s = Some (Ok s') /\
    settled s' = [(0%nat, Rejected (Error "Command timed out"))] /\
    commandQueue s' = [] /\ socket s' = None.
Proof.
  let r := eval vm_compute in (exec chunkedReply (init defaultOptions)) in
  match r with
  | Some ?x =>
      let cq := eval vm_compute in (commandQueue x) in
      match cq with
      | ?c :: ?q =>
          destruct (command_timeout_fails_head defaultOptions chunkedReply
                      x 0 c q)
            as (s' & H1 & H2 & H3 & _ & _ & H6 & _);
            try (vm_compute; reflexivity);
          exists x, s'
      end
  end.
  split; [vm_compute; reflexivity|]. split; [exact H1|].
  split; [exact H2|]. split; [exact H3 | exact H6].
Defined.

(** The command timers that a chunk of data leaves armed: those armed
    before, except the one the instance holds. *)
Lemma receiveData_chunk_timers (data : Buffer) (s s' : State) :
  Timing s -> receiveData false data s = Ok s' ->
  forall t, In (t, CommandTimeout) (timers s') <->
            In (t, CommandTimeout) (timers s) /\ commandTimeout s <> Some t.
Proof.
  intros HT H t. unfold receiveData in H.
  assert (K : forall (l : list (nat * TimerCb)) (n : nat),
            In (t, CommandTimeout) (l ++ [(n, ReceiveQuiet)]) <->
            In (t, CommandTimeout) l).
  { intros l n. rewrite in_app_iff. simpl. split; [|tauto].
    intros [G|[G|[]]]; [exact G | discriminate]. }
  assert (Q : forall t1, receiveTimeout s = Some t1 ->
                         In (t, CommandTimeout) (timers s) -> t <> t1).
  { intros t1 E Hin ->.
    assert (G := tm_stored _ _ _ _ HT t1 CommandTimeout E Hin).
    discriminate. }
  assert (N : forall a b : nat, negb (Nat.eqb a b) = true <-> a <> b).
  { intros a b. rewrite Bool.negb_true_iff. apply Nat.eqb_neq. }
  destruct (commandTimeout s) as [t0|] eqn:Ec;
    destruct (receiveTimeout s) as [t1|] eqn:Er; simpl in H;
    rewrite ?Er in H; simpl in H; apply ok_eq in H; subst s'; simpl;
    rewrite K, ?filter_In; simpl; rewrite ?N.
  - split.
    + intros ((G1 & G2) & _). split; [exact G1 | congruence].
    + intros (G1 & G2).
      split; [split; [exact G1 | congruence] | exact (Q t1 eq_refl G1)].
  - split.
    + intros (G1 & G2). split; [exact G1 | congruence].
    + intros (G1 & G2). split; [exact G1 | congruence].
  - split.
    + intros (G1 & _). split; [exact G1 | discriminate].
    + intros (G1 & _). split; [exact G1 | exact (Q t1 eq_refl G1)].
  - split; [intros G; split; [exact G | discriminate] | tauto].
Qed.

Lemma receiveData_chunk (data : Buffer) (s : State) :
  exists s',
    receiveData false data s = Ok s' /\
    receivedData s' = receivedData s ++ data /\
    settled s' = settled s /\ commandQueue s' = commandQueue s /\
    commandTimeout s' = None /\ sockets s' = sockets s /\
    exists t, receiveTimeout s' = Some t /\ In (t, ReceiveQuiet) (timers s').
Proof.
  unfold receiveData.
  destruct (commandTimeout s) as [t0|] eqn:Ec;
    destruct (receiveTimeout s) as [t1|] eqn:Er; simpl; rewrite ?Er, ?Ec;
    simpl; (eexists; split; [reflexivity|]); simpl;
    repeat (split; [first [reflexivity | exact Ec]|]);
    (eexists; split; [reflexivity|]);
    apply in_or_app; right; left; reflexivity.
Qed.

Lemma chunks_exec (h : nat) (ds : list Buffer) : forall (s : State) k,
  Timing s ->
  nth_error (sockets s) h = Some k -> connecting k = false -> ds <> [] ->
  exists s1,
    exec (chunks h ds) s = Some s1 /\
    receivedData s1 = receivedData s ++ List.concat ds /\
    settled s1 = settled s /\ commandQueue s1 = commandQueue s /\
    commandTimeout s1 = None /\ sockets s1 = sockets s /\
    (forall t, In (t, CommandTimeout) (timers s1) <->
               In (t, CommandTimeout) (timers s) /\
               commandTimeout s <> Some t) /\
    exists t, receiveTimeout s1 = Some t /\ In (t, ReceiveQuiet) (timers s1).
Proof.
  induction ds as [|d ds IH]; intros s k HT Hk Hc Hne; [congruence|].
  destruct (receiveData_chunk d s)
    as (s' & E & G1 & G2 & G3 & G4 & G5 & G6).
  assert (GT := receiveData_chunk_timers d s s' HT E).
  cbn [chunks map exec step]. rewrite Hk, Hc, E.
  destruct ds as [|d' ds'].
  - exists s'. cbn [map exec List.concat]. rewrite app_nil_r. auto 10.
  - destruct (IH s' k) as (s1 & E1 & F1 & F2 & F3 & F4 & F5 & FT & F6).
    + eapply receiveData_timing; eauto.
    + rewrite G5. exact Hk.
    + exact Hc.
    + discriminate.
    + exists s1. split; [exact E1|].
      split; [rewrite F1, G1; cbn [List.concat]; rewrite <- app_assoc;
              reflexivity|].
      split; [congruence|]. split; [congruence|]. split; [exact F4|].
      split; [congruence|]. split; [|exact F6].
      intros t. rewrite FT, GT, G4. split.
      * intros [G _]. exact G.
      * intros G. split; [exact G | discriminate].
Qed.

(** X22: a reply that arrives in chunks.  In a reachable state with a
    command queued, the ['data'] events of a connected socket append their
    chunks to the receive buffer in order and settle nothing.  They clear
    the command timer that the instance holds, and only that one: the
    command timers armed afterwards are those armed before other than the
    one held, so a command timer left over from an earlier write is still
    armed.  One quiet timer is left armed, and when it fires the head of
    the queue is resolved with everything buffered, the buffer is emptied
    and the queue moves on. *)
Theorem reply_chunks_accumulate (o : Options) (tr : list Event) (s : State)
  (h : nat) (k : Socket) (ds : list Buffer) (c : Cmd) (q : list Cmd) :
  exec tr (init o) = Some s ->
  nth_error (sockets s) h = Some k -> connecting k = false ->
  commandQueue s = c :: q -> ds <> [] ->
  exists s1 t s2,
    exec (chunks h ds) s = Some s1 /\
    receivedData s1 = receivedData s ++ List.concat ds /\
    settled s1 = settled s /\ commandQueue s1 = c :: q /\
    commandTimeout s1 = None /\
    (forall t', timerCb t' s1 = Some CommandTimeout <->
                timerCb t' s = Some CommandTimeout /\
                commandTimeout s <> Some t') /\
    (forall t', timerCb t' s1 = Some ReceiveQuiet <-> t' = t) /\
    step (TimerFired t) s1 = Some (Ok s2) /\
    settled s2 =
      settled s ++
      [(promise c, Resolved (receivedData s ++ List.concat ds))] /\
    commandQueue s2 = q /\ receivedData s2 = [].
Proof.
  intros H Hk Hc Eq Hne.
  destruct (reachable_wired _ _ _ H) as [_ HT0].
  destruct (chunks_exec h ds s k HT0 Hk Hc Hne)
    as (s1 & E1 & F1 & F2 & F3 & F4 & F5 & FT & t & F6 & F7).
  assert (R : exec (tr ++ chunks h ds) (init o) = Some s1)
    by (rewrite exec_app, H; exact E1).
  assert (HI := reachable_inv _ _ _ R).
  destruct (reachable_wired _ _ _ R) as [_ HT].
  assert (Ht : timerCb t s1 = Some ReceiveQuiet)
    by (apply timerCb_iff; [exact (tm_nodup _ _ _ _ HT) | exact F7]).
  set (s1' := clearTimeout t s1).
  assert (HI' : Inv s1') by apply Inv_clearTimeout, HI.
  assert (Eq' : commandQueue s1' = c :: q)
    by (rewrite <- Eq, <- F3; reflexivity).
  destruct (finish_head (Resolved (receivedData s1')) s1' c q HI' Eq')
    as (s2 & E2 & G1 & G2 & G3 & _).
  exists s1, t, s2. split; [exact E1|]. split; [exact F1|].
  split; [exact F2|]. split; [congruence|]. split; [exact F4|]. split.
  { intros t'.
    rewrite (timerCb_iff s1 t' CommandTimeout (tm_nodup _ _ _ _ HT)).
    rewrite (timerCb_iff s t' CommandTimeout (tm_nodup _ _ _ _ HT0)).
    apply FT. }
  split.
  - intros t'. split.
    + intros Ht'. apply timerCb_In in Ht'.
      apply (tm_quiet _ _ _ _ HT) in Ht'. congruence.
    + intros ->. exact Ht.
  - split.
    + cbn [step]. rewrite Ht. cbn [onTimer]. unfold receiveData.
      fold s1'.
      assert (Ec : commandTimeout s1' = None) by exact F4.
      rewrite Ec, Eq'. cbv iota beta.
      assert (Rq : commandQueue
                     (set_receivedData []
                        (settle (promise c) (Resolved (receivedData s1')) s1'))
                   = c :: q).
      { cbn [commandQueue set_receivedData].
        rewrite (settle_keep commandQueue); [exact Eq' | reflexivity]. }
      rewrite Rq. cbn [tl]. rewrite E2. reflexivity.
    + split; [|split; assumption].
      rewrite G1. change (settled s1') with (settled s1).
      change (receivedData s1') with (receivedData s1).
      rewrite F2, F1. reflexivity.
Qed.

Lemma reply_chunks_accumulate_witness :
  exists s s1 t s2,
    exec leftoverTimerRun (init defaultOptions) = Some s /\
    exec (chunks 1 [[0x81; 0x25]; [0x23]]) s = Some s1 /\
    commandTimeout s = Some 1%nat /\
    timerCb 1 s1 = None /\ timerCb 0 s1 = Some CommandTimeout /\
    step (TimerFired t) s1 = Some (Ok s2) /\
    settled s2 = [(0%nat, Rejected (Error "ECONNRESET"));
                  (1%nat, Resolved [0x81; 0x25; 0x23])].
Proof.
  let r := eval vm_compute in (exec leftoverTimerRun (init defaultOptions)) in
  match r with
  | Some ?x =>
      let cq := eval vm_compute in (commandQueue x) in
      let k0 := eval vm_compute in (nth_error (sockets x) 1) in
      match cq with
      | ?c :: ?q =>
          match k0 with
          | Some ?k =>
              destruct (reply_chunks_accumulate defaultOptions
                          leftoverTimerRun x 1%nat k [[0x81; 0x25]; [0x23]]
                          c q)
                as (s1 & t & s2 & H1 & _ & _ & _ & _ & H6 & _ & H8 & H9 & _);
                try (vm_compute; reflexivity); try discriminate;
              exists x, s1, t, s2
          end
      end
  end.
  split; [vm_compute; reflexivity|]. split; [exact H1|].
  split; [reflexivity|]. split.
  - destruct (timerCb 1 s1) as [[| |p]|] eqn:E; try reflexivity.
    + exfalso. vm_compute in H1. apply some_eq in H1. subst s1.
      vm_compute in E. discriminate.
    + exfalso. apply (proj1 (H6 1%nat)) in E. destruct E as [_ E].
      apply E. reflexivity.
    + exfalso. vm_compute in H1. apply some_eq in H1. subst s1.
      vm_compute in E. discriminate.
  - split; [apply (proj2 (H6 0%nat)); split; [reflexivity | discriminate]|].
    split; [exact H8 | exact H9].
Defined.

(** X23: a run never stops on an exception.  In a state reached from a
    new instance, every event the runtime can deliver is handled to the
    end, so the run extends by it; in particular [handleNextCommand] never
    writes to a socket that is null. *)
Theorem run_extends (o : Options) (tr : list Event) (s : State) (e : Event)
  (r : result State) :
  exec tr (init o) = Some s -> step e s = Some r ->
  exists s', r = Ok s' /\ exec (tr ++ [e]) (init o) = Some s' /\
             (commandQueue s' <> [] -> socket s' <> None).
Proof.
  intros H Hs.
  destruct (step_inv e s r (reachable_inv _ _ _ H) Hs) as [s' [E HI]].
  exists s'. split; [exact E|]. split.
  - rewrite exec_app, H. cbn [exec]. rewrite Hs, E. reflexivity.
  - intros Hq Hn. apply Hq. apply (inv_socket s' HI). exact Hn.
Qed.

Lemma run_extends_witness :
  exists s s',
    exec twoQueued (init defaultOptions) = Some s /\
    step (Connected 0) s = Some (Ok s') /\
    exec (twoQueued ++ [Connected 0]) (init defaultOptions) = Some s'.
Proof.
  let r := eval vm_compute in (exec twoQueued (init defaultOptions)) in
  match r with
  | Some ?x =>
      let st := eval vm_compute in (step (Connected 0) x) in
      match st with
      | Some ?y =>
          destruct (run_extends defaultOptions twoQueued x (Connected 0) y)
            as (s' & H1 & H2 & _);
            try (vm_compute; reflexivity);
          exists x, s'
      end
  end.
  split; [vm_compute; reflexivity|]. split; [|exact H2].
  rewrite <- H1. vm_compute. reflexivity.
Defined.

Lemma socketErrorHandler_keep {A} (f : State -> A) err p s :
  (forall v s0, f (set_settled v s0) = f s0) ->
  (forall v s0, f (set_preventDataSending v s0) = f s0) ->
  (forall v s0, f (set_socket v s0) = f s0) ->
  (forall v s0, f (set_sockets v s0) = f s0) ->
  (forall v s0, f (set_commandQueue v s0) = f s0) ->
  f (socketErrorHandler err p s) = f s.
Proof.
  intros H1 H2 H3 H4 H5. unfold socketErrorHandler.
  rewrite H5.
  match goal with
  | |- f (fold_left _ (commandQueue ?x) ?x) = _ =>
      change (f (rejectAll err (commandQueue x) x) = f s)
  end.
  rewrite (rejectAll_keep f) by exact H1. rewrite H3.
  destruct (socket _).
  - unfold socket_end. rewrite H4, (settle_keep f) by exact H1. apply H2.
  - rewrite (settle_keep f) by exact H1. apply H2.
Qed.

(** X24: [socketErrorHandler] cancels no timer.  Whatever the state, the
    armed timers and the three stored timer ids are after it what they were
    before, so a command, connect or quiet timer armed for the connection
    that failed still fires later; only [preventDataSending] is raised, the
    socket dropped and the queue rejected. *)
Theorem socket_error_keeps_timers (err : exn) (p : nat) (s : State) :
  let s' := socketErrorHandler err p s in
  timers s' = timers s /\ nextTimer s' = nextTimer s /\
  commandTimeout s' = commandTimeout s /\
  connectTimeout s' = connectTimeout s /\
  receiveTimeout s' = receiveTimeout s /\
  (forall t, timerCb t s' = timerCb t s) /\
  preventDataSending s' = true /\ socket s' = None /\ commandQueue s' = [].
Proof.
  cbv zeta.
  assert (T : timers (socketErrorHandler err p s) = timers s)
    by (apply socketErrorHandler_keep; reflexivity).
  split; [exact T|].
  split; [apply socketErrorHandler_keep; reflexivity|].
  split; [apply socketErrorHandler_keep; reflexivity|].
  split; [apply socketErrorHandler_keep; reflexivity|].
  split; [apply socketErrorHandler_keep; reflexivity|].
  split; [intros t; unfold timerCb; rewrite T; reflexivity|].
  unfold socketErrorHandler.
  cbn [commandQueue set_commandQueue preventDataSending socket].
  split; [|split; [|reflexivity]].
  - etransitivity;
      [apply (rejectAll_keep preventDataSending err); reflexivity|].
    cbn [preventDataSending set_socket].
    destruct (socket _).
    + unfold socket_end. cbn [preventDataSending set_sockets].
      rewrite (settle_keep preventDataSending) by reflexivity. reflexivity.
    + rewrite (settle_keep preventDataSending) by reflexivity. reflexivity.
  - etransitivity; [apply (rejectAll_keep socket err); reflexivity|].
    reflexivity.
Qed.
